(** * SrvcTame ("Process Tamer"): configuration gate and enforcement loop

    A shallow embedding of [srvctame.c]: the CRC-32 change-detection gate
    ([Tamer_CRC2], [Tamer_GetFileCRC]), the configuration reader
    ([Tamer_ReadConfig]), the per-rule enforcement scan
    ([Tamer_SetProcessPriority]), one service cycle ([Tamer_ServiceProcess]),
    the two endless loops ([Tamer_ServiceMain], [main]) and the installation
    and removal of the service ([Tamer_ServiceInstall],
    [Tamer_ServiceUninstall]).

    The C program keeps everything in one global, [gTamer], and talks to the
    host through Win32 calls.  Here the global is a record that is threaded
    explicitly through every function, the host is a second record ([Host])
    and every Win32 call leaves an [Event] in a trace, so that "which calls
    were made, and in which order" is something theorems can speak about. *)

From Stdlib Require Import ZArith List Bool Lia.
From Stdlib Require Import Strings.String Strings.Ascii Strings.Byte DecimalString.
Import ListNotations.
Local Open Scope string_scope.
Local Open Scope list_scope.
Local Open Scope Z_scope.

(** ** Checksum gate *)

Module Crc.

(** [uint32_t] values are integers in [0, 2^32). *)
Definition uint32_modulus : Z := 2 ^ 32.

Definition is_uint32 (z : Z) : Prop := 0 <= z < 2 ^ 32.

(** [mask = (crc & 1) ? 0xFFFFFFFF : 0x00000000;
     crc  = (crc >> 1) ^ (0xEDB88320 & mask);] *)
Definition crc_bit (crc : Z) : Z :=
  let mask := if Z.land crc 1 =? 0 then 0x00000000 else 0xFFFFFFFF in
  Z.lxor (Z.shiftr crc 1) (Z.land 0xEDB88320 mask).

(** [for ( int j = 7; j >= 0; j-- )]: the body does not read [j]. *)
Fixpoint crc_bits (j : nat) (crc : Z) : Z :=
  match j with
  | O => crc
  | S j' => crc_bits j' (crc_bit crc)
  end.

(** One iteration of the outer loop: [crc = crc ^ byte], then eight bits. *)
Definition crc_byte (crc : Z) (b : byte) : Z :=
  crc_bits 8 (Z.lxor crc (Z.of_N (Byte.to_N b))).

(** [static uint32_t Tamer_CRC2(const uint8_t *data, size_t length)].
    The buffer and its length are one list; [~crc] on a [uint32_t] is the
    complement reduced modulo 2^32. *)
Definition Tamer_CRC2 (data : list byte) : Z :=
  Z.lnot (fold_left crc_byte data 0xFFFFFFFF) mod uint32_modulus.

(** The CRC-32/IEEE algorithm as the specification words it: bit-reflected
    polynomial 0xEDB88320, register initialised to 0xFFFFFFFF, one's
    complement at the end.  Each bit is one step of reflected polynomial
    division: shift right, and subtract (xor) the polynomial when the bit
    shifted out was set. *)
Definition ieee_poly_reflected : Z := 0xEDB88320.

Definition ieee_shift (reg : Z) : Z :=
  if Z.testbit reg 0
  then Z.lxor (Z.shiftr reg 1) ieee_poly_reflected
  else Z.shiftr reg 1.

Definition ieee_byte (reg : Z) (b : byte) : Z :=
  Nat.iter 8 ieee_shift (Z.lxor reg (Z.of_N (Byte.to_N b))).

Definition crc32_ieee (data : list byte) : Z :=
  Z.lxor (fold_left ieee_byte data 0xFFFFFFFF) 0xFFFFFFFF.

End Crc.

Export Crc.

(** ** The host: the Win32 calls the program makes

    None of this is code of the repository.  It is the environment
    [srvctame.c] runs in, reduced to what the program can observe through the
    calls it makes: two directory names, readable files, an INI reader, the
    process table, per process whether it can be opened and which
    priority class it has, and the answers of the service control
    manager. *)

Module Win32.

Definition MAX_PATH : Z := 260.
Definition IDLE_PRIORITY_CLASS : Z := 0x40.
Definition NORMAL_PRIORITY_CLASS : Z := 0x20.
Definition BELOW_NORMAL_PRIORITY_CLASS : Z := 0x4000.

Definition SERVICE_WIN32 : Z := 0x30.
Definition SERVICE_STOPPED : Z := 1.
Definition SERVICE_START_PENDING : Z := 2.
Definition SERVICE_STOP_PENDING : Z := 3.
Definition SERVICE_RUNNING : Z := 4.
Definition SERVICE_CONTROL_STOP : Z := 1.
Definition SERVICE_CONTROL_INTERROGATE : Z := 4.
Definition SERVICE_CONTROL_SHUTDOWN : Z := 5.
Definition SERVICE_ACCEPT_STOP : Z := 1.
Definition SERVICE_ACCEPT_SHUTDOWN : Z := 4.

Definition SC_MANAGER_CREATE_SERVICE : Z := 0x2.
Definition SC_MANAGER_ALL_ACCESS : Z := 0xF003F.
Definition SERVICE_STOP : Z := 0x20.
Definition DELETE : Z := 0x10000.

Definition EXIT_SUCCESS : Z := 0.
Definition EXIT_FAILURE : Z := 1.

(** *** C strings *)

Definition code (c : ascii) : Z := Z.of_N (N_of_ascii c).

(** [tolower] in the "C" locale. *)
Definition tolower (c : ascii) : ascii :=
  if (65 <=? code c) && (code c <=? 90)
  then ascii_of_N (N_of_ascii c + 32)
  else c.

(** [_stricmp]: compares the lower-cased strings; 0 exactly when they are
    equal up to the case of ASCII letters. *)
Fixpoint _stricmp (a b : string) : Z :=
  match a, b with
  | EmptyString, EmptyString => 0
  | EmptyString, String d _ => - code (tolower d)
  | String c _, EmptyString => code (tolower c)
  | String c a', String d b' =>
      let diff := code (tolower c) - code (tolower d) in
      if diff =? 0 then _stricmp a' b' else diff
  end.

Definition strlen (s : string) : Z := Z.of_nat (String.length s).

(** What [snprintf(buf, size, ...)] leaves in [buf]: at most [size - 1]
    characters of the formatted text. *)
Definition snprintf (size : Z) (text : string) : string :=
  substring 0 (Z.to_nat (size - 1)) text.

(** ["%d"] *)
Definition fmt_d (n : Z) : string := NilZero.string_of_int (Z.to_int n).

(** *** Private profile (INI) files *)

Definition is_blank (c : ascii) : bool :=
  (code c =? 32) || (code c =? 9) || (code c =? 13).

Fixpoint ltrim (s : string) : string :=
  match s with
  | String c s' => if is_blank c then ltrim s' else s
  | EmptyString => EmptyString
  end.

Fixpoint rtrim (s : string) : string :=
  match s with
  | EmptyString => EmptyString
  | String c s' =>
      match rtrim s' with
      | EmptyString => if is_blank c then EmptyString else String c EmptyString
      | t => String c t
      end
  end.

Definition trim (s : string) : string := rtrim (ltrim s).

Fixpoint split_on (sep : ascii) (s : string) : list string :=
  match s with
  | EmptyString => [EmptyString]
  | String c s' =>
      if Ascii.eqb c sep then EmptyString :: split_on sep s'
      else match split_on sep s' with
           | l :: ls => String c l :: ls
           | [] => [String c EmptyString]
           end
  end.

Fixpoint cut_at (sep : ascii) (s : string) : option (string * string) :=
  match s with
  | EmptyString => None
  | String c s' =>
      if Ascii.eqb c sep then Some (EmptyString, s')
      else match cut_at sep s' with
           | Some (k, v) => Some (String c k, v)
           | None => None
           end
  end.

Definition last_char (s : string) : option ascii :=
  match String.length s with
  | O => None
  | S n => String.get n s
  end.

(** A value enclosed in a pair of single or double quotation marks is
    returned without the marks. *)
Definition unquote (v : string) : string :=
  match v with
  | String q rest =>
      if ((code q =? 34) || (code q =? 39))
         && (match last_char rest with Some q' => Ascii.eqb q q' | None => false end)
      then substring 0 (String.length rest - 1) rest
      else v
  | EmptyString => v
  end.

Inductive IniLine :=
| SectionLine (name : string)
| KeyLine (key value : string)
| OtherLine.

Definition classify (raw : string) : IniLine :=
  match trim raw with
  | String "[" rest =>
      match cut_at "]" rest with
      | Some (name, _) => SectionLine name
      | None => OtherLine
      end
  | String ";" _ => OtherLine
  | line =>
      match cut_at "=" line with
      | Some (k, v) => KeyLine (trim k) (unquote (trim v))
      | None => OtherLine
      end
  end.

(** The first [key] of section [app]; section and key names compare without
    regard to case. *)
Fixpoint find_key (app key : string) (inside : bool) (ls : list IniLine)
  : option string :=
  match ls with
  | [] => None
  | SectionLine name :: ls' => find_key app key (_stricmp name app =? 0) ls'
  | KeyLine k v :: ls' =>
      if inside && (_stricmp k key =? 0) then Some v
      else find_key app key inside ls'
  | OtherLine :: ls' => find_key app key inside ls'
  end.

Definition profile_lookup (content app key : string) : option string :=
  find_key app key false (map classify (split_on "010" content)).

Definition is_digit (c : ascii) : bool := (48 <=? code c) && (code c <=? 57).

Fixpoint digits_value (acc : Z) (s : string) : Z :=
  match s with
  | String c s' => if is_digit c then digits_value (10 * acc + (code c - 48)) s' else acc
  | EmptyString => acc
  end.

End Win32.

Export Win32.

(** ** Data model of [srvctame.c] *)

Definition SRVC_TAME_RUN_AS_SERVICE : bool := true.
Definition SRVC_TAME_INI_FILE : string := "SrvcTame.ini".
Definition SRVC_TAME_SERVICE_NAME : string := "ProcessTamer".
Definition SRVC_TAME_SERVICE_DISPLAY_NAME : string := "Process Tamer".
Definition SRVC_TAME_SERVICE_DESCRIPTION : string := "Windows process taming service".
Definition SRVC_TAME_INTERVAL : Z := 10000.

(** [struct __Tamer_ProcList]; the [next] pointer is the tail of the list
    the node sits in. *)
Record Tamer_Proc := mkProc {
  procName : string;
  priority : Z
}.

(** [struct __Tamer_Config] *)
Record Tamer_Config := mkConfig {
  serviceDispalyName : string;
  serviceDescription : string;
  filePath : string;
  interval : Z;
  crc32 : Z;
  procList : list Tamer_Proc
}.

Record SERVICE_STATUS := mkStatus {
  dwServiceType : Z;
  dwCurrentState : Z;
  dwControlsAccepted : Z;
  dwWin32ExitCode : Z
}.

(** [struct __Tamer_GlobalsTypeDef]; [config = None] is the NULL pointer. *)
Record Tamer_GlobalsTypeDef := mkGlobals {
  ServiceStatus : SERVICE_STATUS;
  hStatus : Z;
  config : option Tamer_Config;
  serviceMode : bool
}.

(** [Tamer_GlobalsTypeDef gTamer = {0};] *)
Definition gTamer_zero : Tamer_GlobalsTypeDef :=
  mkGlobals (mkStatus 0 0 0 0) 0 None false.

(** [memset(gTamer.config, 0, sizeof(Tamer_Config))] *)
Definition config_zero : Tamer_Config := mkConfig EmptyString EmptyString EmptyString 0 0 [].

(** ** Host state, machine state and the trace of calls *)

(** The two fields of [PROCESSENTRY32] the program reads. *)
Record PROCESSENTRY32 := mkEntry {
  th32ProcessID : Z;
  szExeFile : string
}.

(** The service control manager, as the install and uninstall code meets
    it: what each of its calls answers. *)
Record ServiceManager := mkSCM {
  (** Whether [OpenSCManager(NULL, NULL, access)] gives a handle. *)
  openSCManager : Z -> bool;
  (** Whether [CreateService] for this service name, display name and
      binary path gives a handle. *)
  createService : string -> string -> string -> bool;
  (** Whether [ChangeServiceConfig2] accepts this description. *)
  changeServiceConfig2 : string -> bool;
  (** Whether [OpenService(hSCManager, name, SERVICE_STOP | DELETE)] gives
      a handle. *)
  openService : string -> bool;
  (** Whether [ControlService] accepts this control code. *)
  controlService : Z -> bool;
  (** [QueryServiceStatus] at this moment: [None] when the call fails,
      otherwise the [dwCurrentState] it reports. *)
  queryServiceStatus : option Z;
  (** Whether [DeleteService] succeeds at this moment. *)
  deleteService : bool
}.

Record Host := mkHost {
  (** [GetWindowsDirectory] / [GetCurrentDirectory]; [None]: the call
      returns 0. *)
  windowsDirectory : option string;
  currentDirectory : option string;
  (** The bytes [Tamer_GetFileCRC] gets out of a path.  [None] stands for
      every way its [do { } while (0)] block is left before the CRC is
      computed: [fopen] fails, no memory for the buffer, [fread] comes
      short. *)
  files : string -> option string;
  (** What [CreateToolhelp32Snapshot] would list at this moment. *)
  processTable : list PROCESSENTRY32;
  (** Whether [OpenProcess(PROCESS_ALL_ACCESS, FALSE, pid)] gives a handle. *)
  canOpen : Z -> bool;
  (** [GetPriorityClass] of the process with this id. *)
  priorityClass : Z -> Z;
  (** [RegisterServiceCtrlHandler]'s result; 0 is failure. *)
  ctrlHandle : Z;
  (** Whether the service control manager started the process, so that
      [StartServiceCtrlDispatcher] calls the service's main function. *)
  startedBySCM : bool;
  (** What [GetFullPathName] leaves in the buffer for this file name (the
      buffer starts zeroed, so the empty string when the call fails). *)
  fullPathName : string -> string;
  scm : ServiceManager
}.

Inductive SC_HANDLE := hSCManager | hService.

(** The calls of the install and uninstall code, with what they were
    given and what they answered. *)
Inductive SCMCall :=
| ScOpenSCManager (access : Z) (ok : bool)
| ScGetFullPathName (procName : string)
| ScCreateService (serviceName serviceDisplayName path : string) (ok : bool)
| ScChangeServiceConfig2 (serviceDescription : string) (ok : bool)
| ScOpenService (serviceName : string) (access : Z) (ok : bool)
| ScControlService (control : Z) (ok : bool)
| ScQueryServiceStatus (state : option Z)
| ScDeleteService (ok : bool)
| ScCloseServiceHandle (h : SC_HANDLE).

Inductive Event :=
| EvFileRead (path : string)
| EvProfileString (app key : string)
| EvProfileInt (app key : string)
| EvSnapshot
| EvOpenProcess (pid : Z) (opened : bool)
| EvGetPriorityClass (pid : Z)
| EvSetPriorityClass (pid : Z) (cls : Z)
| EvSleep (ms : Z)
| EvPrintf (text : string)
| EvServiceManager (call : SCMCall).

Record Machine := mkMachine {
  gTamer : Tamer_GlobalsTypeDef;
  host : Host;
  (** How many more [malloc(sizeof(Tamer_Config))] / [malloc(sizeof(Tamer_Proc))]
      calls return a block; at 0, [malloc] returns NULL. *)
  heap : nat;
  trace : list Event
}.

Definition log (e : Event) (m : Machine) : Machine :=
  mkMachine (gTamer m) (host m) (heap m) (trace m ++ [e]).

Definition set_gTamer (g : Tamer_GlobalsTypeDef) (m : Machine) : Machine :=
  mkMachine g (host m) (heap m) (trace m).

Definition set_heap (n : nat) (m : Machine) : Machine :=
  mkMachine (gTamer m) (host m) n (trace m).

Definition set_host (h : Host) (m : Machine) : Machine :=
  mkMachine (gTamer m) h (heap m) (trace m).

Definition set_config (c : Tamer_Config) (m : Machine) : Machine :=
  set_gTamer (mkGlobals (ServiceStatus (gTamer m)) (hStatus (gTamer m))
                        (Some c) (serviceMode (gTamer m))) m.

Definition set_serviceMode (b : bool) (m : Machine) : Machine :=
  set_gTamer (mkGlobals (ServiceStatus (gTamer m)) (hStatus (gTamer m))
                        (config (gTamer m)) b) m.

Definition set_ServiceStatus (s : SERVICE_STATUS) (m : Machine) : Machine :=
  set_gTamer (mkGlobals s (hStatus (gTamer m))
                        (config (gTamer m)) (serviceMode (gTamer m))) m.

Definition set_hStatus (h : Z) (m : Machine) : Machine :=
  set_gTamer (mkGlobals (ServiceStatus (gTamer m)) h
                        (config (gTamer m)) (serviceMode (gTamer m))) m.

Definition set_priorityClass (pid cls : Z) (h : Host) : Host :=
  mkHost (windowsDirectory h) (currentDirectory h) (files h) (processTable h)
         (canOpen h)
         (fun p => if p =? pid then cls else priorityClass h p)
         (ctrlHandle h) (startedBySCM h) (fullPathName h) (scm h).

(** *** The profile calls, as the program sees them *)

(** [GetPrivateProfileString(app, key, def, buf, nSize, file)]: the text left
    in [buf] (at most [nSize - 1] characters of the value, or of [def] when
    the file or the key is missing).  The call's return value is the length
    of that text. *)
Definition GetPrivateProfileString
    (h : Host) (app key def : string) (nSize : Z) (file : string) : string :=
  let value :=
    match files h file with
    | Some content =>
        match profile_lookup content app key with
        | Some v => v
        | None => def
        end
    | None => def
    end in
  substring 0 (Z.to_nat (nSize - 1)) value.

(** [GetPrivateProfileInt(app, key, def, file)]: the leading run of decimal
    digits of the value as a [UINT]; [def] when the file or the key is
    missing. *)
Definition GetPrivateProfileInt
    (h : Host) (app key : string) (def : Z) (file : string) : Z :=
  match files h file with
  | Some content =>
      match profile_lookup content app key with
      | Some v => digits_value 0 v mod uint32_modulus
      | None => def
      end
  | None => def
  end.

(** Storing a [UINT] into an [int]. *)
Definition int_of_uint (u : Z) : Z :=
  if u <? 2 ^ 31 then u else u - 2 ^ 32.

(** ** The program *)

(** Modelled from the spec: [llist.h] is not among the sources.  Its macros
    [LL_APPEND], [LL_COUNT], [LL_FOREACH] and [LL_FOREACH_SAFE] are taken as
    the spec describes the rule list: an ordered sequence to which a rule is
    appended at the end, whose elements are counted, and which is walked
    from its head in stored order.  (The counter of [LL_COUNT] and the
    loader's [processIndex] are C [int]s; both stay below the number of
    nodes the allocator hands out, and signed overflow has no defined
    result to model.) *)
Definition LL_APPEND (head : list Tamer_Proc) (el : Tamer_Proc) : list Tamer_Proc :=
  head ++ [el].

Definition LL_COUNT (head : list Tamer_Proc) : Z := Z.of_nat (List.length head).

Definition LL_FOREACH {S : Type} (head : list Tamer_Proc)
    (body : Tamer_Proc -> S -> S) (s : S) : S :=
  fold_left (fun acc el => body el acc) head s.

(** [static uint32_t Tamer_GetFileCRC(const char *fileName)]: 0 on error. *)
Definition Tamer_GetFileCRC (h : Host) (fileName : string) : Z :=
  match files h fileName with
  | None => 0
  | Some content => Tamer_CRC2 (list_byte_of_string content)
  end.

(** The [if ( gTamer.config == NULL )] block of [Tamer_ReadConfig].
    [None]: [malloc] failed and the function returns 0 at once. *)
Definition first_run (m : Machine) : option (Tamer_Config * Machine) :=
  match config (gTamer m) with
  | Some c => Some (c, m)
  | None =>
      match heap m with
      | O => None
      | S n => Some (config_zero, set_config config_zero (set_heap n m))
      end
  end.

(** The [if ( gTamer.config->filePath[0] == 0 )] block.  [None]: the
    directory call returned 0 and the function breaks out. *)
Definition locate_ini (c : Tamer_Config) (m : Machine)
  : option (Tamer_Config * Machine) :=
  match filePath c with
  | EmptyString =>
      let iniFile :=
        if serviceMode (gTamer m)
        then windowsDirectory (host m)
        else currentDirectory (host m) in
      match iniFile with
      | None | Some EmptyString => None
      | Some dir =>
          let c' := mkConfig (serviceDispalyName c) (serviceDescription c)
                      (snprintf MAX_PATH (dir ++ "\" ++ SRVC_TAME_INI_FILE))
                      (interval c) (crc32 c) (procList c) in
          Some (c', set_config c' m)
      end
  | _ => Some (c, m)
  end.

Definition name_key (processIndex : Z) : string :=
  snprintf 256 ("Process" ++ fmt_d processIndex ++ "_Name").

Definition prio_key (processIndex : Z) : string :=
  snprintf 256 ("Process" ++ fmt_d processIndex ++ "_Prio").

(** The [while ( 1 )] loop that builds the list.  It recurses on the
    allocator's budget: every round starts with a [malloc], and the loop is
    left when that returns NULL or when the name of the round's index is
    missing (the node is then freed again).  Returns the list, what is left
    of the budget and the trace. *)
Fixpoint load_processes (budget : nat) (h : Host) (file : string)
    (processIndex : Z) (head : list Tamer_Proc) (tr : list Event)
  : list Tamer_Proc * nat * list Event :=
  match budget with
  | O => (head, O, tr)
  | S budget' =>
      let name :=
        GetPrivateProfileString h "Processes" (name_key processIndex) EmptyString (128 - 1) file in
      let tr1 := tr ++ [EvProfileString "Processes" (name_key processIndex)] in
      if strlen name =? 0 then (head, S budget', tr1)
      else
        let el := mkProc name
                    (int_of_uint
                       (GetPrivateProfileInt h "Processes" (prio_key processIndex) 0 file)) in
        load_processes budget' h file (processIndex + 1) (LL_APPEND head el)
                       (tr1 ++ [EvProfileInt "Processes" (prio_key processIndex)])
  end.

(** The body of [if ( crc32 != gTamer.config->crc32 )]. *)
Definition reload (crc : Z) (c : Tamer_Config) (m : Machine) : Machine :=
  let h := host m in
  let file := filePath c in
  let display :=
    GetPrivateProfileString h "Service" "DisplayName"
      SRVC_TAME_SERVICE_DISPLAY_NAME (256 - 1) file in
  let descr :=
    GetPrivateProfileString h "Service" "Description"
      SRVC_TAME_SERVICE_DESCRIPTION (256 - 1) file in
  let ival := GetPrivateProfileInt h "Service" "Interval" SRVC_TAME_INTERVAL file in
  let tr := trace m ++ [EvProfileString "Service" "DisplayName";
                        EvProfileString "Service" "Description";
                        EvProfileInt "Service" "Interval"] in
  (* LL_FOREACH_SAFE ... free(el): every node goes back to the allocator *)
  let freed := (heap m + List.length (procList c))%nat in
  let '(head, budget, tr') := load_processes freed h file 1 [] tr in
  let c' := mkConfig display descr file ival crc head in
  mkMachine (mkGlobals (ServiceStatus (gTamer m)) (hStatus (gTamer m))
                       (Some c') (serviceMode (gTamer m)))
            h budget tr'.

Definition current_procList (m : Machine) : list Tamer_Proc :=
  match config (gTamer m) with
  | Some c => procList c
  | None => []
  end.

(** [static int Tamer_ReadConfig(void)]: the number of items in the process
    list, or 0 on error. *)
Definition Tamer_ReadConfig (m : Machine) : Z * Machine :=
  match first_run m with
  | None => (0, m)
  | Some (c0, m0) =>
      match locate_ini c0 m0 with
      | None => (0, m0)
      | Some (c, m1) =>
          let m2 := log (EvFileRead (filePath c)) m1 in
          let crc := Tamer_GetFileCRC (host m2) (filePath c) in
          if crc =? 0 then (0, m2)
          else if crc =? crc32 c then (LL_COUNT (procList c), m2)
          else let m3 := reload crc c m2 in
               (LL_COUNT (current_procList m3), m3)
      end
  end.

(** [SetPriorityClass] on a handle opened with [PROCESS_ALL_ACCESS]; the
    program does not look at its result. *)
Definition SetPriorityClass (pid cls : Z) (m : Machine) : Machine :=
  log (EvSetPriorityClass pid cls)
      (set_host (set_priorityClass pid cls (host m)) m).

(** The body of the [while ( hRes )] loop for one snapshot entry. *)
Definition scan_entry (proc : Tamer_Proc) (m : Machine) (pEntry : PROCESSENTRY32)
  : Machine :=
  if _stricmp (szExeFile pEntry) (procName proc) =? 0 then
    let pid := th32ProcessID pEntry in
    let opened := canOpen (host m) pid in
    let m1 := log (EvOpenProcess pid opened) m in
    if opened then
      let m2 := log (EvGetPriorityClass pid) m1 in
      if priorityClass (host m2) pid =? IDLE_PRIORITY_CLASS then m2
      else SetPriorityClass pid IDLE_PRIORITY_CLASS m2
    else m1
  else m.

(** [Process32First] / [Process32Next] over the snapshot that was taken. *)
Fixpoint walk_snapshot (proc : Tamer_Proc) (snapshot : list PROCESSENTRY32)
    (m : Machine) : Machine :=
  match snapshot with
  | [] => m
  | pEntry :: rest => walk_snapshot proc rest (scan_entry proc m pEntry)
  end.

(** [static void Tamer_SetProcessPriority(Tamer_Proc *proc)] *)
Definition Tamer_SetProcessPriority (proc : Tamer_Proc) (m : Machine) : Machine :=
  let m1 := log EvSnapshot m in
  let hSnapShot := processTable (host m1) in
  walk_snapshot proc hSnapShot m1.

(** [static void Tamer_ServiceControl(DWORD request)] *)
Definition Tamer_ServiceControl (request : Z) (m : Machine) : Machine :=
  if negb (serviceMode (gTamer m)) then m
  else if (request =? SERVICE_CONTROL_STOP) || (request =? SERVICE_CONTROL_SHUTDOWN)
  then
    let s := ServiceStatus (gTamer m) in
    set_ServiceStatus
      (mkStatus (dwServiceType s) SERVICE_STOPPED (dwControlsAccepted s)
                (dwWin32ExitCode s)) m
  else m.

(** [static bool Tamer_ServiceInit(void)] *)
Definition Tamer_ServiceInit (m : Machine) : bool :=
  if negb (serviceMode (gTamer m)) then false else true.

(** [static bool Tamer_ServiceProcess(void)] *)
Definition Tamer_ServiceProcess (m : Machine) : bool * Machine :=
  let '(n, m1) := Tamer_ReadConfig m in
  if n =? 0 then (false, m1)
  else
    match config (gTamer m1) with
    | None => (false, m1)
    | Some c =>
        match procList c with
        | [] => (false, m1)
        | head => (true, LL_FOREACH head Tamer_SetProcessPriority m1)
        end
    end.

(** *** The endless loops

    Neither loop returns on its own, so a run is observed for as many cycles
    as there are [Tick]s.  A tick says what the rest of the system does
    while the program sleeps: how the host changes (files edited, processes
    started or re-prioritised) and which control request, if any, the
    service control manager delivers to [Tamer_ServiceControl]. *)

Record Tick := mkTick {
  meanwhile : Host -> Host;
  control : option Z
}.

Inductive Run (A : Type) :=
| Returned (a : A)
| Running
| Fault.
Arguments Returned {A} a.
Arguments Running {A}.
Arguments Fault {A}.

Definition Sleep (ms : Z) (t : Tick) (m : Machine) : Machine :=
  let m1 := set_host (meanwhile t (host m)) (log (EvSleep ms) m) in
  match control t with
  | Some request => Tamer_ServiceControl request m1
  | None => m1
  end.

(** [while ( gTamer.ServiceStatus.dwCurrentState == SERVICE_RUNNING )
       { Tamer_ServiceProcess(); Sleep(gTamer.config->interval); }]
    [Fault]: [gTamer.config] is NULL where it is dereferenced. *)
Fixpoint service_loop (ticks : list Tick) (m : Machine) : Run bool * Machine :=
  if dwCurrentState (ServiceStatus (gTamer m)) =? SERVICE_RUNNING then
    match ticks with
    | [] => (Running, m)
    | t :: ticks' =>
        let m1 := snd (Tamer_ServiceProcess m) in
        match config (gTamer m1) with
        | None => (Fault, m1)
        | Some c => service_loop ticks' (Sleep (interval c) t m1)
        end
    end
  else (Returned true, m).

(** [while ( 1 ) { Tamer_ServiceProcess(); Sleep(gTamer.config->interval); }] *)
Fixpoint console_loop (ticks : list Tick) (m : Machine) : Run Z * Machine :=
  match ticks with
  | [] => (Running, m)
  | t :: ticks' =>
      let m1 := snd (Tamer_ServiceProcess m) in
      match config (gTamer m1) with
      | None => (Fault, m1)
      | Some c => console_loop ticks' (Sleep (interval c) t m1)
      end
  end.

(** [bool Tamer_ServiceMain(int argc, char **argv)] *)
Definition Tamer_ServiceMain (ticks : list Tick) (m : Machine) : Run bool * Machine :=
  if negb (serviceMode (gTamer m)) then (Returned false, m)
  else
    let s0 := ServiceStatus (gTamer m) in
    let m1 := set_ServiceStatus
                (mkStatus SERVICE_WIN32 SERVICE_START_PENDING
                          (Z.lor SERVICE_ACCEPT_STOP SERVICE_ACCEPT_SHUTDOWN)
                          (dwWin32ExitCode s0)) m in
    let m2 := set_hStatus (ctrlHandle (host m1)) m1 in
    if hStatus (gTamer m2) =? 0 then (Returned false, m2)
    else if negb (Tamer_ServiceInit m2) then
      let s := ServiceStatus (gTamer m2) in
      (Returned false,
       set_ServiceStatus
         (mkStatus (dwServiceType s) SERVICE_STOPPED (dwControlsAccepted s)
                   ((-1) mod uint32_modulus)) m2)
    else
      let s := ServiceStatus (gTamer m2) in
      service_loop ticks
        (set_ServiceStatus
           (mkStatus (dwServiceType s) SERVICE_RUNNING (dwControlsAccepted s)
                     (dwWin32ExitCode s)) m2).

(** *** Installing and removing the service *)

Definition LF : string := String "010" EmptyString.

Definition sc (call : SCMCall) (m : Machine) : Machine :=
  log (EvServiceManager call) m.

(** [static int Tamer_ServiceInstall(char *procName, const char *serviceName,
       const char *serviceDisplayName, const char *serviceDescription)] *)
Definition Tamer_ServiceInstall
    (procName serviceName serviceDisplayName serviceDescription : string)
    (m : Machine) : Z * Machine :=
  let retVal := EXIT_FAILURE in
  let opened := openSCManager (scm (host m)) SC_MANAGER_CREATE_SERVICE in
  let m1 := sc (ScOpenSCManager SC_MANAGER_CREATE_SERVICE opened) m in
  if opened then
    let path := fullPathName (host m1) procName in
    let m2 := sc (ScGetFullPathName procName) m1 in
    let created := createService (scm (host m2)) serviceName serviceDisplayName path in
    let m3 := sc (ScCreateService serviceName serviceDisplayName path created) m2 in
    if created then
      let changed := changeServiceConfig2 (scm (host m3)) serviceDescription in
      let m4 := sc (ScChangeServiceConfig2 serviceDescription changed) m3 in
      (if changed then EXIT_SUCCESS else retVal,
       sc (ScCloseServiceHandle hSCManager) (sc (ScCloseServiceHandle hService) m4))
    else (retVal, sc (ScCloseServiceHandle hSCManager) m3)
  else (retVal, m1).

(** A tick as a process goes through it that has registered no control
    handler, like the one that removes the service: the rest of the system
    moves on, no control request reaches the program. *)
Definition unattended (t : Tick) : Tick := mkTick (meanwhile t) None.

(** [while ( QueryServiceStatus(hService, &status) )
       { if ( status.dwCurrentState == SERVICE_STOP_PENDING ) Sleep(500);
         else break; }]
    The loop goes on for as long as the service control manager reports
    the stop as pending; like the other loops it is observed for as many
    sleeps as there are ticks. *)
Fixpoint stop_pending_loop (ticks : list Tick) (m : Machine) : Run unit * Machine :=
  let status := queryServiceStatus (scm (host m)) in
  let m1 := sc (ScQueryServiceStatus status) m in
  match status with
  | None => (Returned tt, m1)
  | Some dwCurrentState =>
      if dwCurrentState =? SERVICE_STOP_PENDING then
        match ticks with
        | [] => (Running, m1)
        | t :: ticks' => stop_pending_loop ticks' (Sleep 500 (unattended t) m1)
        end
      else (Returned tt, m1)
  end.

(** [static int Tamer_ServiceUninstall(const char *serviceName)]; the
    name is a C string here, so the [serviceName] half of the first test
    holds. *)
Definition Tamer_ServiceUninstall (serviceName : string) (ticks : list Tick)
    (m : Machine) : Run Z * Machine :=
  let retVal := EXIT_FAILURE in
  let opened := openSCManager (scm (host m)) SC_MANAGER_ALL_ACCESS in
  let m1 := sc (ScOpenSCManager SC_MANAGER_ALL_ACCESS opened) m in
  if opened then
    let found := openService (scm (host m1)) serviceName in
    let m2 := sc (ScOpenService serviceName (Z.lor SERVICE_STOP DELETE) found) m1 in
    if found then
      let stopping := controlService (scm (host m2)) SERVICE_CONTROL_STOP in
      let m3 := sc (ScControlService SERVICE_CONTROL_STOP stopping) m2 in
      let waited :=
        if stopping then
          match ticks with
          | [] => (Running, m3)
          | t :: ticks' => stop_pending_loop ticks' (Sleep 1000 (unattended t) m3)
          end
        else (Returned tt, m3) in
      match waited with
      | (Returned _, m4) =>
          let deleted := deleteService (scm (host m4)) in
          let m5 := sc (ScDeleteService deleted) m4 in
          (Returned (if deleted then EXIT_SUCCESS else retVal),
           sc (ScCloseServiceHandle hSCManager) (sc (ScCloseServiceHandle hService) m5))
      | (Running, m4) => (Running, m4)
      | (Fault, m4) => (Fault, m4)
      end
    else (Returned retVal, sc (ScCloseServiceHandle hSCManager) m2)
  else (Returned retVal, m1).

(** What [main] prints after an install or uninstall. *)
Definition operation_report (retVal : Z) : string :=
  if retVal =? EXIT_SUCCESS
  then "Operation completed successfully." ++ LF
  else "Operation was not completed successfully." ++ LF.

(** [int main(int argc, char *argv[])]; [Fault]: [gTamer.config] is NULL
    where the install branch dereferences it. *)
Definition main (argv : list string) (ticks : list Tick) (start : Machine)
  : Run Z * Machine :=
  let m := set_serviceMode SRVC_TAME_RUN_AS_SERVICE start in
  let '(n, m1) := Tamer_ReadConfig m in
  if n =? 0 then
    match config (gTamer m1) with
    | Some c =>
        (Returned EXIT_FAILURE,
         log (EvPrintf ("Error while reading configuration from " ++ filePath c
                        ++ "." ++ LF)) m1)
    | None =>
        (Returned EXIT_FAILURE,
         log (EvPrintf ("Error while looking for " ++ SRVC_TAME_INI_FILE
                        ++ "." ++ LF)) m1)
    end
  else
    match argv with
    | [procName; option] =>
        if _stricmp option "-i" =? 0 then
          match config (gTamer m1) with
          | None => (Fault, m1)
          | Some c =>
              let '(retVal, m2) :=
                Tamer_ServiceInstall procName SRVC_TAME_SERVICE_NAME
                                     (serviceDispalyName c) (serviceDescription c) m1 in
              (Returned retVal, log (EvPrintf (operation_report retVal)) m2)
          end
        else if _stricmp option "-u" =? 0 then
          match Tamer_ServiceUninstall SRVC_TAME_SERVICE_NAME ticks m1 with
          | (Returned retVal, m2) =>
              (Returned retVal, log (EvPrintf (operation_report retVal)) m2)
          | (Running, m2) => (Running, m2)
          | (Fault, m2) => (Fault, m2)
          end
        else
          (Returned EXIT_FAILURE,
           log (EvPrintf ("Unknown command line option provided." ++ LF)) m1)
    | _ =>
        if serviceMode (gTamer m1) then
          if startedBySCM (host m1) then
            match Tamer_ServiceMain ticks m1 with
            | (Returned _, m2) => (Returned EXIT_SUCCESS, m2)
            | (Running, m2) => (Running, m2)
            | (Fault, m2) => (Fault, m2)
            end
          else (Returned EXIT_SUCCESS, m1)
        else console_loop ticks m1
    end.

(** The machine at process start: zeroed globals, empty trace. *)
Definition boot (h : Host) (budget : nat) : Machine :=
  mkMachine gTamer_zero h budget [].

(** ** Observing a run *)

(** The events a step added: what [m'] has logged beyond [m]. *)
Definition since (m m' : Machine) : list Event :=
  skipn (List.length (trace m)) (trace m').

Definition is_snapshot (e : Event) : bool :=
  match e with EvSnapshot => true | _ => false end.

Definition is_sleep (e : Event) : bool :=
  match e with EvSleep _ => true | _ => false end.

(** The events of reading the configuration source. *)
Definition is_config_read (e : Event) : bool :=
  match e with
  | EvFileRead _ | EvProfileString _ _ | EvProfileInt _ _ => true
  | _ => false
  end.

(** [m'] has the trace of [m] and possibly more: the step from [m] to [m']
    only added events. *)
Definition grows (m m' : Machine) : Prop :=
  trace m' = trace m ++ since m m'.

(** What one round of the scan loop does for one snapshot entry. *)
Definition entry_events (proc : Tamer_Proc) (h : Host) (pEntry : PROCESSENTRY32)
  : list Event :=
  let pid := th32ProcessID pEntry in
  if _stricmp (szExeFile pEntry) (procName proc) =? 0 then
    if canOpen h pid then
      EvOpenProcess pid true :: EvGetPriorityClass pid ::
      (if priorityClass h pid =? IDLE_PRIORITY_CLASS then []
       else [EvSetPriorityClass pid IDLE_PRIORITY_CLASS])
    else [EvOpenProcess pid false]
  else [].

(** A process the scan for [proc] gets hold of: listed in the snapshot
    under a matching name, and openable. *)
Definition tamed (proc : Tamer_Proc) (h : Host) (snapshot : list PROCESSENTRY32)
    (pid : Z) : bool :=
  existsb (fun pEntry => (_stricmp (szExeFile pEntry) (procName proc) =? 0)
                         && (th32ProcessID pEntry =? pid)
                         && canOpen h pid) snapshot.

(** How many process-table snapshots a run took. *)
Definition snapshots (tr : list Event) : nat := List.length (filter is_snapshot tr).

(** How many times a run went to sleep. *)
Definition sleeps (tr : list Event) : nat := List.length (filter is_sleep tr).

(** The [OpenProcess] calls of a run, in order, with their outcome. *)
Fixpoint open_attempts (tr : list Event) : list (Z * bool) :=
  match tr with
  | [] => []
  | EvOpenProcess pid ok :: tr' => (pid, ok) :: open_attempts tr'
  | _ :: tr' => open_attempts tr'
  end.

(** The [SetPriorityClass] calls of a run, in order. *)
Fixpoint set_calls (tr : list Event) : list (Z * Z) :=
  match tr with
  | [] => []
  | EvSetPriorityClass pid cls :: tr' => (pid, cls) :: set_calls tr'
  | _ :: tr' => set_calls tr'
  end.

(** The image name of a snapshot entry matches a rule. *)
Definition matches (proc : Tamer_Proc) (pEntry : PROCESSENTRY32) : bool :=
  _stricmp (szExeFile pEntry) (procName proc) =? 0.

(** The [OpenProcess] calls one scan for [proc] has to make on a snapshot:
    one per matching entry, in snapshot order. *)
Definition expected_attempts (h : Host) (proc : Tamer_Proc) : list (Z * bool) :=
  map (fun pEntry => (th32ProcessID pEntry, canOpen h (th32ProcessID pEntry)))
      (filter (matches proc) (processTable h)).

(** *** What the loader sees in a source *)

(** The path [Tamer_ReadConfig] reads in this state, when it gets as far as
    reading. *)
Definition ini_path (m : Machine) : option string :=
  match first_run m with
  | None => None
  | Some (c0, m0) =>
      match locate_ini c0 m0 with
      | None => None
      | Some (c, _) => Some (filePath c)
      end
  end.

(** The digest stored by the last reload; 0 before the first one. *)
Definition stored_crc (m : Machine) : Z :=
  match config (gTamer m) with
  | Some c => crc32 c
  | None => 0
  end.

(** The nodes the loader can allocate in a reload: what the allocator has
    left once the configuration block exists, plus the nodes of the old
    list, which are freed first. *)
Definition loader_budget (m : Machine) : nat :=
  match first_run m with
  | Some (c0, m0) => (heap m0 + List.length (procList c0))%nat
  | None => O
  end.

(** [Process{i}_Name] as the loader reads it, and whether it is there. *)
Definition name_at (h : Host) (file : string) (i : Z) : string :=
  GetPrivateProfileString h "Processes" (name_key i) EmptyString (128 - 1) file.

Definition name_defined (h : Host) (file : string) (i : Z) : bool :=
  negb (strlen (name_at h file i) =? 0).

(** The rule the loader builds for index [i]. *)
Definition rule_at (h : Host) (file : string) (i : Z) : Tamer_Proc :=
  mkProc (name_at h file i)
         (int_of_uint (GetPrivateProfileInt h "Processes" (prio_key i) 0 file)).

(** The indices [first, first + 1, ..., first + count - 1]. *)
Definition indices (first : Z) (count : nat) : list Z :=
  map (fun n => first + Z.of_nat n) (seq 0 count).

(** A control request that makes [Tamer_ServiceControl] stop the service. *)
Definition is_stop_request (t : Tick) : bool :=
  match control t with
  | Some request => (request =? SERVICE_CONTROL_STOP) || (request =? SERVICE_CONTROL_SHUTDOWN)
  | None => false
  end.

(** ** Concrete hosts and sources

    A small machine the statements below are tried on: a Windows directory
    holding [SrvcTame.ini], and six live processes, four of them instances
    of one image under differently cased names. *)

Module Scenario.

Definition LF : string := String "010" EmptyString.

Definition text (lines : list string) : string := String.concat LF lines.

Definition ini_file : string := "C:\Windows\SrvcTame.ini".

(** One rule, then a gap at index 2, then an index that is there. *)
Definition ini_gap : string :=
  text ["[Service]"; "Interval=500";
        "[Processes]";
        "Process1_Name=foo.exe"; "Process1_Prio=16384";
        "Process3_Name=baz.exe"; "Process3_Prio=64"].

(** Two rules naming one image. *)
Definition ini_twice : string :=
  text ["[Processes]";
        "Process1_Name=foo.exe"; "Process1_Prio=0";
        "Process2_Name=FOO.EXE"; "Process2_Prio=32"].

(** A source caught in the middle of an edit: readable, no rule. *)
Definition ini_norules : string :=
  text ["[Service]"; "Interval=250"; "[Processes]"].

Definition table : list PROCESSENTRY32 :=
  [mkEntry 4 "System"; mkEntry 100 "FOO.exe"; mkEntry 101 "bar.exe";
   mkEntry 102 "foo.exe"; mkEntry 103 "foo.exe"; mkEntry 104 "Foo.Exe"].

(** A service control manager that grants every request; the service is
    running. *)
Definition service_manager : ServiceManager :=
  mkSCM (fun _ => true) (fun _ _ _ => true) (fun _ => true) (fun _ => true)
        (fun _ => true) (Some SERVICE_RUNNING) true.

(** Process 102 cannot be opened; 103 is idle already; 104 runs at the
    class [ini_gap] asks for (16384); the rest run at normal priority. *)
Definition pc (source : option string) : Host :=
  mkHost (Some "C:\Windows") (Some "C:\work")
         (fun p => if String.eqb p ini_file then source else None)
         table
         (fun pid => negb (pid =? 102))
         (fun pid => if pid =? 103 then IDLE_PRIORITY_CLASS
                     else if pid =? 104 then BELOW_NORMAL_PRIORITY_CLASS
                     else NORMAL_PRIORITY_CLASS)
         7 true (fun procName => ("C:\work\" ++ procName)%string) service_manager.

(** The source is replaced (edited, removed) behind the program's back. *)
Definition with_source (source : option string) (h : Host) : Host :=
  mkHost (windowsDirectory h) (currentDirectory h)
         (fun p => if String.eqb p ini_file then source else files h p)
         (processTable h) (canOpen h) (priorityClass h)
         (ctrlHandle h) (startedBySCM h) (fullPathName h) (scm h).

(** The service right after its start-up read of [source]. *)
Definition started (source : string) : Machine :=
  snd (Tamer_ReadConfig (set_serviceMode true (boot (pc (Some source)) 8))).

Definition quiet : Tick := mkTick (fun h => h) None.

Definition interrogate : Tick := mkTick (fun h => h) (Some SERVICE_CONTROL_INTERROGATE).

Definition source_lost : Tick := mkTick (with_source None) None.

(** The service control manager reports another state for the service. *)
Definition with_service_state (state : option Z) (h : Host) : Host :=
  mkHost (windowsDirectory h) (currentDirectory h) (files h)
         (processTable h) (canOpen h) (priorityClass h)
         (ctrlHandle h) (startedBySCM h) (fullPathName h)
         (mkSCM (openSCManager (scm h)) (createService (scm h))
                (changeServiceConfig2 (scm h)) (openService (scm h))
                (controlService (scm h)) state (deleteService (scm h))).

(** The service is on its way down; the service has stopped. *)
Definition stopping : Tick := mkTick (with_service_state (Some SERVICE_STOP_PENDING)) None.

Definition stopped : Tick := mkTick (with_service_state (Some SERVICE_STOPPED)) None.

End Scenario.

(** ** The earlier revision, [Src/srvctame.c]

    The repository also holds the revision of the file from before the
    configuration block: it has no checksum gate and no rule list, reads
    the keys [Process1], [Process2], ... of the INI file anew in every
    cycle, scans for each name as soon as it has read it, and reports on
    the console what it finds. *)

Module Legacy.

Definition SRVC_TAME_CMD_MODE : bool := false.
Definition SRVC_TAME_INTERVAL : Z := 10000.

Definition newline : string := String "010" EmptyString.

Fixpoint blanks (n : nat) : string :=
  match n with
  | O => EmptyString
  | S n' => String " " (blanks n')
  end.

(** ["%-48s"]: the text, filled with blanks on the right up to 48
    characters. *)
Definition fmt_s48 (s : string) : string :=
  (s ++ blanks (48 - String.length s))%string.

(** The body of the [while ( hRes )] loop of the earlier
    [Tamer_SetProcessPriority]; [retVal] is threaded through. *)
Definition scan_entry (exeName : string) (st : bool * Machine)
    (pEntry : PROCESSENTRY32) : bool * Machine :=
  let '(retVal, m) := st in
  if _stricmp (szExeFile pEntry) exeName =? 0 then
    let m0 := log (EvPrintf ("Found " ++ fmt_s48 (szExeFile pEntry))) m in
    let pid := th32ProcessID pEntry in
    let opened := canOpen (host m0) pid in
    let m1 := log (EvOpenProcess pid opened) m0 in
    if opened then
      let m2 := log (EvGetPriorityClass pid) m1 in
      if priorityClass (host m2) pid =? IDLE_PRIORITY_CLASS
      then (retVal, log (EvPrintf ("Set" ++ newline)) m2)
      else (true, log (EvPrintf ("OK" ++ newline))
                      (SetPriorityClass pid IDLE_PRIORITY_CLASS m2))
    else (retVal, log (EvPrintf ("Error" ++ newline)) m1)
  else (retVal, m).

Fixpoint walk_snapshot (exeName : string) (snapshot : list PROCESSENTRY32)
    (st : bool * Machine) : bool * Machine :=
  match snapshot with
  | [] => st
  | pEntry :: rest => walk_snapshot exeName rest (scan_entry exeName st pEntry)
  end.

(** [static bool Tamer_SetProcessPriority(char *exeName)] *)
Definition Tamer_SetProcessPriority (exeName : string) (m : Machine) : bool * Machine :=
  let retVal := false in
  let m1 := log EvSnapshot m in
  let hSnapShot := processTable (host m1) in
  walk_snapshot exeName hSnapShot (retVal, m1).

Definition process_key (processIndex : Z) : string :=
  snprintf 256 ("Process" ++ fmt_d processIndex).

(** The [while ( 1 )] loop of the earlier [Tamer_ServiceProcess].  Nothing
    in it is bounded by the program, so the model counts its rounds:
    [None] when [rounds] rounds were not enough to reach a missing key. *)
Fixpoint scan_keys (rounds : nat) (iniFile : string) (processIndex : Z) (m : Machine)
  : option Machine :=
  match rounds with
  | O => None
  | S rounds' =>
      let exeName :=
        GetPrivateProfileString (host m) "Processes" (process_key processIndex)
                                EmptyString 256 iniFile in
      let m1 := log (EvProfileString "Processes" (process_key processIndex)) m in
      if strlen exeName =? 0 then Some m1
      else scan_keys rounds' iniFile (processIndex + 1)
                     (snd (Tamer_SetProcessPriority exeName m1))
  end.

(** [static bool Tamer_ServiceProcess(void)] *)
Definition Tamer_ServiceProcess (rounds : nat) (m : Machine) : option (bool * Machine) :=
  let iniPath :=
    if serviceMode (gTamer m)
    then windowsDirectory (host m)
    else currentDirectory (host m) in
  match iniPath with
  | None | Some EmptyString =>
      Some (false,
            log (EvPrintf (if serviceMode (gTamer m)
                           then "Failed to get system directory" ++ newline
                           else "Failed to get local directory" ++ newline)) m)
  | Some dir =>
      let iniFile := snprintf MAX_PATH (dir ++ "\" ++ SRVC_TAME_INI_FILE) in
      match scan_keys rounds iniFile 1 m with
      | Some m' => Some (true, log (EvPrintf newline) m')
      | None => None
      end
  end.

End Legacy.

(** ** Further observers *)

(** The blocks the program holds from the allocator: the configuration
    block, once there is one, and one node per rule of the stored list. *)
Definition blocks_held (m : Machine) : nat :=
  match config (gTamer m) with
  | Some c => S (List.length (procList c))
  | None => O
  end.

(** A process some rule of the list gets hold of on this host. *)
Definition tamed_by_some (head : list Tamer_Proc) (h : Host) (pid : Z) : bool :=
  existsb (fun proc => tamed proc h (processTable h) pid) head.

(** The paths a run read with [Tamer_GetFileCRC], in order. *)
Fixpoint file_reads (tr : list Event) : list string :=
  match tr with
  | [] => []
  | EvFileRead path :: tr' => path :: file_reads tr'
  | _ :: tr' => file_reads tr'
  end.

(** The events of enforcement: taking a snapshot, opening a process,
    reading and setting its priority class. *)
Definition is_enforcement (e : Event) : bool :=
  match e with
  | EvSnapshot | EvOpenProcess _ _ | EvGetPriorityClass _ | EvSetPriorityClass _ _ => true
  | _ => false
  end.

(** The calls to the service control manager a run made, in order. *)
Fixpoint scm_calls (tr : list Event) : list SCMCall :=
  match tr with
  | [] => []
  | EvServiceManager call :: tr' => call :: scm_calls tr'
  | _ :: tr' => scm_calls tr'
  end.

(** The host once the rest of the system has had the time of these ticks. *)
Definition host_after (ticks : list Tick) (h : Host) : Host :=
  fold_left (fun h' t => meanwhile t h') ticks h.

(** Whether the uninstall code gets its two handles on this host. *)
Definition uninstall_handles (h : Host) : bool :=
  openSCManager (scm h) SC_MANAGER_ALL_ACCESS &&
  openService (scm h) SRVC_TAME_SERVICE_NAME.


(** The key [Process{i}] as the earlier revision reads it, and whether it
    is there. *)
Definition legacy_name_at (h : Host) (file : string) (i : Z) : string :=
  GetPrivateProfileString h "Processes" (Legacy.process_key i) EmptyString 256 file.

Definition legacy_name_defined (h : Host) (file : string) (i : Z) : bool :=
  negb (strlen (legacy_name_at h file i) =? 0).

(** * Properties *)

(** ** The checksum gate *)

Lemma land_1_testbit (z : Z) : Z.land z 1 = Z.b2z (Z.testbit z 0).
Proof.
  change 1 with (Z.ones 1). rewrite Z.land_ones by lia.
  change (2 ^ 1) with 2. now rewrite Z.bit0_mod.
Qed.

Lemma crc_bit_ieee (crc : Z) : crc_bit crc = ieee_shift crc.
Proof.
  unfold crc_bit, ieee_shift, ieee_poly_reflected.
  rewrite land_1_testbit.
  destruct (Z.testbit crc 0); cbn [Z.b2z Z.eqb].
  - reflexivity.
  - change (Z.land 0xEDB88320 0) with 0. apply Z.lxor_0_r.
Qed.

Lemma crc_bits_ieee (j : nat) (crc : Z) : crc_bits j crc = Nat.iter j ieee_shift crc.
Proof.
  revert crc. induction j as [|j IH]; intro crc; [reflexivity|].
  cbn [crc_bits]. rewrite IH, crc_bit_ieee.
  now rewrite <- Nat.iter_succ_r.
Qed.

Lemma crc_byte_ieee (crc : Z) (b : byte) : crc_byte crc b = ieee_byte crc b.
Proof. apply crc_bits_ieee. Qed.

Lemma fold_left_pointwise {A B : Type} (f g : A -> B -> A) (l : list B) :
  (forall a b, f a b = g a b) -> forall a, fold_left f l a = fold_left g l a.
Proof.
  intro H. induction l as [|b l IH]; intro a; [reflexivity|].
  cbn [fold_left]. now rewrite H, IH.
Qed.

Lemma fold_crc_byte_ieee (data : list byte) (crc : Z) :
  fold_left crc_byte data crc = fold_left ieee_byte data crc.
Proof. apply fold_left_pointwise. exact crc_byte_ieee. Qed.

(** A [uint32_t] has no bit at position 32 or above. *)
Lemma uint32_high_bits (z : Z) (n : Z) : is_uint32 z -> 32 <= n -> Z.testbit z n = false.
Proof.
  intros Hz Hn. rewrite <- (Z.mod_small z (2 ^ 32)) by exact Hz.
  apply Z.mod_pow2_bits_high. lia.
Qed.

Lemma uint32_of_bits (z : Z) :
  0 <= z -> (forall n, 32 <= n -> Z.testbit z n = false) -> is_uint32 z.
Proof.
  intros H0 Hb. split; [exact H0|].
  destruct (Z.eq_dec z 0) as [->|Hne]; [reflexivity|].
  apply Z.log2_lt_pow2; [lia|].
  destruct (Z_lt_le_dec (Z.log2 z) 32) as [Hlt|Hge]; [exact Hlt|].
  pose proof (Z.bit_log2 z ltac:(lia)) as Hbit.
  rewrite Hb in Hbit; [discriminate|exact Hge].
Qed.

Lemma lxor_uint32 (a b : Z) : is_uint32 a -> is_uint32 b -> is_uint32 (Z.lxor a b).
Proof.
  intros Ha Hb. apply uint32_of_bits.
  - apply Z.lxor_nonneg. unfold is_uint32 in *. lia.
  - intros n Hn. rewrite Z.lxor_spec.
    now rewrite (uint32_high_bits a n Ha Hn), (uint32_high_bits b n Hb Hn).
Qed.

Lemma shiftr_uint32 (a : Z) : is_uint32 a -> is_uint32 (Z.shiftr a 1).
Proof.
  intro Ha. apply uint32_of_bits.
  - apply Z.shiftr_nonneg. unfold is_uint32 in Ha. lia.
  - intros n Hn. rewrite Z.shiftr_spec by lia.
    apply (uint32_high_bits a (n + 1) Ha). lia.
Qed.

Lemma ieee_shift_uint32 (reg : Z) : is_uint32 reg -> is_uint32 (ieee_shift reg).
Proof.
  intro H. unfold ieee_shift. destruct (Z.testbit reg 0).
  - apply lxor_uint32; [now apply shiftr_uint32|].
    unfold is_uint32, ieee_poly_reflected. lia.
  - now apply shiftr_uint32.
Qed.

Lemma byte_uint32 (b : byte) : is_uint32 (Z.of_N (Byte.to_N b)).
Proof.
  pose proof (Byte.to_N_bounded b) as H. unfold is_uint32.
  split; [lia|]. apply N2Z.inj_le in H. change (Z.of_N 255) with 255 in H. lia.
Qed.

Lemma iter_ieee_shift_uint32 (k : nat) (reg : Z) :
  is_uint32 reg -> is_uint32 (Nat.iter k ieee_shift reg).
Proof.
  intro H. induction k as [|k IH]; [exact H|].
  cbn [Nat.iter]. now apply ieee_shift_uint32.
Qed.

Lemma ieee_byte_uint32 (reg : Z) (b : byte) : is_uint32 reg -> is_uint32 (ieee_byte reg b).
Proof.
  intro H. apply iter_ieee_shift_uint32, lxor_uint32; [exact H|apply byte_uint32].
Qed.

Lemma fold_ieee_uint32 (data : list byte) (reg : Z) :
  is_uint32 reg -> is_uint32 (fold_left ieee_byte data reg).
Proof.
  revert reg. induction data as [|b data IH]; intros reg H; [exact H|].
  cbn [fold_left]. apply IH. now apply ieee_byte_uint32.
Qed.

(** On a [uint32_t], [~x] and [x ^ 0xFFFFFFFF] are the same value. *)
Lemma lnot_uint32 (x : Z) : is_uint32 x -> Z.lnot x mod 2 ^ 32 = Z.lxor x 0xFFFFFFFF.
Proof.
  intro H. change 0xFFFFFFFF with (Z.ones 32).
  apply Z.bits_inj'. intros n Hn. rewrite Z.lxor_spec.
  destruct (Z_lt_le_dec n 32) as [Hlt|Hge].
  - rewrite Z.mod_pow2_bits_low, Z.lnot_spec, Z.ones_spec_low by lia.
    now rewrite xorb_true_r.
  - rewrite Z.mod_pow2_bits_high, Z.ones_spec_high by lia.
    now rewrite (uint32_high_bits x n H Hge).
Qed.

Lemma Tamer_CRC2_ieee (data : list byte) : Tamer_CRC2 data = crc32_ieee data.
Proof.
  unfold Tamer_CRC2, crc32_ieee, uint32_modulus.
  rewrite fold_crc_byte_ieee. apply lnot_uint32.
  apply fold_ieee_uint32. unfold is_uint32. lia.
Qed.

Lemma Tamer_CRC2_uint32 (data : list byte) : is_uint32 (Tamer_CRC2 data).
Proof. apply Z.mod_pos_bound. reflexivity. Qed.

(** ** Traces *)

Lemma since_app (m m' : Machine) (ev : list Event) :
  trace m' = trace m ++ ev -> since m m' = ev.
Proof.
  intro H. unfold since. rewrite H, skipn_app, skipn_all, Nat.sub_diag.
  reflexivity.
Qed.

Lemma grows_app (m m' : Machine) (ev : list Event) :
  trace m' = trace m ++ ev -> grows m m'.
Proof. intro H. unfold grows. now rewrite (since_app _ _ _ H). Qed.

Lemma grows_refl (m : Machine) : grows m m.
Proof. apply grows_app with (ev := []). now rewrite app_nil_r. Qed.

Lemma since_refl (m : Machine) : since m m = [].
Proof. apply since_app. now rewrite app_nil_r. Qed.

Lemma since_same_trace (m m1 m' : Machine) :
  trace m1 = trace m -> since m m' = since m1 m'.
Proof. intro H. unfold since. now rewrite H. Qed.

Lemma grows_trans (m m1 m2 : Machine) :
  grows m m1 -> grows m1 m2 -> grows m m2.
Proof.
  unfold grows. intros H1 H2.
  apply grows_app with (ev := since m m1 ++ since m1 m2).
  now rewrite H2, H1, app_assoc.
Qed.

Lemma since_trans (m m1 m2 : Machine) :
  grows m m1 -> grows m1 m2 -> since m m2 = since m m1 ++ since m1 m2.
Proof.
  unfold grows. intros H1 H2. apply since_app.
  now rewrite H2, H1, app_assoc.
Qed.

Lemma open_attempts_app (a b : list Event) :
  open_attempts (a ++ b) = open_attempts a ++ open_attempts b.
Proof.
  induction a as [|e a IH]; [reflexivity|].
  destruct e; simpl; now rewrite ?IH.
Qed.

Lemma set_calls_app (a b : list Event) :
  set_calls (a ++ b) = set_calls a ++ set_calls b.
Proof.
  induction a as [|e a IH]; [reflexivity|].
  destruct e; simpl; now rewrite ?IH.
Qed.

Lemma snapshots_app (a b : list Event) :
  snapshots (a ++ b) = (snapshots a + snapshots b)%nat.
Proof. unfold snapshots. now rewrite filter_app, length_app. Qed.

Lemma sleeps_app (a b : list Event) :
  sleeps (a ++ b) = (sleeps a + sleeps b)%nat.
Proof. unfold sleeps. now rewrite filter_app, length_app. Qed.

(** ** One scan of the process table *)

(** A round of the scan loop logs [entry_events] and nothing else. *)
Lemma scan_entry_trace (proc : Tamer_Proc) (m : Machine) (pEntry : PROCESSENTRY32) :
  trace (scan_entry proc m pEntry) = trace m ++ entry_events proc (host m) pEntry.
Proof.
  unfold scan_entry, entry_events, SetPriorityClass.
  destruct (_stricmp _ _ =? 0); [|now rewrite app_nil_r].
  destruct (canOpen (host m) (th32ProcessID pEntry)); cbn [log trace host set_host].
  - destruct (priorityClass (host m) (th32ProcessID pEntry) =? IDLE_PRIORITY_CLASS);
      cbn [log trace host set_host]; now rewrite <- ?app_assoc.
  - reflexivity.
Qed.

(** The scan changes nothing in the machine but priorities and the trace. *)
Lemma scan_entry_frame (proc : Tamer_Proc) (m : Machine) (pEntry : PROCESSENTRY32) :
  let m' := scan_entry proc m pEntry in
  gTamer m' = gTamer m /\ heap m' = heap m /\
  processTable (host m') = processTable (host m) /\
  canOpen (host m') = canOpen (host m) /\
  files (host m') = files (host m) /\
  windowsDirectory (host m') = windowsDirectory (host m) /\
  currentDirectory (host m') = currentDirectory (host m) /\
  startedBySCM (host m') = startedBySCM (host m) /\
  ctrlHandle (host m') = ctrlHandle (host m).
Proof.
  unfold scan_entry, SetPriorityClass.
  destruct (_stricmp _ _ =? 0); [|cbn; repeat split].
  destruct (canOpen (host m) (th32ProcessID pEntry)); [|cbn; repeat split].
  cbn [log host].
  destruct (priorityClass (host m) (th32ProcessID pEntry) =? IDLE_PRIORITY_CLASS);
    cbn; repeat split.
Qed.

Lemma scan_entry_priority (proc : Tamer_Proc) (m : Machine) (pEntry : PROCESSENTRY32)
    (pid : Z) :
  priorityClass (host (scan_entry proc m pEntry)) pid =
  if tamed proc (host m) [pEntry] pid then IDLE_PRIORITY_CLASS
  else priorityClass (host m) pid.
Proof.
  unfold scan_entry, SetPriorityClass, tamed. cbn [existsb].
  rewrite orb_false_r.
  destruct (_stricmp _ _ =? 0); [|reflexivity]. cbn [andb].
  destruct (th32ProcessID pEntry =? pid) eqn:E.
  - apply Z.eqb_eq in E. subst pid. cbn [andb].
    destruct (canOpen (host m) (th32ProcessID pEntry)); [|reflexivity].
    cbn [log host].
    destruct (priorityClass (host m) (th32ProcessID pEntry) =? IDLE_PRIORITY_CLASS) eqn:P.
    + now apply Z.eqb_eq in P.
    + cbn. now rewrite Z.eqb_refl.
  - cbn [andb].
    destruct (canOpen (host m) (th32ProcessID pEntry)); [|reflexivity].
    cbn [log host].
    destruct (priorityClass (host m) (th32ProcessID pEntry) =? IDLE_PRIORITY_CLASS);
      [reflexivity|].
    cbn. rewrite Z.eqb_sym in E. now rewrite E.
Qed.

Lemma scan_entry_grows (proc : Tamer_Proc) (m : Machine) (pEntry : PROCESSENTRY32) :
  grows m (scan_entry proc m pEntry).
Proof. eapply grows_app, scan_entry_trace. Qed.

Lemma scan_entry_since (proc : Tamer_Proc) (m : Machine) (pEntry : PROCESSENTRY32) :
  since m (scan_entry proc m pEntry) = entry_events proc (host m) pEntry.
Proof. apply since_app, scan_entry_trace. Qed.

Lemma walk_snapshot_frame (proc : Tamer_Proc) (snapshot : list PROCESSENTRY32) (m : Machine) :
  let m' := walk_snapshot proc snapshot m in
  gTamer m' = gTamer m /\ heap m' = heap m /\
  processTable (host m') = processTable (host m) /\
  canOpen (host m') = canOpen (host m) /\
  files (host m') = files (host m) /\
  windowsDirectory (host m') = windowsDirectory (host m) /\
  currentDirectory (host m') = currentDirectory (host m) /\
  startedBySCM (host m') = startedBySCM (host m) /\
  ctrlHandle (host m') = ctrlHandle (host m).
Proof.
  revert m. induction snapshot as [|pEntry rest IH]; intro m; cbn [walk_snapshot].
  - repeat split.
  - specialize (IH (scan_entry proc m pEntry)). cbv zeta in IH.
    pose proof (scan_entry_frame proc m pEntry) as F. cbv zeta in F.
    destruct IH as (a1 & a2 & a3 & a4 & a5 & a6 & a7 & a8 & a9).
    destruct F as (b1 & b2 & b3 & b4 & b5 & b6 & b7 & b8 & b9).
    repeat split; etransitivity; eassumption.
Qed.

Lemma walk_snapshot_grows (proc : Tamer_Proc) (snapshot : list PROCESSENTRY32) (m : Machine) :
  grows m (walk_snapshot proc snapshot m).
Proof.
  revert m. induction snapshot as [|pEntry rest IH]; intro m; cbn [walk_snapshot].
  - apply grows_refl.
  - eapply grows_trans; [apply scan_entry_grows|apply IH].
Qed.

Lemma walk_snapshot_since (proc : Tamer_Proc) (pEntry : PROCESSENTRY32)
    (rest : list PROCESSENTRY32) (m : Machine) :
  since m (walk_snapshot proc (pEntry :: rest) m) =
  entry_events proc (host m) pEntry ++
  since (scan_entry proc m pEntry) (walk_snapshot proc rest (scan_entry proc m pEntry)).
Proof.
  cbn [walk_snapshot]. rewrite <- scan_entry_since.
  apply since_trans; [apply scan_entry_grows|apply walk_snapshot_grows].
Qed.

Lemma tamed_canOpen (proc : Tamer_Proc) (h h' : Host) (snapshot : list PROCESSENTRY32)
    (pid : Z) :
  canOpen h' = canOpen h -> tamed proc h' snapshot pid = tamed proc h snapshot pid.
Proof. intro H. unfold tamed. now rewrite H. Qed.

(** After a scan, the processes it got hold of are idle and every other
    process has the class it had. *)
Lemma walk_snapshot_priority (proc : Tamer_Proc) (snapshot : list PROCESSENTRY32)
    (m : Machine) (pid : Z) :
  priorityClass (host (walk_snapshot proc snapshot m)) pid =
  if tamed proc (host m) snapshot pid then IDLE_PRIORITY_CLASS
  else priorityClass (host m) pid.
Proof.
  revert m. induction snapshot as [|pEntry rest IH]; intro m; [reflexivity|].
  cbn [walk_snapshot]. rewrite IH, scan_entry_priority.
  rewrite (tamed_canOpen proc (host m) _ rest pid)
    by apply (scan_entry_frame proc m pEntry).
  unfold tamed. cbn [existsb]. rewrite orb_false_r.
  destruct (existsb _ rest); [now rewrite orb_true_r|].
  now rewrite orb_false_r.
Qed.

Lemma entry_events_attempts (proc : Tamer_Proc) (h : Host) (pEntry : PROCESSENTRY32) :
  open_attempts (entry_events proc h pEntry) =
  if matches proc pEntry
  then [(th32ProcessID pEntry, canOpen h (th32ProcessID pEntry))]
  else [].
Proof.
  unfold entry_events, matches.
  destruct (_stricmp _ _ =? 0); [|reflexivity].
  destruct (canOpen h (th32ProcessID pEntry)); [|reflexivity].
  now destruct (priorityClass h (th32ProcessID pEntry) =? IDLE_PRIORITY_CLASS).
Qed.

(** A scan tries to open every matching entry of the snapshot, in snapshot
    order, whatever the outcome of the earlier tries. *)
Lemma walk_snapshot_attempts (proc : Tamer_Proc) (snapshot : list PROCESSENTRY32)
    (m : Machine) :
  open_attempts (since m (walk_snapshot proc snapshot m)) =
  map (fun pEntry => (th32ProcessID pEntry, canOpen (host m) (th32ProcessID pEntry)))
      (filter (matches proc) snapshot).
Proof.
  revert m. induction snapshot as [|pEntry rest IH]; intro m.
  - cbn [walk_snapshot]. now rewrite since_refl.
  - rewrite walk_snapshot_since, open_attempts_app, IH, entry_events_attempts.
    replace (canOpen (host (scan_entry proc m pEntry))) with (canOpen (host m))
      by (symmetry; apply (scan_entry_frame proc m pEntry)).
    cbn [filter]. now destruct (matches proc pEntry).
Qed.

Lemma entry_events_quiet (proc : Tamer_Proc) (h : Host) (pEntry : PROCESSENTRY32) :
  snapshots (entry_events proc h pEntry) = O /\ sleeps (entry_events proc h pEntry) = O.
Proof.
  unfold entry_events.
  destruct (_stricmp _ _ =? 0); [|now split].
  destruct (canOpen h (th32ProcessID pEntry)); [|now split].
  now destruct (priorityClass h (th32ProcessID pEntry) =? IDLE_PRIORITY_CLASS).
Qed.

Lemma walk_snapshot_quiet (proc : Tamer_Proc) (snapshot : list PROCESSENTRY32) (m : Machine) :
  snapshots (since m (walk_snapshot proc snapshot m)) = O /\
  sleeps (since m (walk_snapshot proc snapshot m)) = O.
Proof.
  revert m. induction snapshot as [|pEntry rest IH]; intro m.
  - cbn [walk_snapshot]. now rewrite since_refl.
  - rewrite walk_snapshot_since, snapshots_app, sleeps_app.
    destruct (entry_events_quiet proc (host m) pEntry) as [-> ->].
    exact (IH _).
Qed.

(** Every matching entry that can be opened has its priority class read. *)
Lemma walk_snapshot_reads (proc : Tamer_Proc) (snapshot : list PROCESSENTRY32)
    (m : Machine) (pEntry : PROCESSENTRY32) :
  In pEntry snapshot ->
  _stricmp (szExeFile pEntry) (procName proc) = 0 ->
  canOpen (host m) (th32ProcessID pEntry) = true ->
  In (EvGetPriorityClass (th32ProcessID pEntry)) (since m (walk_snapshot proc snapshot m)).
Proof.
  revert m. induction snapshot as [|e0 rest IH]; intros m Hin Hname Hopen; [easy|].
  rewrite walk_snapshot_since. apply in_or_app.
  destruct Hin as [->|Hin].
  - left. unfold entry_events. rewrite Hname, Hopen. cbn. auto.
  - right. apply IH; [exact Hin|exact Hname|].
    replace (canOpen (host (scan_entry proc m e0))) with (canOpen (host m))
      by (symmetry; apply (scan_entry_frame proc m e0)).
    exact Hopen.
Qed.

Lemma entry_events_sets (proc : Tamer_Proc) (h : Host) (pEntry : PROCESSENTRY32) :
  set_calls (entry_events proc h pEntry) =
  if tamed proc h [pEntry] (th32ProcessID pEntry)
     && negb (priorityClass h (th32ProcessID pEntry) =? IDLE_PRIORITY_CLASS)
  then [(th32ProcessID pEntry, IDLE_PRIORITY_CLASS)]
  else [].
Proof.
  unfold entry_events, tamed. cbn [existsb].
  rewrite Z.eqb_refl, orb_false_r, andb_true_r.
  destruct (_stricmp _ _ =? 0); [|reflexivity].
  destruct (canOpen h (th32ProcessID pEntry)); [|reflexivity].
  now destruct (priorityClass h (th32ProcessID pEntry) =? IDLE_PRIORITY_CLASS).
Qed.

(** Whatever class a scan sets is the idle class, and it sets it only on a
    process that it could open and that was not idle. *)
Lemma walk_snapshot_sets_idle (proc : Tamer_Proc) (snapshot : list PROCESSENTRY32)
    (m : Machine) (pid cls : Z) :
  In (pid, cls) (set_calls (since m (walk_snapshot proc snapshot m))) ->
  cls = IDLE_PRIORITY_CLASS /\
  priorityClass (host m) pid <> IDLE_PRIORITY_CLASS /\
  canOpen (host m) pid = true.
Proof.
  revert m. induction snapshot as [|e0 rest IH]; intros m Hin.
  - cbn [walk_snapshot] in Hin. now rewrite since_refl in Hin.
  - rewrite walk_snapshot_since, set_calls_app in Hin.
    apply in_app_or in Hin. destruct Hin as [Hin|Hin].
    + rewrite entry_events_sets in Hin.
      destruct (tamed proc (host m) [e0] (th32ProcessID e0)) eqn:T; [|easy].
      destruct (priorityClass (host m) (th32ProcessID e0) =? IDLE_PRIORITY_CLASS) eqn:P;
        [easy|].
      cbn in Hin. destruct Hin as [Heq|[]]. inversion Heq; subst.
      split; [reflexivity|]. split; [now apply Z.eqb_neq|].
      unfold tamed in T. cbn [existsb] in T. rewrite orb_false_r in T.
      now apply andb_prop in T.
    + apply IH in Hin. destruct Hin as (-> & Hne & Hopen).
      split; [reflexivity|]. split.
      * rewrite scan_entry_priority in Hne.
        now destruct (tamed proc (host m) [e0] pid).
      * replace (canOpen (host m)) with (canOpen (host (scan_entry proc m e0)))
          by apply (scan_entry_frame proc m e0).
        exact Hopen.
Qed.

(** A matching, openable process that is not idle gets the idle class set. *)
Lemma walk_snapshot_sets (proc : Tamer_Proc) (snapshot : list PROCESSENTRY32)
    (m : Machine) (pEntry : PROCESSENTRY32) :
  In pEntry snapshot ->
  _stricmp (szExeFile pEntry) (procName proc) = 0 ->
  canOpen (host m) (th32ProcessID pEntry) = true ->
  priorityClass (host m) (th32ProcessID pEntry) <> IDLE_PRIORITY_CLASS ->
  In (th32ProcessID pEntry, IDLE_PRIORITY_CLASS)
     (set_calls (since m (walk_snapshot proc snapshot m))).
Proof.
  revert m. induction snapshot as [|e0 rest IH]; intros m Hin Hname Hopen Hprio; [easy|].
  rewrite walk_snapshot_since, set_calls_app. apply in_or_app.
  assert (Hhere : tamed proc (host m) [e0] (th32ProcessID pEntry) = true ->
                  In (th32ProcessID pEntry, IDLE_PRIORITY_CLASS)
                     (set_calls (entry_events proc (host m) e0))).
  { intro T. pose proof T as T'. unfold tamed in T'. cbn [existsb] in T'.
    rewrite orb_false_r in T'.
    apply andb_prop in T'. destruct T' as [T' _].
    apply andb_prop in T'. destruct T' as [_ Hpid]. apply Z.eqb_eq in Hpid.
    rewrite entry_events_sets, Hpid, T.
    apply Z.eqb_neq in Hprio. rewrite Hprio. cbn. auto. }
  destruct (tamed proc (host m) [e0] (th32ProcessID pEntry)) eqn:T.
  - left. now apply Hhere.
  - right. destruct Hin as [->|Hin].
    + exfalso. unfold tamed in T. cbn [existsb] in T.
      rewrite Hname, Hopen, !Z.eqb_refl in T. discriminate T.
    + apply IH; [exact Hin|exact Hname| |].
      * replace (canOpen (host (scan_entry proc m e0))) with (canOpen (host m))
          by (symmetry; apply (scan_entry_frame proc m e0)).
        exact Hopen.
      * now rewrite scan_entry_priority, T.
Qed.

(** ** Enforcement of one rule, and of a rule list *)

Lemma SetProcessPriority_frame (proc : Tamer_Proc) (m : Machine) :
  let m' := Tamer_SetProcessPriority proc m in
  gTamer m' = gTamer m /\ heap m' = heap m /\
  processTable (host m') = processTable (host m) /\
  canOpen (host m') = canOpen (host m) /\
  files (host m') = files (host m) /\
  windowsDirectory (host m') = windowsDirectory (host m) /\
  currentDirectory (host m') = currentDirectory (host m) /\
  startedBySCM (host m') = startedBySCM (host m) /\
  ctrlHandle (host m') = ctrlHandle (host m).
Proof.
  exact (walk_snapshot_frame proc (processTable (host m)) (log EvSnapshot m)).
Qed.

Lemma SetProcessPriority_grows (proc : Tamer_Proc) (m : Machine) :
  grows m (Tamer_SetProcessPriority proc m).
Proof.
  apply grows_trans with (m1 := log EvSnapshot m).
  - now apply grows_app with (ev := [EvSnapshot]).
  - apply walk_snapshot_grows.
Qed.

Lemma SetProcessPriority_since (proc : Tamer_Proc) (m : Machine) :
  since m (Tamer_SetProcessPriority proc m) =
  EvSnapshot :: since (log EvSnapshot m)
                      (walk_snapshot proc (processTable (host m)) (log EvSnapshot m)).
Proof.
  unfold Tamer_SetProcessPriority. cbv zeta. cbn [log host].
  change (EvSnapshot :: ?l) with ([EvSnapshot] ++ l).
  rewrite <- (since_app m (log EvSnapshot m) [EvSnapshot] eq_refl) at 1.
  apply since_trans.
  - now apply grows_app with (ev := [EvSnapshot]).
  - apply (walk_snapshot_grows proc (processTable (host m)) (log EvSnapshot m)).
Qed.

Lemma SetProcessPriority_priority (proc : Tamer_Proc) (m : Machine) (pid : Z) :
  priorityClass (host (Tamer_SetProcessPriority proc m)) pid =
  if tamed proc (host m) (processTable (host m)) pid then IDLE_PRIORITY_CLASS
  else priorityClass (host m) pid.
Proof.
  exact (walk_snapshot_priority proc (processTable (host m)) (log EvSnapshot m) pid).
Qed.

Lemma SetProcessPriority_attempts (proc : Tamer_Proc) (m : Machine) :
  open_attempts (since m (Tamer_SetProcessPriority proc m)) = expected_attempts (host m) proc.
Proof.
  rewrite SetProcessPriority_since. cbn [open_attempts].
  exact (walk_snapshot_attempts proc (processTable (host m)) (log EvSnapshot m)).
Qed.

Lemma SetProcessPriority_counts (proc : Tamer_Proc) (m : Machine) :
  snapshots (since m (Tamer_SetProcessPriority proc m)) = 1%nat /\
  sleeps (since m (Tamer_SetProcessPriority proc m)) = O.
Proof.
  rewrite SetProcessPriority_since.
  destruct (walk_snapshot_quiet proc (processTable (host m)) (log EvSnapshot m)) as [H1 H2].
  unfold snapshots, sleeps in *. cbn [filter is_snapshot is_sleep List.length].
  now rewrite H1, H2.
Qed.

(** The scan reads the rule's name and nothing else of the rule. *)
Lemma walk_snapshot_ignores_priority (proc : Tamer_Proc) (q : Z)
    (snapshot : list PROCESSENTRY32) (m : Machine) :
  walk_snapshot (mkProc (procName proc) q) snapshot m = walk_snapshot proc snapshot m.
Proof.
  revert m. induction snapshot as [|pEntry rest IH]; intro m; [reflexivity|].
  cbn [walk_snapshot]. now rewrite IH.
Qed.

Lemma SetProcessPriority_ignores_priority (proc : Tamer_Proc) (q : Z) (m : Machine) :
  Tamer_SetProcessPriority (mkProc (procName proc) q) m = Tamer_SetProcessPriority proc m.
Proof. apply walk_snapshot_ignores_priority. Qed.

Lemma expected_attempts_frame (h h' : Host) (proc : Tamer_Proc) :
  processTable h' = processTable h -> canOpen h' = canOpen h ->
  expected_attempts h' proc = expected_attempts h proc.
Proof. intros H1 H2. unfold expected_attempts. now rewrite H1, H2. Qed.

Lemma foreach_cons (r : Tamer_Proc) (head : list Tamer_Proc) (m : Machine) :
  LL_FOREACH (r :: head) Tamer_SetProcessPriority m =
  LL_FOREACH head Tamer_SetProcessPriority (Tamer_SetProcessPriority r m).
Proof. reflexivity. Qed.

Lemma foreach_frame (head : list Tamer_Proc) (m : Machine) :
  let m' := LL_FOREACH head Tamer_SetProcessPriority m in
  gTamer m' = gTamer m /\ heap m' = heap m /\
  processTable (host m') = processTable (host m) /\
  canOpen (host m') = canOpen (host m) /\
  files (host m') = files (host m) /\
  windowsDirectory (host m') = windowsDirectory (host m) /\
  currentDirectory (host m') = currentDirectory (host m) /\
  startedBySCM (host m') = startedBySCM (host m) /\
  ctrlHandle (host m') = ctrlHandle (host m).
Proof.
  revert m. induction head as [|r head IH]; intro m.
  - cbn. repeat split.
  - rewrite foreach_cons. specialize (IH (Tamer_SetProcessPriority r m)). cbv zeta in *.
    pose proof (SetProcessPriority_frame r m) as F. cbv zeta in F.
    destruct IH as (a1 & a2 & a3 & a4 & a5 & a6 & a7 & a8 & a9).
    destruct F as (b1 & b2 & b3 & b4 & b5 & b6 & b7 & b8 & b9).
    repeat split; etransitivity; eassumption.
Qed.

Lemma foreach_grows (head : list Tamer_Proc) (m : Machine) :
  grows m (LL_FOREACH head Tamer_SetProcessPriority m).
Proof.
  revert m. induction head as [|r head IH]; intro m.
  - apply grows_refl.
  - rewrite foreach_cons.
    eapply grows_trans; [apply SetProcessPriority_grows|apply IH].
Qed.

Lemma foreach_since (r : Tamer_Proc) (head : list Tamer_Proc) (m : Machine) :
  since m (LL_FOREACH (r :: head) Tamer_SetProcessPriority m) =
  since m (Tamer_SetProcessPriority r m) ++
  since (Tamer_SetProcessPriority r m)
        (LL_FOREACH head Tamer_SetProcessPriority (Tamer_SetProcessPriority r m)).
Proof.
  rewrite foreach_cons.
  apply since_trans; [apply SetProcessPriority_grows|apply foreach_grows].
Qed.

(** A pass over a rule list takes one snapshot per rule and never sleeps. *)
Lemma foreach_counts (head : list Tamer_Proc) (m : Machine) :
  snapshots (since m (LL_FOREACH head Tamer_SetProcessPriority m)) = List.length head /\
  sleeps (since m (LL_FOREACH head Tamer_SetProcessPriority m)) = O.
Proof.
  revert m. induction head as [|r head IH]; intro m.
  - cbn [LL_FOREACH fold_left]. now rewrite since_refl.
  - rewrite foreach_since, snapshots_app, sleeps_app.
    destruct (SetProcessPriority_counts r m) as [-> ->].
    destruct (IH (Tamer_SetProcessPriority r m)) as [-> ->].
    now split.
Qed.

(** A pass applies the rules in stored order: its [OpenProcess] calls are
    those of the first rule's scan, then those of the second, and so on. *)
Lemma foreach_attempts (head : list Tamer_Proc) (m : Machine) :
  open_attempts (since m (LL_FOREACH head Tamer_SetProcessPriority m)) =
  flat_map (expected_attempts (host m)) head.
Proof.
  revert m. induction head as [|r head IH]; intro m.
  - cbn [LL_FOREACH fold_left flat_map]. now rewrite since_refl.
  - rewrite foreach_since, open_attempts_app, IH, SetProcessPriority_attempts.
    cbn [flat_map]. f_equal.
    apply flat_map_ext. intro r'.
    apply expected_attempts_frame; apply (SetProcessPriority_frame r m).
Qed.

(** ** The loader *)

Lemma indices_succ (first : Z) (count : nat) :
  indices first (S count) = first :: indices (first + 1) count.
Proof.
  unfold indices. cbn [seq map]. rewrite Z.add_0_r. f_equal.
  rewrite <- seq_shift, map_map. apply map_ext. intro n. lia.
Qed.

Lemma indices_length (first : Z) (count : nat) : List.length (indices first count) = count.
Proof. unfold indices. now rewrite length_map, length_seq. Qed.

(** The list the loop builds: one rule per index of the unbroken run of
    defined names that starts at [processIndex], appended in index order,
    and nothing from beyond the first missing name. *)
Lemma load_processes_prefix (h : Host) (file : string) (count : nat) :
  forall (budget : nat) (processIndex : Z) (head : list Tamer_Proc) (tr : list Event),
  (forall i, In i (indices processIndex count) -> name_defined h file i = true) ->
  name_defined h file (processIndex + Z.of_nat count) = false ->
  (count <= budget)%nat ->
  fst (load_processes budget h file processIndex head tr) =
  (head ++ map (rule_at h file) (indices processIndex count), (budget - count)%nat).
Proof.
  induction count as [|count IH]; intros budget processIndex head tr Hdef Hend Hle.
  - rewrite Z.add_0_r in Hend. cbn [indices seq map]. rewrite app_nil_r, Nat.sub_0_r.
    destruct budget as [|budget]; [reflexivity|].
    cbn [load_processes]. unfold name_defined, name_at in Hend.
    apply negb_false_iff in Hend. now rewrite Hend.
  - destruct budget as [|budget]; [lia|].
    cbn [load_processes].
    assert (Hfirst : name_defined h file processIndex = true)
      by (apply Hdef; rewrite indices_succ; now left).
    unfold name_defined, name_at in Hfirst. apply negb_true_iff in Hfirst.
    rewrite Hfirst, IH.
    + rewrite indices_succ. unfold LL_APPEND. cbn [map].
      rewrite <- app_assoc. reflexivity.
    + intros i Hi. apply Hdef. rewrite indices_succ. now right.
    + replace (processIndex + 1 + Z.of_nat count) with (processIndex + Z.of_nat (S count))
        by lia.
      exact Hend.
    + lia.
Qed.

(** A run that only read the configuration source took no snapshot, never
    slept and touched no process. *)
Lemma config_reads_quiet (ev : list Event) :
  Forall (fun e => is_config_read e = true) ev ->
  snapshots ev = O /\ sleeps ev = O /\ open_attempts ev = [] /\ set_calls ev = [].
Proof.
  induction 1 as [|e ev He _ IH]; [now repeat split|].
  destruct IH as (I1 & I2 & I3 & I4).
  unfold snapshots, sleeps in *.
  destruct e; try discriminate He; cbn; now repeat split.
Qed.

(** The loop only reads the profile. *)
Lemma load_processes_trace (h : Host) (file : string) (budget : nat) :
  forall (processIndex : Z) (head : list Tamer_Proc) (tr : list Event),
  exists ev, snd (load_processes budget h file processIndex head tr) = tr ++ ev /\
             Forall (fun e => is_config_read e = true) ev.
Proof.
  induction budget as [|budget IH]; intros processIndex head tr; cbn [load_processes].
  - exists []. now rewrite app_nil_r.
  - destruct (strlen _ =? 0).
    + eexists. split; [reflexivity|]. now repeat constructor.
    + destruct (IH (processIndex + 1)
                   (LL_APPEND head
                      (mkProc (GetPrivateProfileString h "Processes" (name_key processIndex)
                                 EmptyString (128 - 1) file)
                              (int_of_uint (GetPrivateProfileInt h "Processes"
                                              (prio_key processIndex) 0 file))))
                   ((tr ++ [EvProfileString "Processes" (name_key processIndex)]) ++
                    [EvProfileInt "Processes" (prio_key processIndex)]))
        as (ev & Hev & Hq).
      exists ([EvProfileString "Processes" (name_key processIndex)] ++
              [EvProfileInt "Processes" (prio_key processIndex)] ++ ev).
      split; [|now repeat constructor].
      rewrite Hev. now rewrite <- !app_assoc.
Qed.

(** What a reload leaves alone, whatever the source holds. *)
Lemma reload_frame (crc : Z) (c : Tamer_Config) (m : Machine) :
  let m' := reload crc c m in
  host m' = host m /\
  ServiceStatus (gTamer m') = ServiceStatus (gTamer m) /\
  hStatus (gTamer m') = hStatus (gTamer m) /\
  serviceMode (gTamer m') = serviceMode (gTamer m) /\
  config (gTamer m') <> None /\
  grows m m' /\ Forall (fun e => is_config_read e = true) (since m m').
Proof.
  unfold reload. cbv zeta.
  match goal with
  | |- context [load_processes ?b ?h ?f ?i ?hd ?tr] =>
      destruct (load_processes_trace h f b i hd tr) as (ev & Hev & Hq);
      destruct (load_processes b h f i hd tr) as [[head budget] tr'] eqn:E
  end.
  cbn [snd] in Hev. cbn [host gTamer ServiceStatus hStatus serviceMode config].
  repeat split; try discriminate.
  - eapply grows_app. cbn [trace]. rewrite Hev, <- app_assoc. reflexivity.
  - erewrite since_app; [|cbn [trace]; rewrite Hev, <- app_assoc; reflexivity].
    now repeat constructor.
Qed.

(** What a reload installs when the source defines exactly the names
    1 .. [count] in an unbroken run. *)
Lemma reload_installs (crc : Z) (c : Tamer_Config) (m : Machine) (count : nat) :
  (forall i, In i (indices 1 count) -> name_defined (host m) (filePath c) i = true) ->
  name_defined (host m) (filePath c) (1 + Z.of_nat count) = false ->
  (count <= heap m + List.length (procList c))%nat ->
  config (gTamer (reload crc c m)) =
    Some (mkConfig
            (GetPrivateProfileString (host m) "Service" "DisplayName"
               SRVC_TAME_SERVICE_DISPLAY_NAME (256 - 1) (filePath c))
            (GetPrivateProfileString (host m) "Service" "Description"
               SRVC_TAME_SERVICE_DESCRIPTION (256 - 1) (filePath c))
            (filePath c)
            (GetPrivateProfileInt (host m) "Service" "Interval" SRVC_TAME_INTERVAL (filePath c))
            crc
            (map (rule_at (host m) (filePath c)) (indices 1 count))) /\
  heap (reload crc c m) = (heap m + List.length (procList c) - count)%nat.
Proof.
  intros Hdef Hend Hle. unfold reload. cbv zeta.
  match goal with
  | |- context [load_processes ?b ?h ?f ?i ?hd ?tr] =>
      pose proof (load_processes_prefix h f count b i hd tr Hdef Hend Hle) as P;
      destruct (load_processes b h f i hd tr) as [[head budget] tr'] eqn:E
  end.
  cbn [fst app] in P. inversion P; subst. now split.
Qed.

(** ** [Tamer_ReadConfig] *)

Lemma first_run_spec (m m0 : Machine) (c0 : Tamer_Config) :
  first_run m = Some (c0, m0) ->
  config (gTamer m0) = Some c0 /\
  host m0 = host m /\ trace m0 = trace m /\
  ServiceStatus (gTamer m0) = ServiceStatus (gTamer m) /\
  hStatus (gTamer m0) = hStatus (gTamer m) /\
  serviceMode (gTamer m0) = serviceMode (gTamer m) /\
  crc32 c0 = stored_crc m.
Proof.
  unfold first_run, stored_crc.
  destruct (config (gTamer m)) as [c|] eqn:C.
  - intro H. inversion H; subst. now repeat split.
  - destruct (heap m); [discriminate|].
    intro H. inversion H; subst. now repeat split.
Qed.

Lemma first_run_configured (m : Machine) (c : Tamer_Config) :
  config (gTamer m) = Some c -> first_run m = Some (c, m).
Proof. intro H. unfold first_run. now rewrite H. Qed.

Lemma locate_ini_spec (c0 c : Tamer_Config) (m0 m1 : Machine) :
  config (gTamer m0) = Some c0 ->
  locate_ini c0 m0 = Some (c, m1) ->
  config (gTamer m1) = Some c /\
  host m1 = host m0 /\ heap m1 = heap m0 /\ trace m1 = trace m0 /\
  ServiceStatus (gTamer m1) = ServiceStatus (gTamer m0) /\
  hStatus (gTamer m1) = hStatus (gTamer m0) /\
  serviceMode (gTamer m1) = serviceMode (gTamer m0) /\
  procList c = procList c0 /\ crc32 c = crc32 c0.
Proof.
  intro C. unfold locate_ini. destruct (filePath c0).
  - destruct (if serviceMode (gTamer m0) then _ else _) as [[|a dir]|];
      try discriminate.
    intro H. inversion H; subst. now repeat split.
  - intro H. inversion H; subst. now repeat split.
Qed.

Lemma locate_ini_known (c : Tamer_Config) (m : Machine) :
  filePath c <> EmptyString -> locate_ini c m = Some (c, m).
Proof. intro H. unfold locate_ini. now destruct (filePath c). Qed.

(** What [Tamer_ReadConfig] never touches, and all it logs. *)
Lemma ReadConfig_frame (m : Machine) :
  let m' := snd (Tamer_ReadConfig m) in
  host m' = host m /\
  ServiceStatus (gTamer m') = ServiceStatus (gTamer m) /\
  hStatus (gTamer m') = hStatus (gTamer m) /\
  serviceMode (gTamer m') = serviceMode (gTamer m) /\
  (config (gTamer m) <> None -> config (gTamer m') <> None) /\
  (fst (Tamer_ReadConfig m) <> 0 -> config (gTamer m') <> None) /\
  grows m m' /\ Forall (fun e => is_config_read e = true) (since m m').
Proof.
  unfold Tamer_ReadConfig.
  destruct (first_run m) as [[c0 m0]|] eqn:F.
  2:{ cbn [fst snd]. rewrite since_refl. repeat split; try easy. apply grows_refl. }
  destruct (first_run_spec _ _ _ F) as (C0 & H0 & T0 & S0 & HS0 & SM0 & _).
  assert (G0 : grows m m0) by (apply grows_app with (ev := []); now rewrite app_nil_r).
  assert (Z0 : since m m0 = []) by (apply since_app; now rewrite app_nil_r).
  destruct (locate_ini c0 m0) as [[c m1]|] eqn:L.
  2:{ cbn [fst snd]. rewrite Z0. repeat split; try easy. now rewrite C0. }
  destruct (locate_ini_spec _ _ _ _ C0 L) as (C1 & H1 & _ & T1 & S1 & HS1 & SM1 & _).
  cbv zeta.
  assert (T2 : trace (log (EvFileRead (filePath c)) m1) = trace m ++ [EvFileRead (filePath c)])
    by (cbn [log trace]; now rewrite T1, T0).
  assert (Fg : gTamer (log (EvFileRead (filePath c)) m1) = gTamer m1) by reflexivity.
  assert (Fh : host (log (EvFileRead (filePath c)) m1) = host m1) by reflexivity.
  set (m2 := log (EvFileRead (filePath c)) m1) in *. clearbody m2.
  assert (G2 : grows m m2) by (eapply grows_app, T2).
  assert (Z2 : since m m2 = [EvFileRead (filePath c)]) by (apply since_app, T2).
  assert (rest : forall n : Z,
     host m2 = host m /\
     ServiceStatus (gTamer m2) = ServiceStatus (gTamer m) /\
     hStatus (gTamer m2) = hStatus (gTamer m) /\
     serviceMode (gTamer m2) = serviceMode (gTamer m) /\
     (config (gTamer m) <> None -> config (gTamer m2) <> None) /\
     (n <> 0 -> config (gTamer m2) <> None) /\
     grows m m2 /\ Forall (fun e => is_config_read e = true) (since m m2)).
  { intro n. rewrite Z2, Fg.
    repeat split; try congruence; try exact G2.
    all: try (intros _; now rewrite C1).
    all: now repeat constructor. }
  destruct (Tamer_GetFileCRC _ _ =? 0); [exact (rest 0)|].
  destruct (Tamer_GetFileCRC _ _ =? crc32 c); [exact (rest _)|].
  cbn [fst snd].
  pose proof (reload_frame (Tamer_GetFileCRC (host m2) (filePath c)) c m2) as R.
  cbv zeta in R. destruct R as (RH & RS & RHS & RSM & RC & RG & Rq).
  repeat split; try congruence.
  - eapply grows_trans; [exact G2|exact RG].
  - rewrite (since_trans _ _ _ G2 RG), Z2. now constructor.
Qed.

(** The unreadable source: nothing is touched, 0 is returned. *)
Lemma ReadConfig_unreadable (m : Machine) (c : Tamer_Config) :
  config (gTamer m) = Some c ->
  filePath c <> EmptyString ->
  Tamer_GetFileCRC (host m) (filePath c) = 0 ->
  Tamer_ReadConfig m = (0, log (EvFileRead (filePath c)) m).
Proof.
  intros C P D. unfold Tamer_ReadConfig.
  rewrite (first_run_configured _ _ C), (locate_ini_known _ _ P).
  cbv zeta. cbn [log host]. now rewrite D.
Qed.

(** The unchanged source: nothing is touched, the count of the stored list
    is returned. *)
Lemma ReadConfig_unchanged (m : Machine) (c : Tamer_Config) :
  config (gTamer m) = Some c ->
  filePath c <> EmptyString ->
  Tamer_GetFileCRC (host m) (filePath c) = crc32 c ->
  crc32 c <> 0 ->
  Tamer_ReadConfig m = (LL_COUNT (procList c), log (EvFileRead (filePath c)) m).
Proof.
  intros C P D NZ. unfold Tamer_ReadConfig.
  rewrite (first_run_configured _ _ C), (locate_ini_known _ _ P).
  cbv zeta. cbn [log host]. rewrite D, Z.eqb_refl.
  apply Z.eqb_neq in NZ. now rewrite NZ.
Qed.

(** The changed source: what is installed when the source defines exactly
    the names 1 .. [count] in an unbroken run. *)
Lemma ReadConfig_reloads (m : Machine) (file content : string) (count : nat) :
  ini_path m = Some file ->
  files (host m) file = Some content ->
  Tamer_CRC2 (list_byte_of_string content) <> 0 ->
  Tamer_CRC2 (list_byte_of_string content) <> stored_crc m ->
  (forall i, In i (indices 1 count) -> name_defined (host m) file i = true) ->
  name_defined (host m) file (1 + Z.of_nat count) = false ->
  (count <= loader_budget m)%nat ->
  fst (Tamer_ReadConfig m) = Z.of_nat count /\
  config (gTamer (snd (Tamer_ReadConfig m))) =
    Some (mkConfig
            (GetPrivateProfileString (host m) "Service" "DisplayName"
               SRVC_TAME_SERVICE_DISPLAY_NAME (256 - 1) file)
            (GetPrivateProfileString (host m) "Service" "Description"
               SRVC_TAME_SERVICE_DESCRIPTION (256 - 1) file)
            file
            (GetPrivateProfileInt (host m) "Service" "Interval" SRVC_TAME_INTERVAL file)
            (Tamer_CRC2 (list_byte_of_string content))
            (map (rule_at (host m) file) (indices 1 count))) /\
  heap (snd (Tamer_ReadConfig m)) = (loader_budget m - count)%nat.
Proof.
  unfold ini_path, loader_budget, Tamer_ReadConfig.
  destruct (first_run m) as [[c0 m0]|] eqn:F; [|discriminate].
  destruct (first_run_spec _ _ _ F) as (C0 & H0 & _ & _ & _ & _ & CRC0).
  destruct (locate_ini c0 m0) as [[c m1]|] eqn:L; [|discriminate].
  destruct (locate_ini_spec _ _ _ _ C0 L) as (_ & H1 & HP1 & _ & _ & _ & _ & PL & CRC1).
  intros P Hfile NZ Hchg Hdef Hend Hle. inversion P; subst file. clear P.
  cbv zeta. unfold Tamer_GetFileCRC. cbn [log host]. rewrite H1, H0, Hfile.
  apply Z.eqb_neq in NZ. rewrite NZ.
  rewrite <- CRC0, <- CRC1 in Hchg. apply Z.eqb_neq in Hchg. rewrite Hchg.
  cbn [fst snd].
  destruct (reload_installs (Tamer_CRC2 (list_byte_of_string content)) c
              (log (EvFileRead (filePath c)) m1) count) as [RC RH].
  - cbn [log host]. now rewrite H1, H0.
  - cbn [log host]. now rewrite H1, H0.
  - cbn [log heap]. now rewrite HP1, PL.
  - cbn [log host heap] in RC, RH. rewrite H1, H0 in RC.
    unfold current_procList. rewrite RC, RH, HP1, PL.
    cbn [procList]. unfold LL_COUNT.
    now rewrite length_map, indices_length.
Qed.

(** ** One service cycle and the loops *)

(** A cycle leaves the service status alone, keeps a configuration block
    once there is one, never sleeps, and takes one snapshot per rule when it
    enforces and none when it does not. *)
Lemma ServiceProcess_frame (m : Machine) :
  let ok := fst (Tamer_ServiceProcess m) in
  let m' := snd (Tamer_ServiceProcess m) in
  ServiceStatus (gTamer m') = ServiceStatus (gTamer m) /\
  serviceMode (gTamer m') = serviceMode (gTamer m) /\
  (config (gTamer m) <> None -> config (gTamer m') <> None) /\
  grows m m' /\ sleeps (since m m') = O /\
  snapshots (since m m') = if ok then List.length (current_procList m') else O.
Proof.
  unfold Tamer_ServiceProcess.
  pose proof (ReadConfig_frame m) as R. cbv zeta in R.
  destruct (Tamer_ReadConfig m) as [n m1]. cbn [fst snd] in R.
  destruct R as (_ & RS & _ & RSM & RC & _ & RG & Rq).
  destruct (config_reads_quiet _ Rq) as (Rs & Rz & _).
  destruct (n =? 0); [cbn [fst snd]; now repeat split|].
  destruct (config (gTamer m1)) as [c|] eqn:C;
    [|cbn [fst snd]; repeat split; try assumption; now rewrite C].
  destruct (procList c) as [|r head] eqn:PL;
    [cbn [fst snd]; repeat split; try assumption; now rewrite C|].
  cbn [fst snd]. rewrite <- PL.
  pose proof (foreach_frame (procList c) m1) as F. cbv zeta in F.
  destruct F as (Fg & _).
  pose proof (foreach_grows (procList c) m1) as FG.
  destruct (foreach_counts (procList c) m1) as [Fs Fz].
  rewrite Fg. repeat split; try assumption.
  - intro H. rewrite C. discriminate.
  - eapply grows_trans; eassumption.
  - now rewrite (since_trans _ _ _ RG FG), sleeps_app, Rz, Fz.
  - rewrite (since_trans _ _ _ RG FG), snapshots_app, Rs, Fs.
    unfold current_procList. now rewrite Fg, C.
Qed.

Lemma ServiceControl_other (request : Z) (m : Machine) :
  (request =? SERVICE_CONTROL_STOP) || (request =? SERVICE_CONTROL_SHUTDOWN) = false ->
  Tamer_ServiceControl request m = m.
Proof.
  intro H. unfold Tamer_ServiceControl. rewrite H.
  now destruct (negb (serviceMode (gTamer m))).
Qed.

(** A sleep during which no stop request arrives: one [EvSleep], and the
    program's own state stays as it was. *)
Lemma Sleep_undisturbed (ms : Z) (t : Tick) (m : Machine) :
  is_stop_request t = false ->
  gTamer (Sleep ms t m) = gTamer m /\
  trace (Sleep ms t m) = trace m ++ [EvSleep ms].
Proof.
  unfold is_stop_request, Sleep. cbv zeta.
  destruct (control t) as [request|]; intro H.
  - rewrite (ServiceControl_other _ _ H). now split.
  - now split.
Qed.

(** As long as no stop request arrives, the service loop goes round: after
    any number of ticks it is still running and has slept once per tick. *)
Lemma service_loop_runs (ticks : list Tick) :
  forall m : Machine,
  dwCurrentState (ServiceStatus (gTamer m)) = SERVICE_RUNNING ->
  config (gTamer m) <> None ->
  Forall (fun t => is_stop_request t = false) ticks ->
  fst (service_loop ticks m) = Running /\
  grows m (snd (service_loop ticks m)) /\
  sleeps (since m (snd (service_loop ticks m))) = List.length ticks.
Proof.
  induction ticks as [|t ticks IH]; intros m Hrun Hcfg Hquiet.
  - cbn [service_loop]. rewrite Hrun. cbn [fst snd Z.eqb Pos.eqb SERVICE_RUNNING].
    rewrite since_refl. repeat split. apply grows_refl.
  - cbn [service_loop]. rewrite Hrun. cbn [Z.eqb Pos.eqb SERVICE_RUNNING].
    pose proof (ServiceProcess_frame m) as P. cbv zeta in P.
    destruct P as (PS & _ & PC & PG & Pz & _).
    specialize (PC Hcfg).
    destruct (config (gTamer (snd (Tamer_ServiceProcess m)))) as [c|] eqn:C; [|easy].
    inversion Hquiet as [|t' ticks' Ht Hticks]; subst.
    destruct (Sleep_undisturbed (interval c) t (snd (Tamer_ServiceProcess m)) Ht)
      as [Sg St].
    assert (SG : grows (snd (Tamer_ServiceProcess m))
                       (Sleep (interval c) t (snd (Tamer_ServiceProcess m))))
      by (eapply grows_app, St).
    destruct (IH (Sleep (interval c) t (snd (Tamer_ServiceProcess m)))) as (R1 & R2 & R3).
    + now rewrite Sg, PS.
    + rewrite Sg, C. discriminate.
    + exact Hticks.
    + split; [exact R1|]. split.
      * eapply grows_trans; [exact PG|]. eapply grows_trans; [exact SG|exact R2].
      * rewrite (since_trans m _ _ PG (grows_trans _ _ _ SG R2)).
        rewrite (since_trans _ _ _ SG R2).
        rewrite !sleeps_app, Pz, R3, (since_app _ _ _ St). reflexivity.
Qed.

(** The console loop has no exit at all. *)
Lemma console_loop_runs (ticks : list Tick) :
  forall m : Machine,
  config (gTamer m) <> None ->
  Forall (fun t => is_stop_request t = false) ticks ->
  fst (console_loop ticks m) = Running /\
  grows m (snd (console_loop ticks m)) /\
  sleeps (since m (snd (console_loop ticks m))) = List.length ticks.
Proof.
  induction ticks as [|t ticks IH]; intros m Hcfg Hquiet.
  - cbn [console_loop fst snd]. rewrite since_refl. repeat split. apply grows_refl.
  - cbn [console_loop].
    pose proof (ServiceProcess_frame m) as P. cbv zeta in P.
    destruct P as (_ & _ & PC & PG & Pz & _).
    specialize (PC Hcfg).
    destruct (config (gTamer (snd (Tamer_ServiceProcess m)))) as [c|] eqn:C; [|easy].
    inversion Hquiet as [|t' ticks' Ht Hticks]; subst.
    destruct (Sleep_undisturbed (interval c) t (snd (Tamer_ServiceProcess m)) Ht)
      as [Sg St].
    assert (SG : grows (snd (Tamer_ServiceProcess m))
                       (Sleep (interval c) t (snd (Tamer_ServiceProcess m))))
      by (eapply grows_app, St).
    destruct (IH (Sleep (interval c) t (snd (Tamer_ServiceProcess m)))) as (R1 & R2 & R3).
    + rewrite Sg, C. discriminate.
    + exact Hticks.
    + split; [exact R1|]. split.
      * eapply grows_trans; [exact PG|]. eapply grows_trans; [exact SG|exact R2].
      * rewrite (since_trans m _ _ PG (grows_trans _ _ _ SG R2)).
        rewrite (since_trans _ _ _ SG R2).
        rewrite !sleeps_app, Pz, R3, (since_app _ _ _ St). reflexivity.
Qed.

(** ** What a pass does to one process *)

Lemma tamed_intro (proc : Tamer_Proc) (h : Host) (snapshot : list PROCESSENTRY32)
    (pEntry : PROCESSENTRY32) :
  In pEntry snapshot ->
  _stricmp (szExeFile pEntry) (procName proc) = 0 ->
  canOpen h (th32ProcessID pEntry) = true ->
  tamed proc h snapshot (th32ProcessID pEntry) = true.
Proof.
  intros Hin Hname Hopen. unfold tamed. apply existsb_exists.
  exists pEntry. split; [exact Hin|]. now rewrite Hname, Hopen, !Z.eqb_refl.
Qed.

Lemma tamed_elim (proc : Tamer_Proc) (h : Host) (snapshot : list PROCESSENTRY32) (pid : Z) :
  tamed proc h snapshot pid = true ->
  exists pEntry, In pEntry snapshot /\
                 _stricmp (szExeFile pEntry) (procName proc) = 0 /\
                 th32ProcessID pEntry = pid /\ canOpen h pid = true.
Proof.
  unfold tamed. intro H. apply existsb_exists in H. destruct H as (pEntry & Hin & H).
  apply andb_prop in H. destruct H as [H Hopen].
  apply andb_prop in H. destruct H as [Hname Hpid].
  exists pEntry. repeat split; [exact Hin|now apply Z.eqb_eq|now apply Z.eqb_eq|exact Hopen].
Qed.

Lemma SetProcessPriority_reads (proc : Tamer_Proc) (m : Machine) (pEntry : PROCESSENTRY32) :
  In pEntry (processTable (host m)) ->
  _stricmp (szExeFile pEntry) (procName proc) = 0 ->
  canOpen (host m) (th32ProcessID pEntry) = true ->
  In (EvGetPriorityClass (th32ProcessID pEntry)) (since m (Tamer_SetProcessPriority proc m)).
Proof.
  intros Hin Hname Hopen. rewrite SetProcessPriority_since. right.
  now apply walk_snapshot_reads.
Qed.

Lemma SetProcessPriority_sets_idle (proc : Tamer_Proc) (m : Machine) (pid cls : Z) :
  In (pid, cls) (set_calls (since m (Tamer_SetProcessPriority proc m))) ->
  cls = IDLE_PRIORITY_CLASS /\
  priorityClass (host m) pid <> IDLE_PRIORITY_CLASS /\
  canOpen (host m) pid = true.
Proof.
  rewrite SetProcessPriority_since. cbn [set_calls].
  apply (walk_snapshot_sets_idle proc (processTable (host m)) (log EvSnapshot m)).
Qed.

Lemma SetProcessPriority_sets (proc : Tamer_Proc) (m : Machine) (pEntry : PROCESSENTRY32) :
  In pEntry (processTable (host m)) ->
  _stricmp (szExeFile pEntry) (procName proc) = 0 ->
  canOpen (host m) (th32ProcessID pEntry) = true ->
  priorityClass (host m) (th32ProcessID pEntry) <> IDLE_PRIORITY_CLASS ->
  In (th32ProcessID pEntry, IDLE_PRIORITY_CLASS)
     (set_calls (since m (Tamer_SetProcessPriority proc m))).
Proof.
  intros Hin Hname Hopen Hprio. rewrite SetProcessPriority_since. cbn [set_calls].
  now apply (walk_snapshot_sets proc (processTable (host m)) (log EvSnapshot m)).
Qed.

Lemma foreach_idle_stays (head : list Tamer_Proc) (m : Machine) (pid : Z) :
  priorityClass (host m) pid = IDLE_PRIORITY_CLASS ->
  priorityClass (host (LL_FOREACH head Tamer_SetProcessPriority m)) pid = IDLE_PRIORITY_CLASS.
Proof.
  revert m. induction head as [|r head IH]; intros m H; [exact H|].
  rewrite foreach_cons. apply IH. rewrite SetProcessPriority_priority.
  now destruct (tamed r (host m) (processTable (host m)) pid).
Qed.

Lemma tamed_frame (proc : Tamer_Proc) (h h' : Host) (pid : Z) :
  processTable h' = processTable h -> canOpen h' = canOpen h ->
  tamed proc h' (processTable h') pid = tamed proc h (processTable h) pid.
Proof. intros H1 H2. unfold tamed. now rewrite H1, H2. Qed.

(** After a pass, a process some rule's scan got hold of is idle. *)
Lemma foreach_tames (head : list Tamer_Proc) (m : Machine) (proc : Tamer_Proc) (pid : Z) :
  In proc head ->
  tamed proc (host m) (processTable (host m)) pid = true ->
  priorityClass (host (LL_FOREACH head Tamer_SetProcessPriority m)) pid = IDLE_PRIORITY_CLASS.
Proof.
  revert m. induction head as [|r head IH]; intros m Hin T; [easy|].
  rewrite foreach_cons. destruct Hin as [->|Hin].
  - apply foreach_idle_stays. now rewrite SetProcessPriority_priority, T.
  - apply IH; [exact Hin|].
    rewrite (tamed_frame proc (host m)); [exact T| |];
      apply (SetProcessPriority_frame r m).
Qed.

Lemma foreach_reads (head : list Tamer_Proc) (m : Machine) (proc : Tamer_Proc)
    (pEntry : PROCESSENTRY32) :
  In proc head ->
  In pEntry (processTable (host m)) ->
  _stricmp (szExeFile pEntry) (procName proc) = 0 ->
  canOpen (host m) (th32ProcessID pEntry) = true ->
  In (EvGetPriorityClass (th32ProcessID pEntry))
     (since m (LL_FOREACH head Tamer_SetProcessPriority m)).
Proof.
  revert m. induction head as [|r head IH]; intros m Hproc Hin Hname Hopen; [easy|].
  rewrite foreach_since. apply in_or_app. destruct Hproc as [->|Hproc].
  - left. now apply SetProcessPriority_reads.
  - right. pose proof (SetProcessPriority_frame r m) as F. cbv zeta in F.
    destruct F as (_ & _ & Ft & Fo & _).
    apply IH; [exact Hproc|now rewrite Ft|exact Hname|now rewrite Fo].
Qed.

(** Whatever class a pass sets is the idle class. *)
Lemma foreach_sets_idle (head : list Tamer_Proc) (m : Machine) (pid cls : Z) :
  In (pid, cls) (set_calls (since m (LL_FOREACH head Tamer_SetProcessPriority m))) ->
  cls = IDLE_PRIORITY_CLASS /\
  priorityClass (host m) pid <> IDLE_PRIORITY_CLASS /\
  canOpen (host m) pid = true.
Proof.
  revert m. induction head as [|r head IH]; intros m Hin.
  - cbn [LL_FOREACH fold_left] in Hin. now rewrite since_refl in Hin.
  - rewrite foreach_since, set_calls_app in Hin. apply in_app_or in Hin.
    destruct Hin as [Hin|Hin]; [now apply SetProcessPriority_sets_idle in Hin|].
    apply IH in Hin. destruct Hin as (-> & Hne & Hopen).
    pose proof (SetProcessPriority_frame r m) as F. cbv zeta in F.
    destruct F as (_ & _ & _ & Fo & _).
    split; [reflexivity|]. split; [|now rewrite <- Fo].
    rewrite SetProcessPriority_priority in Hne.
    now destruct (tamed r (host m) (processTable (host m)) pid).
Qed.

(** A pass sets the idle class on a matching, openable process that was not
    idle. *)
Lemma foreach_sets (head : list Tamer_Proc) (m : Machine) (proc : Tamer_Proc)
    (pEntry : PROCESSENTRY32) :
  In proc head ->
  In pEntry (processTable (host m)) ->
  _stricmp (szExeFile pEntry) (procName proc) = 0 ->
  canOpen (host m) (th32ProcessID pEntry) = true ->
  priorityClass (host m) (th32ProcessID pEntry) <> IDLE_PRIORITY_CLASS ->
  In (th32ProcessID pEntry, IDLE_PRIORITY_CLASS)
     (set_calls (since m (LL_FOREACH head Tamer_SetProcessPriority m))).
Proof.
  revert m. induction head as [|r head IH]; intros m Hproc Hin Hname Hopen Hprio; [easy|].
  rewrite foreach_since, set_calls_app. apply in_or_app.
  destruct (tamed r (host m) (processTable (host m)) (th32ProcessID pEntry)) eqn:T.
  - left. destruct (tamed_elim _ _ _ _ T) as (e & He & Hn & Hp & Ho).
    rewrite <- Hp in *. now apply SetProcessPriority_sets.
  - right. destruct Hproc as [->|Hproc].
    + now rewrite (tamed_intro proc (host m) _ pEntry Hin Hname Hopen) in T.
    + pose proof (SetProcessPriority_frame r m) as F. cbv zeta in F.
      destruct F as (_ & _ & Ft & Fo & _).
      apply IH; [exact Hproc|now rewrite Ft|exact Hname|now rewrite Fo|].
      now rewrite SetProcessPriority_priority, T.
Qed.

(** ** Helpers for the statements on whole cycles *)

(** A process that cannot be opened keeps its class through a pass. *)
Lemma foreach_unopenable_keeps (head : list Tamer_Proc) (m : Machine) (pid : Z) :
  canOpen (host m) pid = false ->
  priorityClass (host (LL_FOREACH head Tamer_SetProcessPriority m)) pid =
  priorityClass (host m) pid.
Proof.
  revert m. induction head as [|r head IH]; intros m Hshut; [reflexivity|].
  rewrite foreach_cons, IH.
  - rewrite SetProcessPriority_priority.
    destruct (tamed r (host m) (processTable (host m)) pid) eqn:T; [|reflexivity].
    destruct (tamed_elim _ _ _ _ T) as (_ & _ & _ & _ & Hopen). congruence.
  - replace (canOpen (host (Tamer_SetProcessPriority r m))) with (canOpen (host m))
      by (symmetry; apply (SetProcessPriority_frame r m)).
    exact Hshut.
Qed.

(** A cycle whose read returns a count other than 0 walks the stored list. *)
Lemma ServiceProcess_enforces (m : Machine) (r : Tamer_Proc) (head : list Tamer_Proc) :
  fst (Tamer_ReadConfig m) <> 0 ->
  current_procList (snd (Tamer_ReadConfig m)) = r :: head ->
  Tamer_ServiceProcess m =
  (true, LL_FOREACH (r :: head) Tamer_SetProcessPriority (snd (Tamer_ReadConfig m))).
Proof.
  unfold Tamer_ServiceProcess, current_procList.
  destruct (Tamer_ReadConfig m) as [n m1]. cbn [fst snd].
  intros Hn Hl. apply Z.eqb_neq in Hn. rewrite Hn.
  destruct (config (gTamer m1)) as [c|]; [|discriminate].
  now rewrite Hl.
Qed.

(** The service's main function, once registered, stays in its loop. *)
Lemma ServiceMain_runs (ticks : list Tick) (m : Machine) :
  serviceMode (gTamer m) = true ->
  ctrlHandle (host m) <> 0 ->
  config (gTamer m) <> None ->
  Forall (fun t => is_stop_request t = false) ticks ->
  fst (Tamer_ServiceMain ticks m) = Running /\
  grows m (snd (Tamer_ServiceMain ticks m)) /\
  sleeps (since m (snd (Tamer_ServiceMain ticks m))) = List.length ticks.
Proof.
  intros Hmode Hctrl Hcfg Hquiet. unfold Tamer_ServiceMain, Tamer_ServiceInit.
  rewrite Hmode. cbv zeta.
  cbn [negb set_hStatus set_ServiceStatus set_gTamer gTamer host hStatus serviceMode
       ServiceStatus config].
  apply Z.eqb_neq in Hctrl. rewrite Hctrl, Hmode. cbn [negb].
  match goal with
  | |- context [service_loop ticks ?m3] =>
      destruct (service_loop_runs ticks m3) as (R1 & R2 & R3);
      [reflexivity|exact Hcfg|exact Hquiet|]
  end.
  split; [exact R1|]. split; [exact R2|exact R3].
Qed.

(** * The claims *)

(** C1 (as the code has it).  When the digest of the source differs from
    the stored one and the source defines no [Process1_Name], the reload
    replaces what was stored: the rule list becomes empty, the stored
    digest becomes the digest of the new source, the service settings are
    those of the new source, and the call returns 0. *)
Theorem C1_zero_rule_reload_replaces_config
    (m : Machine) (file content : string) :
  ini_path m = Some file ->
  files (host m) file = Some content ->
  Tamer_CRC2 (list_byte_of_string content) <> 0 ->
  Tamer_CRC2 (list_byte_of_string content) <> stored_crc m ->
  name_defined (host m) file 1 = false ->
  let m' := snd (Tamer_ReadConfig m) in
  fst (Tamer_ReadConfig m) = 0 /\
  current_procList m' = [] /\
  stored_crc m' = Tamer_CRC2 (list_byte_of_string content) /\
  config (gTamer m') =
    Some (mkConfig
            (GetPrivateProfileString (host m) "Service" "DisplayName"
               SRVC_TAME_SERVICE_DISPLAY_NAME (256 - 1) file)
            (GetPrivateProfileString (host m) "Service" "Description"
               SRVC_TAME_SERVICE_DESCRIPTION (256 - 1) file)
            file
            (GetPrivateProfileInt (host m) "Service" "Interval" SRVC_TAME_INTERVAL file)
            (Tamer_CRC2 (list_byte_of_string content))
            []).
Proof.
  intros P Hfile NZ Hchg Hend. cbv zeta.
  destruct (ReadConfig_reloads m file content 0 P Hfile NZ Hchg) as (Hn & Hc & _).
  - intros i [].
  - exact Hend.
  - lia.
  - unfold current_procList, stored_crc. rewrite Hc. cbn [indices seq map] in *.
    repeat split. exact Hn.
Qed.

Lemma C1_zero_rule_reload_witness :
  let m := Scenario.started Scenario.ini_gap in
  let m_edit := set_host (Scenario.with_source (Some Scenario.ini_norules) (host m)) m in
  let m' := snd (Tamer_ReadConfig m_edit) in
  fst (Tamer_ReadConfig m_edit) = 0 /\
  current_procList m' = [] /\
  stored_crc m' = 2984430173 /\
  config (gTamer m') =
    Some (mkConfig SRVC_TAME_SERVICE_DISPLAY_NAME SRVC_TAME_SERVICE_DESCRIPTION
                   Scenario.ini_file 250 2984430173 []).
Proof.
  cbv zeta.
  apply (C1_zero_rule_reload_replaces_config
           (set_host (Scenario.with_source (Some Scenario.ini_norules)
                        (host (Scenario.started Scenario.ini_gap)))
                     (Scenario.started Scenario.ini_gap))
           Scenario.ini_file Scenario.ini_norules).
  - vm_compute. reflexivity.
  - vm_compute. reflexivity.
  - vm_compute. discriminate.
  - vm_compute. discriminate.
  - vm_compute. reflexivity.
Defined.

(** C1, the claim as written fails.  The service holds the one rule and the
    digest of [ini_gap]; the source is then edited into [ini_norules],
    which is readable and defines no rule.  The next read returns 0, and
    neither the rule list nor the digest is what it was. *)
Lemma C1_previous_ruleset_counterexample :
  let m := Scenario.started Scenario.ini_gap in
  let m_edit := set_host (Scenario.with_source (Some Scenario.ini_norules) (host m)) m in
  let m' := snd (Tamer_ReadConfig m_edit) in
  current_procList m_edit = [mkProc "foo.exe" 16384] /\
  stored_crc m_edit = 150622600 /\
  Tamer_GetFileCRC (host m_edit) Scenario.ini_file = 2984430173 /\
  fst (Tamer_ReadConfig m_edit) = 0 /\
  current_procList m' = [] /\
  current_procList m' <> current_procList m_edit /\
  stored_crc m' = 2984430173 /\
  stored_crc m' <> stored_crc m_edit.
Proof. vm_compute. repeat split; discriminate. Qed.

(** C2 (as the code has it).  When the source cannot be read, and a
    configuration was loaded before, the cycle stops after the failed read:
    [Tamer_ServiceProcess] returns false, the stored rule list and digest
    are as they were, and so is the host; no snapshot is taken and no
    process is opened. *)
Theorem C2_unreadable_source_skips_enforcement (m : Machine) (c : Tamer_Config) :
  config (gTamer m) = Some c ->
  filePath c <> EmptyString ->
  Tamer_GetFileCRC (host m) (filePath c) = 0 ->
  let m' := snd (Tamer_ServiceProcess m) in
  fst (Tamer_ServiceProcess m) = false /\
  config (gTamer m') = Some c /\
  host m' = host m /\
  since m m' = [EvFileRead (filePath c)] /\
  snapshots (since m m') = O /\
  open_attempts (since m m') = [].
Proof.
  intros C P D. cbv zeta. unfold Tamer_ServiceProcess.
  rewrite (ReadConfig_unreadable m c C P D). cbn [Z.eqb fst snd log gTamer host].
  assert (S : since m (log (EvFileRead (filePath c)) m) = [EvFileRead (filePath c)])
    by now apply since_app.
  rewrite S. now repeat split.
Qed.

Lemma C2_unreadable_source_witness :
  let m := Scenario.started Scenario.ini_gap in
  let m_lost := set_host (Scenario.with_source None (host m)) m in
  let m' := snd (Tamer_ServiceProcess m_lost) in
  fst (Tamer_ServiceProcess m_lost) = false /\
  config (gTamer m') = config (gTamer m) /\
  host m' = host m_lost /\
  since m_lost m' = [EvFileRead Scenario.ini_file] /\
  snapshots (since m_lost m') = O /\
  open_attempts (since m_lost m') = [].
Proof.
  cbv zeta.
  apply (C2_unreadable_source_skips_enforcement
           (set_host (Scenario.with_source None (host (Scenario.started Scenario.ini_gap)))
                     (Scenario.started Scenario.ini_gap))
           (mkConfig SRVC_TAME_SERVICE_DISPLAY_NAME SRVC_TAME_SERVICE_DESCRIPTION
                     Scenario.ini_file 500 150622600 [mkProc "foo.exe" 16384])).
  - vm_compute. reflexivity.
  - discriminate.
  - vm_compute. reflexivity.
Defined.

(** C2, the claim as written fails.  The service holds the rule for
    foo.exe, and process 100 runs FOO.exe at normal priority.  In a cycle
    in which the source cannot be read the rule is still stored, but no
    pass runs against it: the cycle returns false, takes no snapshot, and
    process 100 stays at normal priority.  (With the source readable the
    same cycle makes it idle.) *)
Lemma C2_stale_enforcement_counterexample :
  let m := Scenario.started Scenario.ini_gap in
  let m_lost := set_host (Scenario.with_source None (host m)) m in
  let m' := snd (Tamer_ServiceProcess m_lost) in
  current_procList m_lost = [mkProc "foo.exe" 16384] /\
  current_procList m' = [mkProc "foo.exe" 16384] /\
  fst (Tamer_ServiceProcess m_lost) = false /\
  snapshots (since m_lost m') = O /\
  priorityClass (host m_lost) 100 = NORMAL_PRIORITY_CLASS /\
  priorityClass (host m') 100 = NORMAL_PRIORITY_CLASS /\
  priorityClass (host (snd (Tamer_ServiceProcess m))) 100 = IDLE_PRIORITY_CLASS.
Proof. vm_compute. repeat split. Qed.

(** C3 (as the code has it).  In a pass over a rule list, every snapshot
    entry whose image name equals, without regard to case, the name of some
    rule, and that can be opened, has its priority class read; it is idle
    after the pass; if it was not idle, [SetPriorityClass] was called on it
    with [IDLE_PRIORITY_CLASS]; and no call of the pass sets any other
    class or touches a process that was idle.  The priority stored in the
    rule (the value of [Process{N}_Prio]) plays no part: a scan for a rule
    is the same function whatever that value is. *)
Theorem C3_enforcement_targets_idle
    (head : list Tamer_Proc) (m : Machine) (proc : Tamer_Proc) (pEntry : PROCESSENTRY32) :
  In proc head ->
  In pEntry (processTable (host m)) ->
  _stricmp (szExeFile pEntry) (procName proc) = 0 ->
  canOpen (host m) (th32ProcessID pEntry) = true ->
  let m' := LL_FOREACH head Tamer_SetProcessPriority m in
  let pid := th32ProcessID pEntry in
  In (EvGetPriorityClass pid) (since m m') /\
  priorityClass (host m') pid = IDLE_PRIORITY_CLASS /\
  (priorityClass (host m) pid <> IDLE_PRIORITY_CLASS ->
     In (pid, IDLE_PRIORITY_CLASS) (set_calls (since m m'))) /\
  (forall p cls, In (p, cls) (set_calls (since m m')) ->
     cls = IDLE_PRIORITY_CLASS /\ priorityClass (host m) p <> IDLE_PRIORITY_CLASS) /\
  (forall q m0, Tamer_SetProcessPriority (mkProc (procName proc) q) m0 =
                Tamer_SetProcessPriority proc m0).
Proof.
  intros Hproc Hin Hname Hopen. cbv zeta.
  split; [now apply foreach_reads with (proc := proc)|].
  split; [apply foreach_tames with (proc := proc);
          [exact Hproc|now apply tamed_intro]|].
  split; [intro Hprio; now apply foreach_sets with (proc := proc)|].
  split.
  - intros p cls Hset. apply foreach_sets_idle in Hset. tauto.
  - intros q m0. apply SetProcessPriority_ignores_priority.
Qed.

Lemma C3_enforcement_targets_idle_witness :
  let m := Scenario.started Scenario.ini_gap in
  let m' := LL_FOREACH [mkProc "foo.exe" 16384] Tamer_SetProcessPriority m in
  In (EvGetPriorityClass 100) (since m m') /\
  priorityClass (host m') 100 = IDLE_PRIORITY_CLASS /\
  (priorityClass (host m) 100 <> IDLE_PRIORITY_CLASS ->
     In (100, IDLE_PRIORITY_CLASS) (set_calls (since m m'))) /\
  (forall p cls, In (p, cls) (set_calls (since m m')) ->
     cls = IDLE_PRIORITY_CLASS /\ priorityClass (host m) p <> IDLE_PRIORITY_CLASS) /\
  (forall q m0, Tamer_SetProcessPriority (mkProc "foo.exe" q) m0 =
                Tamer_SetProcessPriority (mkProc "foo.exe" 16384) m0).
Proof.
  cbv zeta.
  apply (C3_enforcement_targets_idle
           [mkProc "foo.exe" 16384] (Scenario.started Scenario.ini_gap)
           (mkProc "foo.exe" 16384) (mkEntry 100 "FOO.exe")).
  - now left.
  - vm_compute. tauto.
  - vm_compute. reflexivity.
  - vm_compute. reflexivity.
Defined.

(** C3, the claim as written fails.  The rule read from [ini_gap] asks for
    class 16384.  Process 100 matches it and runs at class 32: the cycle
    sets it to 64, not to 16384.  Process 104 matches it and runs at 16384,
    the rule's own target: the cycle does not leave it alone but sets it to
    64 as well. *)
Lemma C3_rule_priority_counterexample :
  let m := Scenario.started Scenario.ini_gap in
  let m' := snd (Tamer_ServiceProcess m) in
  current_procList m = [mkProc "foo.exe" 16384] /\
  priorityClass (host m) 100 = 32 /\
  priorityClass (host m') 100 = 64 /\
  priorityClass (host m') 100 <> 16384 /\
  priorityClass (host m) 104 = 16384 /\
  priorityClass (host m') 104 = 64 /\
  priorityClass (host m') 104 <> priorityClass (host m) 104 /\
  set_calls (since m m') = [(100, 64); (104, 64)].
Proof. vm_compute. repeat split; discriminate. Qed.

(** C4 (as the code has it).  Every scan for a rule takes one snapshot of
    the process table and walks that one snapshot to its end.  A cycle
    scans once per rule, so a cycle that enforces takes as many snapshots
    as the rule list has rules, and a cycle that does not enforce takes
    none. *)
Theorem C4_one_snapshot_per_rule (m : Machine) :
  (forall proc, snapshots (since m (Tamer_SetProcessPriority proc m)) = 1%nat) /\
  (forall head,
     snapshots (since m (LL_FOREACH head Tamer_SetProcessPriority m)) = List.length head) /\
  snapshots (since m (snd (Tamer_ServiceProcess m))) =
    if fst (Tamer_ServiceProcess m)
    then List.length (current_procList (snd (Tamer_ServiceProcess m)))
    else O.
Proof.
  split; [intro proc; apply SetProcessPriority_counts|].
  split; [intro head; apply foreach_counts|].
  apply (ServiceProcess_frame m).
Qed.

(** C4, the claim as written fails: a cycle over a list of two rules takes
    two snapshots, not one. *)
Lemma C4_one_snapshot_counterexample :
  let m := Scenario.started Scenario.ini_twice in
  let m' := snd (Tamer_ServiceProcess m) in
  fst (Tamer_ServiceProcess m) = true /\
  List.length (current_procList m') = 2%nat /\
  snapshots (since m m') = 2%nat /\
  snapshots (since m m') <> 1%nat.
Proof. vm_compute. repeat split; discriminate. Qed.

(** C5 (as the code has it).  Once the start-up read has returned a count
    other than 0 and the service control manager has started the service,
    nothing that happens in a cycle ends the loop: whatever the ticks do
    to the host (sources lost or emptied, processes that cannot be
    opened), as long as none of them delivers a stop or shutdown request
    [main] is still running after them and has slept exactly once per
    tick.  The same holds for the service loop and for the console loop
    entered in any state that has a configuration block. *)
Theorem C5_loop_survives_errors (argv : list string) (ticks : list Tick) (m0 : Machine) :
  fst (Tamer_ReadConfig (set_serviceMode SRVC_TAME_RUN_AS_SERVICE m0)) <> 0 ->
  List.length argv <> 2%nat ->
  startedBySCM (host m0) = true ->
  ctrlHandle (host m0) <> 0 ->
  Forall (fun t => is_stop_request t = false) ticks ->
  (fst (main argv ticks m0) = Running /\
   sleeps (since m0 (snd (main argv ticks m0))) = List.length ticks) /\
  (forall m, dwCurrentState (ServiceStatus (gTamer m)) = SERVICE_RUNNING ->
             config (gTamer m) <> None ->
             fst (service_loop ticks m) = Running /\
             sleeps (since m (snd (service_loop ticks m))) = List.length ticks) /\
  (forall m, config (gTamer m) <> None ->
             fst (console_loop ticks m) = Running /\
             sleeps (since m (snd (console_loop ticks m))) = List.length ticks).
Proof.
  intros Hread Hargs Hscm Hctrl Hquiet. split; [|split].
  2:{ intros m Hrun Hcfg.
      destruct (service_loop_runs ticks m Hrun Hcfg Hquiet) as (R1 & _ & R3). now split. }
  2:{ intros m Hcfg.
      destruct (console_loop_runs ticks m Hcfg Hquiet) as (R1 & _ & R3). now split. }
  unfold main. cbv zeta.
  pose proof (ReadConfig_frame (set_serviceMode SRVC_TAME_RUN_AS_SERVICE m0)) as R.
  cbv zeta in R. destruct R as (RH & _ & _ & RSM & _ & RC & RG & Rq).
  specialize (RC Hread).
  destruct (config_reads_quiet _ Rq) as (_ & Rz & _).
  destruct (Tamer_ReadConfig (set_serviceMode SRVC_TAME_RUN_AS_SERVICE m0)) as [n m1].
  cbn [fst snd] in *. apply Z.eqb_neq in Hread. rewrite Hread.
  cbn [set_serviceMode set_gTamer gTamer host serviceMode SRVC_TAME_RUN_AS_SERVICE] in RH, RSM.
  assert (Hmain :
    (if serviceMode (gTamer m1)
     then if startedBySCM (host m1)
          then match Tamer_ServiceMain ticks m1 with
               | (Returned _, m2) => (Returned EXIT_SUCCESS, m2)
               | (Running, m2) => (Running, m2)
               | (Fault, m2) => (Fault, m2)
               end
          else (Returned EXIT_SUCCESS, m1)
     else console_loop ticks m1) = (Running, snd (Tamer_ServiceMain ticks m1)) /\
    sleeps (since m0 (snd (Tamer_ServiceMain ticks m1))) = List.length ticks).
  { rewrite RSM, RH, Hscm.
    destruct (ServiceMain_runs ticks m1) as (S1 & S2 & S3);
      [exact RSM|now rewrite RH|exact RC|exact Hquiet|].
    split.
    - destruct (Tamer_ServiceMain ticks m1) as [[b| |] m2]; cbn [fst snd] in *;
        try discriminate S1; reflexivity.
    - rewrite (since_same_trace m0 (set_serviceMode SRVC_TAME_RUN_AS_SERVICE m0))
        by reflexivity.
      rewrite (since_trans _ _ _ RG S2), sleeps_app, Rz, S3. reflexivity. }
  destruct Hmain as [Hmain Hsleeps].
  destruct argv as [|a0 [|a1 [|a2 argv]]];
    try (cbn [List.length] in Hargs; congruence);
    rewrite Hmain; now split.
Qed.

Lemma C5_loop_survives_errors_witness :
  let m0 := boot (Scenario.pc (Some Scenario.ini_gap)) 8 in
  let ticks := [Scenario.source_lost; Scenario.interrogate; Scenario.quiet] in
  fst (main ["SrvcTame.exe"] ticks m0) = Running /\
  sleeps (since m0 (snd (main ["SrvcTame.exe"] ticks m0))) = 3%nat.
Proof.
  cbv zeta.
  refine (proj1 (C5_loop_survives_errors
                   ["SrvcTame.exe"]
                   [Scenario.source_lost; Scenario.interrogate; Scenario.quiet]
                   (boot (Scenario.pc (Some Scenario.ini_gap)) 8) _ _ _ _ _)).
  - vm_compute. discriminate.
  - cbn. discriminate.
  - reflexivity.
  - vm_compute. discriminate.
  - repeat constructor.
Defined.

(** C5, the claim as written fails.  With no rule list loaded and a source
    that cannot be read, and with no stop request ever sent, the program
    does not stay in a loop that sleeps and retries: the start-up read in
    [main] returns 0 and [main] returns [EXIT_FAILURE] without a single
    cycle or sleep.  The same happens when the source is readable and
    defines no rule. *)
Lemma C5_startup_failure_counterexample :
  let ticks := [Scenario.quiet; Scenario.quiet; Scenario.quiet] in
  let unreadable := main ["SrvcTame.exe"] ticks (boot (Scenario.pc None) 8) in
  let ruleless := main ["SrvcTame.exe"] ticks (boot (Scenario.pc (Some Scenario.ini_norules)) 8) in
  forallb is_stop_request ticks = false /\
  fst unreadable = Returned EXIT_FAILURE /\
  fst unreadable <> Running /\
  sleeps (trace (snd unreadable)) = O /\
  current_procList (snd unreadable) = [] /\
  fst ruleless = Returned EXIT_FAILURE /\
  sleeps (trace (snd ruleless)) = O.
Proof. vm_compute. repeat split; discriminate. Qed.

(** C6.  The digest is CRC-32/IEEE: [Tamer_CRC2] computes the bit-reflected
    division by 0xEDB88320 with the register started at 0xFFFFFFFF and
    complemented at the end; it maps the empty input to 0x00000000 and the
    ASCII bytes "123456789" to 0xCBF43926; its value is a 32-bit number; and
    it is a function of the bytes alone, so identical bytes give identical
    digests. *)
Theorem C6_digest_is_crc32_ieee :
  Tamer_CRC2 [] = 0x00000000 /\
  Tamer_CRC2 (list_byte_of_string "123456789") = 0xCBF43926 /\
  (forall data, Tamer_CRC2 data = crc32_ieee data) /\
  (forall data, is_uint32 (Tamer_CRC2 data)) /\
  (forall data data', data = data' -> Tamer_CRC2 data = Tamer_CRC2 data').
Proof.
  split; [reflexivity|]. split; [vm_compute; reflexivity|].
  split; [exact Tamer_CRC2_ieee|]. split; [exact Tamer_CRC2_uint32|].
  intros data data' H. now rewrite H.
Qed.

(** C7.  Rule parsing is contiguous in the index and stops at the first
    missing index.  When a changed source defines [Process1_Name] ..
    [Process{count}_Name] and not [Process{count+1}_Name], the list
    installed has exactly [count] rules, those of the indices 1 .. [count]
    in that order, whatever the source holds at higher indices; the value
    returned is [count].  For a source with [Process1_Name] and
    [Process3_Name] and no [Process2_Name] that is one rule. *)
Theorem C7_parsing_stops_at_first_missing_index
    (m : Machine) (file content : string) (count : nat) :
  ini_path m = Some file ->
  files (host m) file = Some content ->
  Tamer_CRC2 (list_byte_of_string content) <> 0 ->
  Tamer_CRC2 (list_byte_of_string content) <> stored_crc m ->
  (forall i, In i (indices 1 count) -> name_defined (host m) file i = true) ->
  name_defined (host m) file (1 + Z.of_nat count) = false ->
  (count <= loader_budget m)%nat ->
  fst (Tamer_ReadConfig m) = Z.of_nat count /\
  current_procList (snd (Tamer_ReadConfig m)) =
    map (rule_at (host m) file) (indices 1 count) /\
  List.length (current_procList (snd (Tamer_ReadConfig m))) = count.
Proof.
  intros P Hfile NZ Hchg Hdef Hend Hle.
  destruct (ReadConfig_reloads m file content count P Hfile NZ Hchg Hdef Hend Hle)
    as (Hn & Hc & _).
  split; [exact Hn|]. unfold current_procList. rewrite Hc. cbn [procList].
  split; [reflexivity|]. now rewrite length_map, indices_length.
Qed.

Lemma C7_parsing_stops_witness :
  let h := Scenario.pc (Some Scenario.ini_gap) in
  let m := set_serviceMode true (boot h 8) in
  name_defined h Scenario.ini_file 1 = true /\
  name_defined h Scenario.ini_file 2 = false /\
  name_defined h Scenario.ini_file 3 = true /\
  fst (Tamer_ReadConfig m) = 1 /\
  current_procList (snd (Tamer_ReadConfig m)) = [mkProc "foo.exe" 16384] /\
  List.length (current_procList (snd (Tamer_ReadConfig m))) = 1%nat.
Proof.
  cbv zeta.
  split; [vm_compute; reflexivity|].
  split; [vm_compute; reflexivity|].
  split; [vm_compute; reflexivity|].
  apply (C7_parsing_stops_at_first_missing_index
           (set_serviceMode true (boot (Scenario.pc (Some Scenario.ini_gap)) 8))
           Scenario.ini_file Scenario.ini_gap 1).
  - vm_compute. reflexivity.
  - vm_compute. reflexivity.
  - vm_compute. discriminate.
  - vm_compute. discriminate.
  - intros i Hi. vm_compute in Hi. destruct Hi as [<-|[]]. vm_compute. reflexivity.
  - vm_compute. reflexivity.
  - vm_compute. lia.
Defined.

(** C8.  A source whose digest equals the stored one is not parsed again:
    all [Tamer_ReadConfig] does is read the file once.  The globals (and
    with them the rule list and the digest), the allocator and the host are
    as they were, and the value returned is the count of the stored list
    (0 when the digest is the reserved value 0).  Called a second time
    right after, it does exactly the same and returns the same value. *)
Theorem C8_unchanged_digest_is_noop (m : Machine) (c : Tamer_Config) :
  config (gTamer m) = Some c ->
  filePath c <> EmptyString ->
  Tamer_GetFileCRC (host m) (filePath c) = crc32 c ->
  let once := Tamer_ReadConfig m in
  let twice := Tamer_ReadConfig (snd once) in
  fst once = (if crc32 c =? 0 then 0 else LL_COUNT (procList c)) /\
  fst twice = fst once /\
  gTamer (snd once) = gTamer m /\
  gTamer (snd twice) = gTamer m /\
  heap (snd twice) = heap m /\
  host (snd twice) = host m /\
  since m (snd once) = [EvFileRead (filePath c)] /\
  since m (snd twice) = [EvFileRead (filePath c); EvFileRead (filePath c)].
Proof.
  intros C P D. cbv zeta.
  assert (H : forall m0, config (gTamer m0) = Some c -> host m0 = host m ->
                Tamer_ReadConfig m0 =
                (if crc32 c =? 0 then 0 else LL_COUNT (procList c),
                 log (EvFileRead (filePath c)) m0)).
  { intros m0 C0 H0. destruct (crc32 c =? 0) eqn:E.
    - apply Z.eqb_eq in E. apply ReadConfig_unreadable; [exact C0|exact P|].
      now rewrite H0, D.
    - apply Z.eqb_neq in E. apply ReadConfig_unchanged; [exact C0|exact P| |exact E].
      now rewrite H0. }
  rewrite (H m C eq_refl). cbn [fst snd].
  rewrite (H (log (EvFileRead (filePath c)) m) C eq_refl).
  cbn [fst snd log gTamer heap host].
  repeat split.
  - apply since_app. reflexivity.
  - apply since_app. cbn [log trace]. now rewrite <- app_assoc.
Qed.

Lemma C8_unchanged_digest_witness :
  let m := Scenario.started Scenario.ini_gap in
  fst (Tamer_ReadConfig m) = 1 /\
  fst (Tamer_ReadConfig (snd (Tamer_ReadConfig m))) = 1 /\
  gTamer (snd (Tamer_ReadConfig (snd (Tamer_ReadConfig m)))) = gTamer m /\
  since m (snd (Tamer_ReadConfig (snd (Tamer_ReadConfig m)))) =
    [EvFileRead Scenario.ini_file; EvFileRead Scenario.ini_file].
Proof.
  cbv zeta.
  destruct (C8_unchanged_digest_is_noop
              (Scenario.started Scenario.ini_gap)
              (mkConfig SRVC_TAME_SERVICE_DISPLAY_NAME SRVC_TAME_SERVICE_DESCRIPTION
                        Scenario.ini_file 500 150622600 [mkProc "foo.exe" 16384]))
    as (H1 & H2 & _ & H4 & _ & _ & _ & H8).
  - vm_compute. reflexivity.
  - discriminate.
  - vm_compute. reflexivity.
  - split; [exact H1|]. split; [now rewrite H2|]. split; [exact H4|exact H8].
Defined.

(** C9.  A matching process that cannot be opened is skipped and the pass
    goes on.  The scan for a rule calls [OpenProcess] once for every
    matching entry of the snapshot, in snapshot order, whatever the earlier
    calls returned, and a pass is the scans of its rules one after the
    other.  Every matching entry is treated on its own: one that opens is
    idle after the pass, also when other entries carry the same image
    name; one that does not open keeps its class and is never passed to
    [SetPriorityClass]. *)
Theorem C9_unopenable_is_skipped_each_match_enforced
    (head : list Tamer_Proc) (proc : Tamer_Proc) (m : Machine) (pEntry : PROCESSENTRY32) :
  In proc head ->
  In pEntry (processTable (host m)) ->
  _stricmp (szExeFile pEntry) (procName proc) = 0 ->
  let scan := Tamer_SetProcessPriority proc m in
  let pass := LL_FOREACH head Tamer_SetProcessPriority m in
  let pid := th32ProcessID pEntry in
  open_attempts (since m scan) = expected_attempts (host m) proc /\
  open_attempts (since m pass) = flat_map (expected_attempts (host m)) head /\
  In (pid, canOpen (host m) pid) (open_attempts (since m scan)) /\
  In (pid, canOpen (host m) pid) (open_attempts (since m pass)) /\
  (canOpen (host m) pid = true ->
     priorityClass (host pass) pid = IDLE_PRIORITY_CLASS) /\
  (canOpen (host m) pid = false ->
     priorityClass (host pass) pid = priorityClass (host m) pid /\
     forall cls, ~ In (pid, cls) (set_calls (since m pass))).
Proof.
  intros Hproc Hin Hname. cbv zeta.
  rewrite SetProcessPriority_attempts, foreach_attempts.
  assert (Hattempt : In (th32ProcessID pEntry, canOpen (host m) (th32ProcessID pEntry))
                        (expected_attempts (host m) proc)).
  { unfold expected_attempts.
    apply (in_map (fun e => (th32ProcessID e, canOpen (host m) (th32ProcessID e)))).
    apply filter_In. split; [exact Hin|]. unfold matches. now rewrite Hname. }
  split; [reflexivity|]. split; [reflexivity|]. split; [exact Hattempt|].
  split; [apply in_flat_map; now exists proc|]. split.
  - intro Hopen. apply foreach_tames with (proc := proc); [exact Hproc|].
    now apply tamed_intro.
  - intro Hshut. split; [now apply foreach_unopenable_keeps|].
    intros cls Hset. apply foreach_sets_idle in Hset.
    destruct Hset as (_ & _ & Hopen). congruence.
Qed.

Lemma C9_unopenable_is_skipped_witness :
  let m := Scenario.started Scenario.ini_gap in
  let scan := Tamer_SetProcessPriority (mkProc "foo.exe" 16384) m in
  let pass := LL_FOREACH [mkProc "foo.exe" 16384] Tamer_SetProcessPriority m in
  open_attempts (since m scan) = [(100, true); (102, false); (103, true); (104, true)] /\
  open_attempts (since m pass) = [(100, true); (102, false); (103, true); (104, true)] /\
  In (102, false) (open_attempts (since m scan)) /\
  In (102, false) (open_attempts (since m pass)) /\
  (canOpen (host m) 102 = true -> priorityClass (host pass) 102 = IDLE_PRIORITY_CLASS) /\
  (canOpen (host m) 102 = false ->
     priorityClass (host pass) 102 = priorityClass (host m) 102 /\
     forall cls, ~ In (102, cls) (set_calls (since m pass))).
Proof.
  cbv zeta.
  apply (C9_unopenable_is_skipped_each_match_enforced
           [mkProc "foo.exe" 16384] (mkProc "foo.exe" 16384)
           (Scenario.started Scenario.ini_gap) (mkEntry 102 "foo.exe")).
  - now left.
  - vm_compute. tauto.
  - vm_compute. reflexivity.
Defined.



(** * Further properties *)

(** ** The checksum gate: what it cannot miss *)

Lemma lxor_cancel_r (a b c : Z) : Z.lxor a c = Z.lxor b c -> a = b.
Proof.
  intro H. apply (f_equal (fun z => Z.lxor z c)) in H.
  now rewrite !Z.lxor_assoc, Z.lxor_nilpotent, !Z.lxor_0_r in H.
Qed.

(** The bit shifted out of a register shows in bit 31 of the next one. *)
Lemma ieee_shift_top_bit (reg : Z) :
  is_uint32 reg -> Z.testbit (ieee_shift reg) 31 = Z.testbit reg 0.
Proof.
  intro H. unfold ieee_shift, ieee_poly_reflected.
  assert (Hs : Z.testbit (Z.shiftr reg 1) 31 = false).
  { rewrite Z.shiftr_spec by lia. apply (uint32_high_bits reg); [exact H|lia]. }
  destruct (Z.testbit reg 0); [|exact Hs].
  rewrite Z.lxor_spec, Hs. reflexivity.
Qed.

Lemma ieee_shift_inj (x y : Z) :
  is_uint32 x -> is_uint32 y -> ieee_shift x = ieee_shift y -> x = y.
Proof.
  intros Hx Hy H.
  assert (H0 : Z.testbit x 0 = Z.testbit y 0)
    by (rewrite <- (ieee_shift_top_bit x Hx), <- (ieee_shift_top_bit y Hy); now rewrite H).
  assert (Hs : Z.shiftr x 1 = Z.shiftr y 1).
  { unfold ieee_shift in H. rewrite <- H0 in H.
    destruct (Z.testbit x 0); [now apply lxor_cancel_r in H|exact H]. }
  apply Z.bits_inj'. intros n Hn.
  destruct (Z.eq_dec n 0) as [->|Hne]; [exact H0|].
  replace n with ((n - 1) + 1) by lia.
  rewrite <- !(Z.shiftr_spec _ 1 (n - 1)) by lia. now rewrite Hs.
Qed.

Lemma iter_ieee_shift_inj (k : nat) (x y : Z) :
  is_uint32 x -> is_uint32 y ->
  Nat.iter k ieee_shift x = Nat.iter k ieee_shift y -> x = y.
Proof.
  intros Hx Hy. induction k as [|k IH]; [easy|].
  cbn [Nat.iter]. intro H. apply IH.
  apply ieee_shift_inj; [now apply iter_ieee_shift_uint32 ..|exact H].
Qed.

Lemma ieee_byte_inj_reg (x y : Z) (b : byte) :
  is_uint32 x -> is_uint32 y -> ieee_byte x b = ieee_byte y b -> x = y.
Proof.
  intros Hx Hy H. unfold ieee_byte in H.
  apply iter_ieee_shift_inj in H;
    [now apply lxor_cancel_r in H|apply lxor_uint32; [assumption|apply byte_uint32] ..].
Qed.

Lemma ieee_byte_inj_byte (reg : Z) (b1 b2 : byte) :
  is_uint32 reg -> ieee_byte reg b1 = ieee_byte reg b2 -> b1 = b2.
Proof.
  intros Hr H. unfold ieee_byte in H.
  apply iter_ieee_shift_inj in H;
    [|apply lxor_uint32; [assumption|apply byte_uint32] ..].
  rewrite (Z.lxor_comm reg), (Z.lxor_comm reg) in H. apply lxor_cancel_r in H.
  apply N2Z.inj in H.
  pose proof (Byte.of_to_N b1) as E1. pose proof (Byte.of_to_N b2) as E2.
  rewrite H in E1. congruence.
Qed.

Lemma fold_ieee_inj (data : list byte) (x y : Z) :
  is_uint32 x -> is_uint32 y ->
  fold_left ieee_byte data x = fold_left ieee_byte data y -> x = y.
Proof.
  revert x y. induction data as [|b data IH]; intros x y Hx Hy H; [exact H|].
  cbn [fold_left] in H. apply IH in H; [|now apply ieee_byte_uint32 ..].
  now apply ieee_byte_inj_reg in H.
Qed.

(** X1.  The digest never misses an edit of one byte: two inputs that agree
    everywhere but in one byte position have different digests. *)
Theorem X1_crc_detects_one_byte_change
    (before after : list byte) (b1 b2 : byte) :
  b1 <> b2 ->
  Tamer_CRC2 (before ++ b1 :: after) <> Tamer_CRC2 (before ++ b2 :: after).
Proof.
  intros Hne H. apply Hne. rewrite !Tamer_CRC2_ieee in H. unfold crc32_ieee in H.
  apply lxor_cancel_r in H. rewrite !fold_left_app in H. cbn [fold_left] in H.
  assert (Hr : is_uint32 (fold_left ieee_byte before 0xFFFFFFFF))
    by (apply fold_ieee_uint32; unfold is_uint32; lia).
  apply fold_ieee_inj in H; [|now apply ieee_byte_uint32 ..].
  now apply ieee_byte_inj_byte in H.
Qed.

Lemma X1_crc_detects_witness :
  Tamer_CRC2 (list_byte_of_string "Interval=500") <>
  Tamer_CRC2 (list_byte_of_string "Interval=600").
Proof.
  apply (X1_crc_detects_one_byte_change
           (list_byte_of_string "Interval=") (list_byte_of_string "00") "5"%byte "6"%byte).
  discriminate.
Defined.


(** ** [Tamer_ReadConfig], case by case *)

Lemma load_processes_conserves (h : Host) (file : string) (budget : nat) :
  forall (processIndex : Z) (head : list Tamer_Proc) (tr : list Event),
  (snd (fst (load_processes budget h file processIndex head tr)) +
   List.length (fst (fst (load_processes budget h file processIndex head tr))))%nat =
  (budget + List.length head)%nat.
Proof.
  induction budget as [|budget IH]; intros processIndex head tr; cbn [load_processes].
  - reflexivity.
  - destruct (strlen _ =? 0); [reflexivity|].
    rewrite IH. unfold LL_APPEND. rewrite length_app. cbn [List.length]. lia.
Qed.

(** What a reload builds: a fresh configuration block around the path it
    was given, with the digest it was given, and a list whose nodes come
    out of what the allocator had left plus the nodes of the old list. *)
Lemma reload_shape (crc : Z) (c : Tamer_Config) (m : Machine) :
  exists head budget tr',
    reload crc c m =
    mkMachine
      (mkGlobals (ServiceStatus (gTamer m)) (hStatus (gTamer m))
         (Some (mkConfig
                  (GetPrivateProfileString (host m) "Service" "DisplayName"
                     SRVC_TAME_SERVICE_DISPLAY_NAME (256 - 1) (filePath c))
                  (GetPrivateProfileString (host m) "Service" "Description"
                     SRVC_TAME_SERVICE_DESCRIPTION (256 - 1) (filePath c))
                  (filePath c)
                  (GetPrivateProfileInt (host m) "Service" "Interval"
                     SRVC_TAME_INTERVAL (filePath c))
                  crc head))
         (serviceMode (gTamer m)))
      (host m) budget tr' /\
    (budget + List.length head)%nat = (heap m + List.length (procList c))%nat.
Proof.
  unfold reload. cbv zeta.
  match goal with
  | |- context [load_processes ?b ?h ?f ?i ?hd ?tr] =>
      pose proof (load_processes_conserves h f b i hd tr) as P;
      destruct (load_processes b h f i hd tr) as [[head budget] tr']
  end.
  cbn [fst snd List.length] in P. exists head, budget, tr'.
  split; [reflexivity|lia].
Qed.

Lemma substring_head (n : nat) (a : ascii) (s : string) :
  substring 0 (S n) (String a s) = String a (substring 0 n s).
Proof. reflexivity. Qed.

(** What the path block of [Tamer_ReadConfig] hands on: a configuration
    with a path, which is the stored path when there was one. *)
Lemma locate_ini_path (c0 c : Tamer_Config) (m0 m1 : Machine) :
  locate_ini c0 m0 = Some (c, m1) ->
  filePath c <> EmptyString /\
  (filePath c0 <> EmptyString -> c = c0 /\ m1 = m0).
Proof.
  unfold locate_ini. destruct (filePath c0) as [|a p] eqn:P.
  - destruct (if serviceMode (gTamer m0) then _ else _) as [[|d dir]|];
      try discriminate.
    intro H. inversion H; subst. cbn [filePath]. split; [|easy].
    unfold snprintf. change (Z.to_nat (MAX_PATH - 1)) with (S 258).
    cbn [String.append]. rewrite substring_head. discriminate.
  - intro H. inversion H; subst. rewrite P. split; [discriminate|easy].
Qed.

(** The five ways through [Tamer_ReadConfig]. *)
Lemma ReadConfig_cases (m : Machine) :
  (first_run m = None /\ Tamer_ReadConfig m = (0, m)) \/
  (exists c0 m0,
     first_run m = Some (c0, m0) /\ locate_ini c0 m0 = None /\
     Tamer_ReadConfig m = (0, m0)) \/
  (exists c0 m0 c m1,
     first_run m = Some (c0, m0) /\ locate_ini c0 m0 = Some (c, m1) /\
     ((Tamer_GetFileCRC (host m) (filePath c) = 0 /\
       Tamer_ReadConfig m = (0, log (EvFileRead (filePath c)) m1)) \/
      (Tamer_GetFileCRC (host m) (filePath c) <> 0 /\
       Tamer_GetFileCRC (host m) (filePath c) = crc32 c /\
       Tamer_ReadConfig m = (LL_COUNT (procList c), log (EvFileRead (filePath c)) m1)) \/
      (Tamer_GetFileCRC (host m) (filePath c) <> 0 /\
       Tamer_GetFileCRC (host m) (filePath c) <> crc32 c /\
       Tamer_ReadConfig m =
         (LL_COUNT (current_procList
                      (reload (Tamer_GetFileCRC (host m) (filePath c)) c
                              (log (EvFileRead (filePath c)) m1))),
          reload (Tamer_GetFileCRC (host m) (filePath c)) c
                 (log (EvFileRead (filePath c)) m1))))).
Proof.
  unfold Tamer_ReadConfig.
  destruct (first_run m) as [[c0 m0]|] eqn:F; [|now left].
  destruct (first_run_spec _ _ _ F) as (C0 & H0 & _).
  destruct (locate_ini c0 m0) as [[c m1]|] eqn:L;
    [|right; left; exists c0, m0; repeat split; assumption || reflexivity].
  destruct (locate_ini_spec _ _ _ _ C0 L) as (_ & H1 & _).
  right. right. exists c0, m0, c, m1.
  split; [first [exact F|reflexivity]|]. split; [first [exact L|reflexivity]|].
  cbv zeta. cbn [log host]. rewrite H1, H0.
  destruct (Tamer_GetFileCRC (host m) (filePath c) =? 0) eqn:E0.
  - left. now apply Z.eqb_eq in E0.
  - apply Z.eqb_neq in E0. right.
    destruct (Tamer_GetFileCRC (host m) (filePath c) =? crc32 c) eqn:E1.
    + left. now apply Z.eqb_eq in E1.
    + right. now apply Z.eqb_neq in E1.
Qed.

Lemma first_run_accounting (m m0 : Machine) (c0 : Tamer_Config) :
  first_run m = Some (c0, m0) ->
  (heap m0 + blocks_held m0)%nat = (heap m + blocks_held m)%nat /\
  (config (gTamer m) = None -> c0 = config_zero).
Proof.
  unfold first_run, blocks_held.
  destruct (config (gTamer m)) as [c|] eqn:C.
  - intro H. inversion H; subst. rewrite C. now split.
  - destruct (heap m) as [|n]; [discriminate|].
    intro H. inversion H; subst. cbn. split; [lia|reflexivity].
Qed.

(** The loop reads the profile, not the file system. *)
Lemma load_processes_no_file_read (h : Host) (file : string) (budget : nat) :
  forall (processIndex : Z) (head : list Tamer_Proc) (tr : list Event),
  exists ev, snd (load_processes budget h file processIndex head tr) = tr ++ ev /\
             file_reads ev = [].
Proof.
  induction budget as [|budget IH]; intros processIndex head tr; cbn [load_processes].
  - exists []. now rewrite app_nil_r.
  - destruct (strlen _ =? 0).
    + eexists. split; reflexivity.
    + match goal with
      | |- context [load_processes budget h file ?i ?hd ?t] =>
          destruct (IH i hd t) as (ev & Hev & Hq)
      end.
      exists ([EvProfileString "Processes" (name_key processIndex)] ++
              [EvProfileInt "Processes" (prio_key processIndex)] ++ ev).
      split; [|exact Hq].
      rewrite Hev. now rewrite <- !app_assoc.
Qed.

Lemma file_reads_app (a b : list Event) : file_reads (a ++ b) = file_reads a ++ file_reads b.
Proof.
  induction a as [|e a IH]; [reflexivity|].
  destruct e; simpl; now rewrite ?IH.
Qed.

Lemma reload_no_file_read (crc : Z) (c : Tamer_Config) (m : Machine) :
  file_reads (since m (reload crc c m)) = [].
Proof.
  unfold reload. cbv zeta.
  match goal with
  | |- context [load_processes ?b ?h ?f ?i ?hd ?tr] =>
      destruct (load_processes_no_file_read h f b i hd tr) as (ev & Hev & Hq);
      destruct (load_processes b h f i hd tr) as [[head budget] tr']
  end.
  cbn [snd] in Hev.
  erewrite since_app; [|cbn [trace]; rewrite Hev, <- app_assoc; reflexivity].
  rewrite file_reads_app, Hq. reflexivity.
Qed.

(** The list the loop builds is always the rules of an unbroken run of
    defined names, and the run ends where the budget ends or at a missing
    name. *)
Lemma load_processes_shape (h : Host) (file : string) (budget : nat) :
  forall (processIndex : Z) (head : list Tamer_Proc) (tr : list Event),
  exists count,
    fst (load_processes budget h file processIndex head tr) =
      (head ++ map (rule_at h file) (indices processIndex count), (budget - count)%nat) /\
    (forall i, In i (indices processIndex count) -> name_defined h file i = true) /\
    (count <= budget)%nat /\
    (count = budget \/ name_defined h file (processIndex + Z.of_nat count) = false).
Proof.
  induction budget as [|budget IH]; intros processIndex head tr; cbn [load_processes].
  - exists O. cbn [indices seq map fst]. rewrite app_nil_r.
    repeat split; [easy|lia|now left].
  - destruct (strlen _ =? 0) eqn:E.
    + exists O. cbn [indices seq map fst]. rewrite app_nil_r, Z.add_0_r.
      repeat split; [easy|lia|].
      right. unfold name_defined, name_at. now rewrite E.
    + match goal with
      | |- context [load_processes budget h file ?i ?hd ?t] =>
          destruct (IH i hd t) as (count & Hl & Hdef & Hle & Hend)
      end.
      exists (S count). rewrite Hl, indices_succ. unfold LL_APPEND. cbn [map].
      rewrite <- app_assoc. cbn [Nat.sub]. repeat split.
      * intros i [<-|Hi]; [|now apply Hdef].
        unfold name_defined, name_at. now rewrite E.
      * lia.
      * destruct Hend as [->|Hend]; [now left|right].
        replace (processIndex + Z.of_nat (S count))
          with (processIndex + 1 + Z.of_nat count) by lia.
        exact Hend.
Qed.

(** The changed source, in general: the call is a file read followed by a
    reload around the path that was read. *)
Lemma ReadConfig_changed (m : Machine) (file content : string) :
  ini_path m = Some file ->
  files (host m) file = Some content ->
  Tamer_CRC2 (list_byte_of_string content) <> 0 ->
  Tamer_CRC2 (list_byte_of_string content) <> stored_crc m ->
  exists c m2,
    Tamer_ReadConfig m =
      (LL_COUNT (current_procList (reload (Tamer_CRC2 (list_byte_of_string content)) c m2)),
       reload (Tamer_CRC2 (list_byte_of_string content)) c m2) /\
    filePath c = file /\ host m2 = host m /\
    gTamer m2 = mkGlobals (ServiceStatus (gTamer m)) (hStatus (gTamer m)) (Some c)
                          (serviceMode (gTamer m)) /\
    (heap m2 + List.length (procList c))%nat = loader_budget m /\
    trace m2 = trace m ++ [EvFileRead file].
Proof.
  unfold ini_path, loader_budget. intros P Hfile NZ Hchg.
  destruct (ReadConfig_cases m) as [[F _]|[(c0 & m0 & F & L & _)|(c0 & m0 & c & m1 & F & L & R)]].
  - now rewrite F in P.
  - now rewrite F, L in P.
  - rewrite F, L in P. inversion P; subst file. rewrite F.
    destruct (first_run_spec _ _ _ F) as (C0 & H0 & T0 & S0 & HS0 & SM0 & CRC0).
    destruct (locate_ini_spec _ _ _ _ C0 L) as (C1 & H1 & HP1 & T1 & S1 & HS1 & SM1 & PL & CRC1).
    assert (D : Tamer_GetFileCRC (host m) (filePath c) =
                Tamer_CRC2 (list_byte_of_string content))
      by (unfold Tamer_GetFileCRC; now rewrite Hfile).
    rewrite D in R. destruct R as [[R _]|[(_ & R & _)|(_ & _ & R)]];
      [contradiction|congruence|].
    exists c, (log (EvFileRead (filePath c)) m1).
    split; [exact R|]. split; [reflexivity|]. split; [cbn [log host]; congruence|].
    split.
    + cbn [log gTamer]. destruct m1 as [[s1 hs1 cfg1 sm1] h1 hp1 t1].
      cbn in *. congruence.
    + split; [cbn [log heap]; congruence|cbn [log trace]; congruence].
Qed.

(** What a return value other than 0 says about the globals. *)
Lemma ReadConfig_nonzero (m : Machine) :
  fst (Tamer_ReadConfig m) <> 0 ->
  exists c,
    config (gTamer (snd (Tamer_ReadConfig m))) = Some c /\
    fst (Tamer_ReadConfig m) = Z.of_nat (List.length (procList c)) /\
    procList c <> [] /\
    filePath c <> EmptyString /\
    crc32 c <> 0 /\
    Tamer_GetFileCRC (host m) (filePath c) = crc32 c.
Proof.
  intro Hn.
  destruct (ReadConfig_cases m) as [[_ R]|[(c0 & m0 & _ & _ & R)|(c0 & m0 & c & m1 & F & L & R)]];
    try (rewrite R in Hn; now cbn in Hn).
  destruct (first_run_spec _ _ _ F) as (C0 & _).
  destruct (locate_ini_spec _ _ _ _ C0 L) as (C1 & _).
  destruct (locate_ini_path _ _ _ _ L) as (P & _).
  assert (Hlen : forall l : list Tamer_Proc, LL_COUNT l <> 0 -> l <> [])
    by (intros l H ->; now apply H).
  destruct R as [[_ R]|[(NZ & D & R)|(NZ & _ & R)]]; rewrite R in *; cbn [fst snd] in *.
  - now contradiction Hn.
  - exists c. cbn [log gTamer]. repeat split; try assumption; [now apply Hlen|congruence].
  - destruct (reload_shape (Tamer_GetFileCRC (host m) (filePath c)) c
                (log (EvFileRead (filePath c)) m1)) as (head & budget & tr' & E & _).
    rewrite E in *. unfold current_procList in Hn. cbn in Hn |- *.
    eexists. split; [reflexivity|]. cbn. repeat split; try assumption.
    now apply Hlen.
Qed.

(** X2.  A return value other than 0 means a usable configuration: the
    globals hold a configuration block whose list is not empty and has
    exactly that many rules, whose path is set, and whose stored digest is
    the digest the file has right now, which is not 0. *)
Theorem X2_nonzero_return_means_loaded (m : Machine) :
  fst (Tamer_ReadConfig m) <> 0 ->
  exists c,
    config (gTamer (snd (Tamer_ReadConfig m))) = Some c /\
    fst (Tamer_ReadConfig m) = Z.of_nat (List.length (procList c)) /\
    procList c <> [] /\
    filePath c <> EmptyString /\
    crc32 c <> 0 /\
    Tamer_GetFileCRC (host m) (filePath c) = crc32 c.
Proof. exact (ReadConfig_nonzero m). Qed.

Lemma X2_nonzero_return_witness :
  exists c,
    config (gTamer (snd (Tamer_ReadConfig (Scenario.started Scenario.ini_twice)))) = Some c /\
    fst (Tamer_ReadConfig (Scenario.started Scenario.ini_twice)) =
      Z.of_nat (List.length (procList c)) /\
    procList c <> [] /\
    filePath c <> EmptyString /\
    crc32 c <> 0 /\
    Tamer_GetFileCRC (host (Scenario.started Scenario.ini_twice)) (filePath c) = crc32 c.
Proof.
  apply (X2_nonzero_return_means_loaded (Scenario.started Scenario.ini_twice)).
  vm_compute. discriminate.
Defined.

(** X3.  [Tamer_ReadConfig] keeps the allocator's books balanced: what the
    allocator has left plus what the program holds (the configuration
    block and one node per stored rule) is the same after the call as
    before it.  Every node of a replaced list is freed, and so is the node
    allocated for the first missing name.  A whole service cycle keeps the
    balance as well. *)
Theorem X3_no_block_is_lost (m : Machine) :
  (heap (snd (Tamer_ReadConfig m)) + blocks_held (snd (Tamer_ReadConfig m)))%nat =
    (heap m + blocks_held m)%nat /\
  (heap (snd (Tamer_ServiceProcess m)) + blocks_held (snd (Tamer_ServiceProcess m)))%nat =
    (heap m + blocks_held m)%nat.
Proof.
  assert (R : (heap (snd (Tamer_ReadConfig m)) + blocks_held (snd (Tamer_ReadConfig m)))%nat =
              (heap m + blocks_held m)%nat).
  { destruct (ReadConfig_cases m)
      as [[_ R]|[(c0 & m0 & F & _ & R)|(c0 & m0 & c & m1 & F & L & R)]].
    - now rewrite R.
    - rewrite R. apply (first_run_accounting _ _ _ F).
    - destruct (first_run_accounting _ _ _ F) as (A0 & _).
      destruct (first_run_spec _ _ _ F) as (C0 & _).
      destruct (locate_ini_spec _ _ _ _ C0 L) as (C1 & _ & HP1 & _ & _ & _ & _ & PL & _).
      assert (A1 : (heap m1 + blocks_held m1)%nat = (heap m + blocks_held m)%nat).
      { rewrite <- A0. unfold blocks_held. now rewrite C1, C0, HP1, PL. }
      destruct R as [[_ R]|[(_ & _ & R)|(_ & _ & R)]]; rewrite R; cbn [snd].
      + exact A1.
      + exact A1.
      + destruct (reload_shape (Tamer_GetFileCRC (host m) (filePath c)) c
                    (log (EvFileRead (filePath c)) m1)) as (head & budget & tr' & E & A).
        rewrite E. rewrite <- A1. unfold blocks_held at 1. cbn.
        cbn [log heap] in A. unfold blocks_held. rewrite C1. lia. }
  split; [exact R|].
  unfold Tamer_ServiceProcess. destruct (Tamer_ReadConfig m) as [n m1]. cbn [snd] in R.
  destruct (n =? 0); [exact R|].
  destruct (config (gTamer m1)) as [c|] eqn:C; [|exact R].
  destruct (procList c) as [|r head] eqn:PL; [exact R|].
  cbn [snd]. pose proof (foreach_frame (r :: head) m1) as F. cbv zeta in F.
  destruct F as (Fg & Fh & _). unfold blocks_held in *. now rewrite Fg, Fh.
Qed.

(** A call that finds a stored path reads that path and keeps it. *)
Lemma ReadConfig_known_path (m : Machine) (c : Tamer_Config) :
  config (gTamer m) = Some c ->
  filePath c <> EmptyString ->
  file_reads (since m (snd (Tamer_ReadConfig m))) = [filePath c] /\
  exists c', config (gTamer (snd (Tamer_ReadConfig m))) = Some c' /\
             filePath c' = filePath c.
Proof.
  intros C P.
  destruct (ReadConfig_cases m) as [[F _]|[(c0 & m0 & F & L & _)|(c0 & m0 & c1 & m1 & F & L & R)]];
    rewrite (first_run_configured _ _ C) in F; try discriminate;
    inversion F; subst c0 m0; rewrite (locate_ini_known _ _ P) in L; try discriminate.
  inversion L; subst c1 m1.
  assert (S1 : since m (log (EvFileRead (filePath c)) m) = [EvFileRead (filePath c)])
    by now apply since_app.
  destruct R as [[_ R]|[(_ & _ & R)|(_ & _ & R)]]; rewrite R; cbn [snd].
  - rewrite S1. split; [reflexivity|]. exists c. now split.
  - rewrite S1. split; [reflexivity|]. exists c. now split.
  - pose proof (reload_frame (Tamer_GetFileCRC (host m) (filePath c)) c
                  (log (EvFileRead (filePath c)) m)) as RF. cbv zeta in RF.
    destruct RF as (_ & _ & _ & _ & _ & RG & _).
    split.
    + assert (G1 : grows m (log (EvFileRead (filePath c)) m))
        by now apply grows_app with (ev := [EvFileRead (filePath c)]).
      rewrite (since_trans _ _ _ G1 RG).
      now rewrite file_reads_app, S1, reload_no_file_read.
    + destruct (reload_shape (Tamer_GetFileCRC (host m) (filePath c)) c
                  (log (EvFileRead (filePath c)) m)) as (head & budget & tr' & E & _).
      rewrite E. eexists. split; reflexivity.
Qed.

(** X4.  The path of the configuration file is resolved once.  A call that
    finds a path stored in the configuration block reads that path and no
    other, whatever the service mode and the directories have become, and
    the path is still the stored one after the call, also when the call
    reloads. *)
Theorem X4_path_is_resolved_once (m : Machine) (c : Tamer_Config) :
  config (gTamer m) = Some c ->
  filePath c <> EmptyString ->
  file_reads (since m (snd (Tamer_ReadConfig m))) = [filePath c] /\
  exists c', config (gTamer (snd (Tamer_ReadConfig m))) = Some c' /\
             filePath c' = filePath c.
Proof. exact (ReadConfig_known_path m c). Qed.

Lemma X4_path_is_resolved_once_witness :
  let m := Scenario.started Scenario.ini_gap in
  let moved :=
    set_serviceMode false
      (set_host (mkHost None (Some "D:\elsewhere") (files (host m)) (processTable (host m))
                        (canOpen (host m)) (priorityClass (host m)) 7 true
                        (fullPathName (host m)) (scm (host m))) m) in
  file_reads (since moved (snd (Tamer_ReadConfig moved))) = [Scenario.ini_file] /\
  exists c', config (gTamer (snd (Tamer_ReadConfig moved))) = Some c' /\
             filePath c' = Scenario.ini_file.
Proof.
  cbv zeta.
  apply (X4_path_is_resolved_once _
           (mkConfig SRVC_TAME_SERVICE_DISPLAY_NAME SRVC_TAME_SERVICE_DESCRIPTION
                     Scenario.ini_file 500 150622600 [mkProc "foo.exe" 16384])).
  - vm_compute. reflexivity.
  - discriminate.
Defined.

Lemma substring_length_le (n : nat) (s : string) :
  (String.length (substring 0 n s) <= n)%nat.
Proof.
  revert s. induction n as [|n IH]; intros [|a s]; cbn [substring String.length]; try lia.
  specialize (IH s). lia.
Qed.

(** X5.  The first call, made with no configuration block yet.  With no
    memory for the block the call returns 0 and the global stays NULL.
    With a block but no directory (the directory call of the current mode
    returns 0) the call returns 0, leaves a zeroed block and reads no file.
    With a directory [d] the file read is [d\SrvcTame.ini], cut to at most
    [MAX_PATH - 1] characters; the Windows directory is used in service
    mode and the current directory otherwise. *)
Theorem X5_first_call_resolves_the_path (m : Machine) :
  config (gTamer m) = None ->
  let dir := if serviceMode (gTamer m)
             then windowsDirectory (host m) else currentDirectory (host m) in
  let m' := snd (Tamer_ReadConfig m) in
  (heap m = O -> Tamer_ReadConfig m = (0, m)) /\
  (forall n, heap m = S n -> dir = None \/ dir = Some EmptyString ->
     Tamer_ReadConfig m = (0, set_config config_zero (set_heap n m))) /\
  (forall n d, heap m = S n -> dir = Some d -> d <> EmptyString ->
     file_reads (since m m') = [snprintf MAX_PATH (d ++ "\" ++ SRVC_TAME_INI_FILE)] /\
     (String.length (snprintf MAX_PATH (d ++ "\" ++ SRVC_TAME_INI_FILE)) <= 259)%nat /\
     exists c, config (gTamer m') = Some c /\
               filePath c = snprintf MAX_PATH (d ++ "\" ++ SRVC_TAME_INI_FILE)).
Proof.
  intro C. cbv zeta. split; [|split].
  - intro H. unfold Tamer_ReadConfig, first_run. now rewrite C, H.
  - intros n H D. unfold Tamer_ReadConfig, first_run, locate_ini. rewrite C, H.
    cbn [config_zero filePath set_config set_heap set_gTamer gTamer host serviceMode].
    now destruct D as [-> | ->].
  - intros n d H D Hd.
    set (p := snprintf MAX_PATH (d ++ "\" ++ SRVC_TAME_INI_FILE)).
    assert (F : first_run m = Some (config_zero, set_config config_zero (set_heap n m)))
      by (unfold first_run; now rewrite C, H).
    assert (L : locate_ini config_zero (set_config config_zero (set_heap n m)) =
                Some (mkConfig EmptyString EmptyString p 0 0 [],
                      set_config (mkConfig EmptyString EmptyString p 0 0 [])
                                 (set_config config_zero (set_heap n m)))).
    { unfold locate_ini.
      cbn [config_zero filePath set_config set_heap set_gTamer gTamer host serviceMode
           serviceDispalyName serviceDescription interval crc32 procList].
      rewrite D. destruct d as [|a d]; [contradiction|reflexivity]. }
    split; [|split; [apply substring_length_le|]].
    + pose proof (ReadConfig_known_path
                    (set_config (mkConfig EmptyString EmptyString p 0 0 [])
                                (set_config config_zero (set_heap n m)))
                    (mkConfig EmptyString EmptyString p 0 0 []) eq_refl) as P4.
      cbn [filePath] in P4.
      assert (Hp : p <> EmptyString) by exact (proj1 (locate_ini_path _ _ _ _ L)).
      destruct (P4 Hp) as (P4r & _).
      assert (E : Tamer_ReadConfig m =
                  Tamer_ReadConfig (set_config (mkConfig EmptyString EmptyString p 0 0 [])
                                               (set_config config_zero (set_heap n m)))).
      { unfold Tamer_ReadConfig at 1. rewrite F, L.
        unfold Tamer_ReadConfig, first_run.
        cbn [set_config set_gTamer gTamer config].
        now rewrite (locate_ini_known (mkConfig EmptyString EmptyString p 0 0 []) _ Hp). }
      rewrite E.
      rewrite (since_same_trace m
                 (set_config (mkConfig EmptyString EmptyString p 0 0 [])
                             (set_config config_zero (set_heap n m))) _ eq_refl).
      exact P4r.
    + destruct (ReadConfig_cases m)
        as [[F' _]|[(c0 & m0 & F' & L' & _)|(c0 & m0 & c1 & m1 & F' & L' & R)]];
        rewrite F in F'; try discriminate; inversion F'; subst c0 m0;
        rewrite L in L'; try discriminate.
      inversion L'; subst c1 m1. cbn [filePath] in R.
      destruct R as [[_ R]|[(_ & _ & R)|(_ & _ & R)]]; rewrite R; cbn [snd].
      * eexists. split; reflexivity.
      * eexists. split; reflexivity.
      * match goal with
        | |- context [reload ?crc ?c ?m2] =>
            destruct (reload_shape crc c m2) as (head & budget & tr' & E & _)
        end.
        rewrite E. eexists. split; reflexivity.
Qed.

Lemma X5_first_call_witness :
  let m := set_serviceMode true (boot (Scenario.pc (Some Scenario.ini_gap)) 8) in
  let dir := if serviceMode (gTamer m)
             then windowsDirectory (host m) else currentDirectory (host m) in
  let m' := snd (Tamer_ReadConfig m) in
  (heap m = O -> Tamer_ReadConfig m = (0, m)) /\
  (forall n, heap m = S n -> dir = None \/ dir = Some EmptyString ->
     Tamer_ReadConfig m = (0, set_config config_zero (set_heap n m))) /\
  (forall n d, heap m = S n -> dir = Some d -> d <> EmptyString ->
     file_reads (since m m') = [snprintf MAX_PATH (d ++ "\" ++ SRVC_TAME_INI_FILE)] /\
     (String.length (snprintf MAX_PATH (d ++ "\" ++ SRVC_TAME_INI_FILE)) <= 259)%nat /\
     exists c, config (gTamer m') = Some c /\
               filePath c = snprintf MAX_PATH (d ++ "\" ++ SRVC_TAME_INI_FILE)).
Proof.
  cbv zeta.
  apply (X5_first_call_resolves_the_path
           (set_serviceMode true (boot (Scenario.pc (Some Scenario.ini_gap)) 8))).
  reflexivity.
Defined.

Lemma reload_rules (crc : Z) (c : Tamer_Config) (m : Machine) :
  exists count,
    current_procList (reload crc c m) =
      map (rule_at (host m) (filePath c)) (indices 1 count) /\
    heap (reload crc c m) = (heap m + List.length (procList c) - count)%nat /\
    (forall i, In i (indices 1 count) -> name_defined (host m) (filePath c) i = true) /\
    (count <= heap m + List.length (procList c))%nat /\
    (count = (heap m + List.length (procList c))%nat \/
     name_defined (host m) (filePath c) (1 + Z.of_nat count) = false).
Proof.
  unfold reload, current_procList. cbv zeta.
  match goal with
  | |- context [load_processes ?b ?h ?f ?i ?hd ?tr] =>
      destruct (load_processes_shape h f b i hd tr) as (count & Hl & Hdef & Hle & Hend);
      destruct (load_processes b h f i hd tr) as [[head budget] tr']
  end.
  cbn [fst app] in Hl. inversion Hl; subst. exists count. cbn. now repeat split.
Qed.

(** X6.  What a reload installs, in every case.  The stored list is the
    rules of the indices 1 .. [count], in order, where all these names are
    defined and the run ends for one of two reasons: the next name is
    missing, or the allocator has no node left ([count] nodes were all it
    could give, the old list's nodes included).  The value returned is
    [count], and the allocator is left with what it had minus [count]. *)
Theorem X6_reload_installs_longest_run (m : Machine) (file content : string) :
  ini_path m = Some file ->
  files (host m) file = Some content ->
  Tamer_CRC2 (list_byte_of_string content) <> 0 ->
  Tamer_CRC2 (list_byte_of_string content) <> stored_crc m ->
  exists count,
    fst (Tamer_ReadConfig m) = Z.of_nat count /\
    current_procList (snd (Tamer_ReadConfig m)) =
      map (rule_at (host m) file) (indices 1 count) /\
    (forall i, In i (indices 1 count) -> name_defined (host m) file i = true) /\
    (count <= loader_budget m)%nat /\
    (count = loader_budget m \/ name_defined (host m) file (1 + Z.of_nat count) = false) /\
    heap (snd (Tamer_ReadConfig m)) = (loader_budget m - count)%nat.
Proof.
  intros P Hfile NZ Hchg.
  destruct (ReadConfig_changed m file content P Hfile NZ Hchg)
    as (c & m2 & R & Hp & Hh & _ & Hb & _).
  destruct (reload_rules (Tamer_CRC2 (list_byte_of_string content)) c m2)
    as (count & Hl & Hheap & Hdef & Hle & Hend).
  rewrite Hp, Hh, Hb in *. exists count. rewrite R. cbn [fst snd].
  rewrite Hl. unfold LL_COUNT. rewrite length_map, indices_length.
  now repeat split.
Qed.

Lemma X6_reload_installs_witness :
  let m := set_serviceMode true (boot (Scenario.pc (Some Scenario.ini_twice)) 2) in
  loader_budget m = 1%nat /\
  name_defined (host m) Scenario.ini_file 2 = true /\
  exists count,
    fst (Tamer_ReadConfig m) = Z.of_nat count /\
    current_procList (snd (Tamer_ReadConfig m)) =
      map (rule_at (host m) Scenario.ini_file) (indices 1 count) /\
    (forall i, In i (indices 1 count) -> name_defined (host m) Scenario.ini_file i = true) /\
    (count <= loader_budget m)%nat /\
    (count = loader_budget m \/
     name_defined (host m) Scenario.ini_file (1 + Z.of_nat count) = false) /\
    heap (snd (Tamer_ReadConfig m)) = (loader_budget m - count)%nat.
Proof.
  cbv zeta.
  split; [vm_compute; reflexivity|]. split; [vm_compute; reflexivity|].
  apply (X6_reload_installs_longest_run
           (set_serviceMode true (boot (Scenario.pc (Some Scenario.ini_twice)) 2))
           Scenario.ini_file Scenario.ini_twice).
  - vm_compute. reflexivity.
  - vm_compute. reflexivity.
  - vm_compute. discriminate.
  - vm_compute. discriminate.
Defined.

Lemma GetPrivateProfileString_missing (h : Host) (file content app key def : string)
    (nSize : Z) :
  files h file = Some content ->
  profile_lookup content app key = None ->
  GetPrivateProfileString h app key def nSize file = substring 0 (Z.to_nat (nSize - 1)) def.
Proof. intros F L. unfold GetPrivateProfileString. now rewrite F, L. Qed.

Lemma GetPrivateProfileInt_missing (h : Host) (file content app key : string) (def : Z) :
  files h file = Some content ->
  profile_lookup content app key = None ->
  GetPrivateProfileInt h app key def file = def.
Proof. intros F L. unfold GetPrivateProfileInt. now rewrite F, L. Qed.

(** X7.  Keys the source does not have take their defaults.  After a reload
    of a source without [DisplayName], [Description] and [Interval] in
    [[Service]], the stored display name is "Process Tamer", the stored
    description is "Windows process taming service" and the stored
    interval is 10000 ms; and the rule of an index whose [_Prio] key is
    missing has priority 0. *)
Theorem X7_missing_keys_take_defaults (m : Machine) (file content : string) :
  ini_path m = Some file ->
  files (host m) file = Some content ->
  Tamer_CRC2 (list_byte_of_string content) <> 0 ->
  Tamer_CRC2 (list_byte_of_string content) <> stored_crc m ->
  profile_lookup content "Service" "DisplayName" = None ->
  profile_lookup content "Service" "Description" = None ->
  profile_lookup content "Service" "Interval" = None ->
  (exists c,
     config (gTamer (snd (Tamer_ReadConfig m))) = Some c /\
     serviceDispalyName c = "Process Tamer" /\
     serviceDescription c = "Windows process taming service" /\
     interval c = 10000) /\
  (forall i, profile_lookup content "Processes" (prio_key i) = None ->
             priority (rule_at (host m) file i) = 0).
Proof.
  intros P Hfile NZ Hchg L1 L2 L3. split.
  - destruct (ReadConfig_changed m file content P Hfile NZ Hchg)
      as (c & m2 & R & Hp & Hh & _).
    destruct (reload_shape (Tamer_CRC2 (list_byte_of_string content)) c m2)
      as (head & budget & tr' & E & _).
    rewrite R, E, Hp, Hh. cbn [snd gTamer config].
    eexists. split; [reflexivity|].
    cbn [serviceDispalyName serviceDescription interval].
    rewrite !(GetPrivateProfileString_missing _ _ _ _ _ _ _ Hfile) by assumption.
    rewrite (GetPrivateProfileInt_missing _ _ _ _ _ _ Hfile L3).
    repeat split.
  - intros i Li. unfold rule_at. cbn [priority].
    now rewrite (GetPrivateProfileInt_missing _ _ _ _ _ _ Hfile Li).
Qed.

Lemma X7_missing_keys_witness :
  let m := set_serviceMode true (boot (Scenario.pc (Some Scenario.ini_twice)) 8) in
  (exists c,
     config (gTamer (snd (Tamer_ReadConfig m))) = Some c /\
     serviceDispalyName c = "Process Tamer" /\
     serviceDescription c = "Windows process taming service" /\
     interval c = 10000) /\
  (forall i, profile_lookup Scenario.ini_twice "Processes" (prio_key i) = None ->
             priority (rule_at (host m) Scenario.ini_file i) = 0).
Proof.
  cbv zeta.
  apply (X7_missing_keys_take_defaults
           (set_serviceMode true (boot (Scenario.pc (Some Scenario.ini_twice)) 8))
           Scenario.ini_file Scenario.ini_twice);
    vm_compute; try reflexivity; discriminate.
Defined.

(** ** A pass, as a whole *)

Lemma tamed_by_some_frame (head : list Tamer_Proc) (h h' : Host) (pid : Z) :
  processTable h' = processTable h -> canOpen h' = canOpen h ->
  tamed_by_some head h' pid = tamed_by_some head h pid.
Proof.
  intros H1 H2. unfold tamed_by_some.
  induction head as [|proc head IH]; [reflexivity|].
  cbn [existsb]. now rewrite IH, (tamed_frame proc h h' pid H1 H2).
Qed.

Lemma foreach_priority (head : list Tamer_Proc) (m : Machine) (pid : Z) :
  priorityClass (host (LL_FOREACH head Tamer_SetProcessPriority m)) pid =
  if tamed_by_some head (host m) pid then IDLE_PRIORITY_CLASS
  else priorityClass (host m) pid.
Proof.
  revert m. induction head as [|r head IH]; intro m; [reflexivity|].
  rewrite foreach_cons, IH, SetProcessPriority_priority.
  rewrite (tamed_by_some_frame head (host m)) by apply (SetProcessPriority_frame r m).
  unfold tamed_by_some at 2. cbn [existsb]. fold (tamed_by_some head (host m) pid).
  destruct (tamed r (host m) (processTable (host m)) pid);
    now destruct (tamed_by_some head (host m) pid).
Qed.

Lemma walk_snapshot_sets_tamed (proc : Tamer_Proc) (snapshot : list PROCESSENTRY32)
    (m : Machine) (pid cls : Z) :
  In (pid, cls) (set_calls (since m (walk_snapshot proc snapshot m))) ->
  tamed proc (host m) snapshot pid = true.
Proof.
  revert m. induction snapshot as [|e0 rest IH]; intros m Hin.
  - cbn [walk_snapshot] in Hin. now rewrite since_refl in Hin.
  - assert (Hsplit : tamed proc (host m) (e0 :: rest) pid =
                     tamed proc (host m) [e0] pid || tamed proc (host m) rest pid)
      by (unfold tamed; cbn [existsb]; now rewrite orb_false_r).
    rewrite Hsplit. apply orb_true_iff.
    rewrite walk_snapshot_since, set_calls_app in Hin.
    apply in_app_or in Hin. destruct Hin as [Hin|Hin].
    + left. rewrite entry_events_sets in Hin.
      destruct (tamed proc (host m) [e0] (th32ProcessID e0)) eqn:T; [|easy].
      destruct (negb _); [|easy].
      cbn in Hin. destruct Hin as [Heq|[]]. inversion Heq; subst. exact T.
    + right. apply IH in Hin.
      rewrite <- (tamed_canOpen proc (host m) (host (scan_entry proc m e0)) rest pid);
        [exact Hin|apply (scan_entry_frame proc m e0)].
Qed.

Lemma foreach_sets_tamed (head : list Tamer_Proc) (m : Machine) (pid cls : Z) :
  In (pid, cls) (set_calls (since m (LL_FOREACH head Tamer_SetProcessPriority m))) ->
  tamed_by_some head (host m) pid = true.
Proof.
  revert m. induction head as [|r head IH]; intros m Hin.
  - cbn [LL_FOREACH fold_left] in Hin. now rewrite since_refl in Hin.
  - unfold tamed_by_some. cbn [existsb]. apply orb_true_iff.
    rewrite foreach_since, set_calls_app in Hin. apply in_app_or in Hin.
    destruct Hin as [Hin|Hin].
    + left. rewrite SetProcessPriority_since in Hin. cbn [set_calls] in Hin.
      exact (walk_snapshot_sets_tamed r (processTable (host m)) (log EvSnapshot m) pid cls Hin).
    + right. apply IH in Hin.
      rewrite (tamed_by_some_frame head (host m)) in Hin
        by apply (SetProcessPriority_frame r m).
      exact Hin.
Qed.

(** On a host where every process the rules get hold of is idle, a pass
    sets nothing and leaves every priority class as it is. *)
Lemma foreach_settled (head : list Tamer_Proc) (m : Machine) :
  (forall pid, tamed_by_some head (host m) pid = true ->
               priorityClass (host m) pid = IDLE_PRIORITY_CLASS) ->
  set_calls (since m (LL_FOREACH head Tamer_SetProcessPriority m)) = [] /\
  forall pid, priorityClass (host (LL_FOREACH head Tamer_SetProcessPriority m)) pid =
              priorityClass (host m) pid.
Proof.
  intro Hidle. split.
  - destruct (set_calls _) as [|[pid cls] l] eqn:E; [reflexivity|exfalso].
    assert (Hin : In (pid, cls)
                     (set_calls (since m (LL_FOREACH head Tamer_SetProcessPriority m))))
      by (rewrite E; now left).
    pose proof (foreach_sets_tamed _ _ _ _ Hin) as T.
    apply foreach_sets_idle in Hin. destruct Hin as (_ & Hne & _).
    now apply Hne, Hidle.
  - intro pid. rewrite foreach_priority.
    destruct (tamed_by_some head (host m) pid) eqn:T; [|reflexivity].
    symmetry. now apply Hidle.
Qed.

Lemma foreach_settles (head : list Tamer_Proc) (m : Machine) (pid : Z) :
  tamed_by_some head (host (LL_FOREACH head Tamer_SetProcessPriority m)) pid = true ->
  priorityClass (host (LL_FOREACH head Tamer_SetProcessPriority m)) pid = IDLE_PRIORITY_CLASS.
Proof.
  intro T. rewrite (tamed_by_some_frame head (host m)) in T by apply (foreach_frame head m).
  now rewrite foreach_priority, T.
Qed.

(** X8.  A pass changes priority classes and nothing else, and only those
    of processes it gets hold of.  After the pass a process is idle if
    some rule's name matches a snapshot entry of that process and the
    process can be opened, and has the class it had otherwise.  Every
    [OpenProcess] call of the pass is for a snapshot entry whose name
    matches a rule, so a process whose image name matches no rule is
    neither opened nor changed.  The globals, the allocator, the process
    table and the files are as they were. *)
Theorem X8_pass_touches_only_matching_processes (head : list Tamer_Proc) (m : Machine) :
  let m' := LL_FOREACH head Tamer_SetProcessPriority m in
  (forall pid, priorityClass (host m') pid =
               if tamed_by_some head (host m) pid then IDLE_PRIORITY_CLASS
               else priorityClass (host m) pid) /\
  (forall pid opened, In (pid, opened) (open_attempts (since m m')) ->
     exists proc pEntry,
       In proc head /\ In pEntry (processTable (host m)) /\
       th32ProcessID pEntry = pid /\
       _stricmp (szExeFile pEntry) (procName proc) = 0) /\
  gTamer m' = gTamer m /\ heap m' = heap m /\
  processTable (host m') = processTable (host m) /\
  canOpen (host m') = canOpen (host m) /\
  files (host m') = files (host m).
Proof.
  cbv zeta. split; [intro pid; apply foreach_priority|]. split.
  - intros pid opened Hin. rewrite foreach_attempts in Hin.
    apply in_flat_map in Hin. destruct Hin as (proc & Hproc & Hin).
    unfold expected_attempts in Hin. apply in_map_iff in Hin.
    destruct Hin as (pEntry & Heq & Hin). apply filter_In in Hin.
    destruct Hin as [Hin Hm]. inversion Heq; subst.
    exists proc, pEntry. repeat split; try assumption.
    unfold matches in Hm. now apply Z.eqb_eq.
  - pose proof (foreach_frame head m) as F. cbv zeta in F. tauto.
Qed.

(** X9.  Enforcement is idempotent.  A second pass over the same rules,
    right after the first, calls [SetPriorityClass] on no process and
    leaves every priority class as the first pass left it; it still opens
    the same processes as the first. *)
Theorem X9_second_pass_sets_nothing (head : list Tamer_Proc) (m : Machine) :
  let m1 := LL_FOREACH head Tamer_SetProcessPriority m in
  let m2 := LL_FOREACH head Tamer_SetProcessPriority m1 in
  set_calls (since m1 m2) = [] /\
  (forall pid, priorityClass (host m2) pid = priorityClass (host m1) pid) /\
  open_attempts (since m1 m2) = open_attempts (since m m1).
Proof.
  cbv zeta.
  destruct (foreach_settled head (LL_FOREACH head Tamer_SetProcessPriority m)
              (foreach_settles head m)) as [H1 H2].
  split; [exact H1|]. split; [exact H2|].
  rewrite !foreach_attempts. apply flat_map_ext. intro proc.
  apply expected_attempts_frame; apply (foreach_frame head m).
Qed.

(** ** Cycles *)

(** A cycle is its read, followed by a pass when the read returned a count. *)
Lemma ServiceProcess_spec (m : Machine) :
  Tamer_ServiceProcess m =
  if fst (Tamer_ReadConfig m) =? 0
  then (false, snd (Tamer_ReadConfig m))
  else (true,
        LL_FOREACH (current_procList (snd (Tamer_ReadConfig m)))
                   Tamer_SetProcessPriority (snd (Tamer_ReadConfig m))).
Proof.
  destruct (fst (Tamer_ReadConfig m) =? 0) eqn:E.
  - unfold Tamer_ServiceProcess. destruct (Tamer_ReadConfig m) as [n m1].
    cbn [fst snd] in *. now rewrite E.
  - apply Z.eqb_neq in E.
    destruct (ReadConfig_nonzero m E) as (c & C & _ & PL & _).
    assert (Hl : current_procList (snd (Tamer_ReadConfig m)) = procList c)
      by (unfold current_procList; now rewrite C).
    rewrite Hl. destruct (procList c) as [|r head] eqn:P; [contradiction|].
    now apply ServiceProcess_enforces.
Qed.

(** X10.  A cycle enforces exactly when its read returns a count other
    than 0, and then it walks the list the read left in the globals; the
    second guard of [Tamer_ServiceProcess] (no configuration block, or an
    empty list) never stops a cycle that got past the first. *)
Theorem X10_cycle_enforces_iff_read_succeeds (m : Machine) :
  Tamer_ServiceProcess m =
  if fst (Tamer_ReadConfig m) =? 0
  then (false, snd (Tamer_ReadConfig m))
  else (true,
        LL_FOREACH (current_procList (snd (Tamer_ReadConfig m)))
                   Tamer_SetProcessPriority (snd (Tamer_ReadConfig m))).
Proof. exact (ServiceProcess_spec m). Qed.

Lemma GetFileCRC_files (h h' : Host) (fileName : string) :
  files h' = files h -> Tamer_GetFileCRC h' fileName = Tamer_GetFileCRC h fileName.
Proof. intro H. unfold Tamer_GetFileCRC. now rewrite H. Qed.

(** X11.  Two cycles in a row on an unchanged host.  If a cycle enforced,
    the cycle right after it reads the file, finds the digest unchanged,
    reads nothing from the profile, enforces the same list, and calls
    [SetPriorityClass] on no process: every priority class stays as the
    first cycle left it. *)
Theorem X11_next_cycle_changes_nothing (m : Machine) :
  fst (Tamer_ServiceProcess m) = true ->
  let m1 := snd (Tamer_ServiceProcess m) in
  let m2 := snd (Tamer_ServiceProcess m1) in
  fst (Tamer_ServiceProcess m1) = true /\
  gTamer m2 = gTamer m1 /\
  heap m2 = heap m1 /\
  set_calls (since m1 m2) = [] /\
  (forall pid, priorityClass (host m2) pid = priorityClass (host m1) pid) /\
  filter is_config_read (since m1 m2) =
    match config (gTamer m1) with
    | Some c => [EvFileRead (filePath c)]
    | None => []
    end.
Proof.
  intro Hok. cbv zeta.
  assert (E : fst (Tamer_ReadConfig m) <> 0).
  { intro E0. rewrite ServiceProcess_spec, E0 in Hok.
    cbn in Hok. discriminate Hok. }
  destruct (ReadConfig_nonzero m E) as (c & C & Hn & PL & P & NZ & D).
  pose proof (ReadConfig_frame m) as RF. cbv zeta in RF. destruct RF as (RH & _).
  assert (E1 : Tamer_ServiceProcess m =
               (true, LL_FOREACH (procList c) Tamer_SetProcessPriority
                                 (snd (Tamer_ReadConfig m)))).
  { rewrite ServiceProcess_spec. apply Z.eqb_neq in E. rewrite E.
    unfold current_procList. now rewrite C. }
  rewrite E1. cbn [fst snd]. clear Hok E1.
  set (m1r := snd (Tamer_ReadConfig m)) in *.
  set (m1 := LL_FOREACH (procList c) Tamer_SetProcessPriority m1r).
  pose proof (foreach_frame (procList c) m1r) as F. cbv zeta in F.
  destruct F as (Fg & Fh & Ft & Fo & Ff & _). fold m1 in Fg, Fh, Ft, Fo, Ff.
  assert (C1 : config (gTamer m1) = Some c) by now rewrite Fg.
  assert (D1 : Tamer_GetFileCRC (host m1) (filePath c) = crc32 c).
  { rewrite (GetFileCRC_files (host m1r)) by exact Ff. now rewrite RH. }
  rewrite ServiceProcess_spec.
  rewrite (ReadConfig_unchanged m1 c C1 P D1 NZ). cbn [fst snd].
  assert (Hc : (LL_COUNT (procList c) =? 0) = false).
  { apply Z.eqb_neq. unfold LL_COUNT. destruct (procList c); [contradiction|].
    cbn [List.length]. lia. }
  rewrite Hc. cbn [fst snd]. unfold current_procList. cbn [log gTamer]. rewrite C1.
  set (m1l := log (EvFileRead (filePath c)) m1).
  assert (G1 : grows m1 m1l) by now apply grows_app with (ev := [EvFileRead (filePath c)]).
  assert (S1 : since m1 m1l = [EvFileRead (filePath c)]) by now apply since_app.
  pose proof (foreach_grows (procList c) m1l) as G2.
  pose proof (foreach_frame (procList c) m1l) as F2. cbv zeta in F2.
  destruct F2 as (F2g & F2h & _).
  destruct (foreach_settled (procList c) m1l) as [Hset Hprio].
  { intros pid T. change (host m1l) with (host m1) in *.
    now apply foreach_settles. }
  split; [reflexivity|]. split; [exact F2g|]. split; [exact F2h|].
  rewrite (since_trans _ _ _ G1 G2), S1. split; [|split].
  - rewrite set_calls_app, Hset. reflexivity.
  - exact Hprio.
  - rewrite filter_app. cbn [filter is_config_read].
    assert (Hq : forall head m0,
               filter is_config_read
                 (since m0 (LL_FOREACH head Tamer_SetProcessPriority m0)) = []).
    { clear. intro head. induction head as [|r head IH]; intro m0.
      - cbn [LL_FOREACH fold_left]. now rewrite since_refl.
      - rewrite foreach_since, filter_app, IH, app_nil_r, SetProcessPriority_since.
        cbn [filter is_config_read].
        generalize (log EvSnapshot m0). generalize (processTable (host m0)).
        intro snapshot. induction snapshot as [|e rest IHs]; intro m1.
        + cbn [walk_snapshot]. now rewrite since_refl.
        + rewrite walk_snapshot_since, filter_app, IHs, app_nil_r.
          unfold entry_events.
          destruct (_stricmp _ _ =? 0); [|reflexivity].
          destruct (canOpen (host m1) (th32ProcessID e)); [|reflexivity].
          now destruct (priorityClass (host m1) (th32ProcessID e) =? IDLE_PRIORITY_CLASS). }
    rewrite Hq. reflexivity.
Qed.

Lemma X11_next_cycle_witness :
  let m := Scenario.started Scenario.ini_twice in
  let m1 := snd (Tamer_ServiceProcess m) in
  let m2 := snd (Tamer_ServiceProcess m1) in
  set_calls (since m m1) = [(100, 64); (104, 64)] /\
  fst (Tamer_ServiceProcess m1) = true /\
  gTamer m2 = gTamer m1 /\
  heap m2 = heap m1 /\
  set_calls (since m1 m2) = [] /\
  (forall pid, priorityClass (host m2) pid = priorityClass (host m1) pid) /\
  filter is_config_read (since m1 m2) =
    match config (gTamer m1) with
    | Some c => [EvFileRead (filePath c)]
    | None => []
    end.
Proof.
  cbv zeta. split; [vm_compute; reflexivity|].
  apply (X11_next_cycle_changes_nothing (Scenario.started Scenario.ini_twice)).
  vm_compute. reflexivity.
Defined.

(** ** Stopping, and the ways [main] ends without a cycle *)

Lemma service_loop_not_running (ticks : list Tick) (m : Machine) :
  dwCurrentState (ServiceStatus (gTamer m)) <> SERVICE_RUNNING ->
  service_loop ticks m = (Returned true, m).
Proof.
  intro H. apply Z.eqb_neq in H. destruct ticks; cbn [service_loop]; now rewrite H.
Qed.

(** A sleep during which a stop request arrives, in service mode. *)
Lemma Sleep_stopped (ms : Z) (t : Tick) (m : Machine) :
  is_stop_request t = true ->
  serviceMode (gTamer m) = true ->
  dwCurrentState (ServiceStatus (gTamer (Sleep ms t m))) = SERVICE_STOPPED /\
  config (gTamer (Sleep ms t m)) = config (gTamer m) /\
  trace (Sleep ms t m) = trace m ++ [EvSleep ms].
Proof.
  unfold is_stop_request, Sleep, Tamer_ServiceControl. cbv zeta.
  destruct (control t) as [request|]; [|discriminate].
  intros H Hmode. cbn [set_host log gTamer]. rewrite Hmode, H. cbn [negb].
  now repeat split.
Qed.

(** The service loop ends at the first stop request: the cycle in whose
    sleep the request arrives is the last one. *)
Lemma service_loop_stops (calm : list Tick) (t : Tick) (later : list Tick) :
  forall m : Machine,
  dwCurrentState (ServiceStatus (gTamer m)) = SERVICE_RUNNING ->
  serviceMode (gTamer m) = true ->
  config (gTamer m) <> None ->
  Forall (fun t => is_stop_request t = false) calm ->
  is_stop_request t = true ->
  let m' := snd (service_loop (calm ++ t :: later) m) in
  fst (service_loop (calm ++ t :: later) m) = Returned true /\
  grows m m' /\
  sleeps (since m m') = S (List.length calm) /\
  dwCurrentState (ServiceStatus (gTamer m')) = SERVICE_STOPPED.
Proof.
  induction calm as [|q calm IH]; intros m Hrun Hmode Hcfg Hcalm Hstop; cbv zeta.
  - cbn [app service_loop]. rewrite Hrun. cbn [Z.eqb Pos.eqb SERVICE_RUNNING].
    pose proof (ServiceProcess_frame m) as P. cbv zeta in P.
    destruct P as (_ & PM & PC & PG & Pz & _). specialize (PC Hcfg).
    destruct (config (gTamer (snd (Tamer_ServiceProcess m)))) as [c|] eqn:C; [|easy].
    destruct (Sleep_stopped (interval c) t (snd (Tamer_ServiceProcess m)) Hstop)
      as (S1 & _ & S3); [now rewrite PM|].
    rewrite service_loop_not_running by (rewrite S1; discriminate).
    cbn [fst snd]. split; [reflexivity|].
    assert (SG : grows (snd (Tamer_ServiceProcess m))
                       (Sleep (interval c) t (snd (Tamer_ServiceProcess m))))
      by (eapply grows_app, S3).
    split; [eapply grows_trans; eassumption|]. split; [|exact S1].
    rewrite (since_trans _ _ _ PG SG), sleeps_app, Pz, (since_app _ _ _ S3). reflexivity.
  - cbn [app service_loop]. rewrite Hrun. cbn [Z.eqb Pos.eqb SERVICE_RUNNING].
    pose proof (ServiceProcess_frame m) as P. cbv zeta in P.
    destruct P as (PS & PM & PC & PG & Pz & _). specialize (PC Hcfg).
    destruct (config (gTamer (snd (Tamer_ServiceProcess m)))) as [c|] eqn:C; [|easy].
    inversion Hcalm as [|q' calm' Hq Hrest]; subst.
    destruct (Sleep_undisturbed (interval c) q (snd (Tamer_ServiceProcess m)) Hq)
      as [Sg St].
    assert (SG : grows (snd (Tamer_ServiceProcess m))
                       (Sleep (interval c) q (snd (Tamer_ServiceProcess m))))
      by (eapply grows_app, St).
    specialize (IH (Sleep (interval c) q (snd (Tamer_ServiceProcess m)))).
    cbv zeta in IH. destruct IH as (R1 & R2 & R3 & R4);
      [now rewrite Sg, PS|now rewrite Sg, PM|rewrite Sg, C; discriminate
      |exact Hrest|exact Hstop|].
    split; [exact R1|]. split; [|split; [|exact R4]].
    + eapply grows_trans; [exact PG|]. eapply grows_trans; [exact SG|exact R2].
    + rewrite (since_trans m _ _ PG (grows_trans _ _ _ SG R2)).
      rewrite (since_trans _ _ _ SG R2).
      rewrite !sleeps_app, Pz, R3, (since_app _ _ _ St). reflexivity.
Qed.

(** X12.  A stop or shutdown request ends the service, and it does so at
    the next loop test: in a run where the first such request arrives
    during the sleep of cycle [k] (the ticks before it carry none),
    [main] has slept exactly [k] times, the later ticks never run, the
    service status is [SERVICE_STOPPED] and [main] returns
    [EXIT_SUCCESS]. *)
Theorem X12_stop_request_ends_service
    (argv : list string) (calm : list Tick) (t : Tick) (later : list Tick) (m0 : Machine) :
  fst (Tamer_ReadConfig (set_serviceMode SRVC_TAME_RUN_AS_SERVICE m0)) <> 0 ->
  List.length argv <> 2%nat ->
  startedBySCM (host m0) = true ->
  ctrlHandle (host m0) <> 0 ->
  Forall (fun t => is_stop_request t = false) calm ->
  is_stop_request t = true ->
  let m' := snd (main argv (calm ++ t :: later) m0) in
  fst (main argv (calm ++ t :: later) m0) = Returned EXIT_SUCCESS /\
  sleeps (since m0 m') = S (List.length calm) /\
  dwCurrentState (ServiceStatus (gTamer m')) = SERVICE_STOPPED.
Proof.
  intros Hread Hargs Hscm Hctrl Hcalm Hstop. cbv zeta. unfold main. cbv zeta.
  pose proof (ReadConfig_frame (set_serviceMode SRVC_TAME_RUN_AS_SERVICE m0)) as R.
  cbv zeta in R. destruct R as (RH & _ & _ & RSM & _ & RC & RG & Rq).
  specialize (RC Hread).
  destruct (config_reads_quiet _ Rq) as (_ & Rz & _).
  destruct (Tamer_ReadConfig (set_serviceMode SRVC_TAME_RUN_AS_SERVICE m0)) as [n m1].
  cbn [fst snd] in *. apply Z.eqb_neq in Hread. rewrite Hread.
  cbn [set_serviceMode set_gTamer gTamer host serviceMode SRVC_TAME_RUN_AS_SERVICE] in RH, RSM.
  assert (Hsm : exists m2,
             Tamer_ServiceMain (calm ++ t :: later) m1 = (Returned true, m2) /\
             grows m1 m2 /\ sleeps (since m1 m2) = S (List.length calm) /\
             dwCurrentState (ServiceStatus (gTamer m2)) = SERVICE_STOPPED).
  { unfold Tamer_ServiceMain, Tamer_ServiceInit. rewrite RSM. cbv zeta.
    cbn [negb set_hStatus set_ServiceStatus set_gTamer gTamer host hStatus serviceMode
         ServiceStatus config].
    rewrite RH. apply Z.eqb_neq in Hctrl. rewrite Hctrl, RSM. cbn [negb].
    match goal with
    | |- context [service_loop _ ?m3] =>
        pose proof (service_loop_stops calm t later m3 eq_refl RSM RC Hcalm Hstop) as L
    end.
    cbv zeta in L. destruct L as (L1 & L2 & L3 & L4).
    match goal with
    | |- context [service_loop ?tk ?m3] =>
        destruct (service_loop tk m3) as [o m2]
    end.
    cbn [fst snd] in *. subst o. exists m2. now repeat split. }
  destruct Hsm as (m2 & Hsm & G2 & Z2 & St).
  assert (Hmain :
    (if serviceMode (gTamer m1)
     then if startedBySCM (host m1)
          then match Tamer_ServiceMain (calm ++ t :: later) m1 with
               | (Returned _, m2) => (Returned EXIT_SUCCESS, m2)
               | (Running, m2) => (Running, m2)
               | (Fault, m2) => (Fault, m2)
               end
          else (Returned EXIT_SUCCESS, m1)
     else console_loop (calm ++ t :: later) m1) = (Returned EXIT_SUCCESS, m2))
    by now rewrite RSM, RH, Hscm, Hsm.
  assert (Hs : sleeps (since m0 m2) = S (List.length calm)).
  { rewrite (since_same_trace m0 (set_serviceMode SRVC_TAME_RUN_AS_SERVICE m0))
      by reflexivity.
    rewrite (since_trans _ _ _ RG G2), sleeps_app, Rz, Z2. reflexivity. }
  destruct argv as [|a0 [|a1 [|a2 argv]]];
    try (cbn [List.length] in Hargs; congruence);
    rewrite Hmain; now repeat split.
Qed.

Lemma X12_stop_request_witness :
  let m0 := boot (Scenario.pc (Some Scenario.ini_gap)) 8 in
  let stop := mkTick (fun h => h) (Some SERVICE_CONTROL_STOP) in
  let ticks := [Scenario.quiet; Scenario.interrogate] ++ stop :: [Scenario.quiet; Scenario.quiet] in
  let m' := snd (main ["SrvcTame.exe"] ticks m0) in
  fst (main ["SrvcTame.exe"] ticks m0) = Returned EXIT_SUCCESS /\
  sleeps (since m0 m') = 3%nat /\
  dwCurrentState (ServiceStatus (gTamer m')) = SERVICE_STOPPED.
Proof.
  cbv zeta.
  apply (X12_stop_request_ends_service
           ["SrvcTame.exe"] [Scenario.quiet; Scenario.interrogate]
           (mkTick (fun h => h) (Some SERVICE_CONTROL_STOP))
           [Scenario.quiet; Scenario.quiet]
           (boot (Scenario.pc (Some Scenario.ini_gap)) 8)).
  - vm_compute. discriminate.
  - cbn. discriminate.
  - reflexivity.
  - vm_compute. discriminate.
  - repeat constructor.
  - reflexivity.
Defined.

Lemma since_extend (m m1 m' : Machine) (ev : list Event) :
  grows m m1 -> trace m' = trace m1 ++ ev -> since m m' = since m m1 ++ ev.
Proof.
  unfold grows. intros G T. apply since_app. now rewrite T, G, app_assoc.
Qed.


(** ** Installing and removing the service *)

Lemma Sleep_trace (ms : Z) (t : Tick) (m : Machine) :
  trace (Sleep ms t m) = trace m ++ [EvSleep ms].
Proof.
  unfold Sleep, Tamer_ServiceControl. cbv zeta.
  destruct (control t) as [request|]; [|reflexivity].
  cbn [set_host log gTamer].
  destruct (negb (serviceMode (gTamer m))); [reflexivity|].
  now destruct ((request =? SERVICE_CONTROL_STOP) || (request =? SERVICE_CONTROL_SHUTDOWN)).
Qed.

(** While the program sleeps, only the rest of the system changes the
    host. *)
Lemma Sleep_host (ms : Z) (t : Tick) (m : Machine) :
  host (Sleep ms t m) = meanwhile t (host m).
Proof.
  unfold Sleep, Tamer_ServiceControl. cbv zeta.
  destruct (control t) as [request|]; [|reflexivity].
  cbn [set_host log gTamer].
  destruct (negb (serviceMode (gTamer m))); [reflexivity|].
  now destruct ((request =? SERVICE_CONTROL_STOP) || (request =? SERVICE_CONTROL_SHUTDOWN)).
Qed.

(** An option that reads "-u" does not read "-i". *)
Lemma stricmp_u_not_i (option : string) :
  _stricmp option "-u" = 0 -> _stricmp option "-i" <> 0.
Proof.
  destruct option as [|c1 [|c2 rest]]; cbn [_stricmp]; cbv zeta.
  - discriminate.
  - change (code (tolower "-"%char)) with 45.
    destruct (code (tolower c1) - 45 =? 0) eqn:E; [discriminate|].
    intros H _. apply Z.eqb_neq in E. contradiction.
  - change (code (tolower "-"%char)) with 45.
    change (code (tolower "u"%char)) with 117.
    change (code (tolower "i"%char)) with 105.
    destruct (code (tolower c1) - 45 =? 0) eqn:E1.
    + destruct (code (tolower c2) - 117 =? 0) eqn:E2.
      * apply Z.eqb_eq in E2. intros _.
        destruct (code (tolower c2) - 105 =? 0) eqn:E3; [apply Z.eqb_eq in E3; lia|lia].
      * intros H. apply Z.eqb_neq in E2. contradiction.
    + intros H. apply Z.eqb_neq in E1. contradiction.
Qed.

Lemma scm_calls_app (a b : list Event) :
  scm_calls (a ++ b) = scm_calls a ++ scm_calls b.
Proof.
  induction a as [|e a IH]; [reflexivity|].
  destruct e; simpl; now rewrite ?IH.
Qed.

Lemma host_after_cons (t : Tick) (ticks : list Tick) (h : Host) :
  host_after (t :: ticks) h = host_after ticks (meanwhile t h).
Proof. reflexivity. Qed.

(** Events of reading the configuration are no enforcement, no sleep and
    no call to the service control manager. *)
Lemma config_reads_idle (ev : list Event) :
  Forall (fun e => is_config_read e = true) ev ->
  filter is_enforcement ev = [] /\ filter is_sleep ev = [] /\ scm_calls ev = [].
Proof.
  induction 1 as [|e ev He _ IH]; [now repeat split|].
  destruct IH as (I1 & I2 & I3).
  destruct e; try discriminate He; cbn; now repeat split.
Qed.

(** The wait of the uninstall code: [k] sleeps of 500 ms, one per tick, for
    as long as the stop is reported as pending. *)
Lemma stop_pending_loop_spec (ticks : list Tick) (m : Machine) :
  exists (k : nat) (ev : list Event),
    (k <= List.length ticks)%nat /\
    trace (snd (stop_pending_loop ticks m)) = trace m ++ ev /\
    filter is_enforcement ev = [] /\
    filter is_sleep ev = repeat (EvSleep 500) k /\
    host (snd (stop_pending_loop ticks m)) = host_after (firstn k ticks) (host m) /\
    fst (stop_pending_loop ticks m) <> Fault /\
    (fst (stop_pending_loop ticks m) = Running -> k = List.length ticks) /\
    (forall j, (j <= List.length ticks)%nat ->
       queryServiceStatus (scm (host_after (firstn j ticks) (host m)))
         <> Some SERVICE_STOP_PENDING ->
       fst (stop_pending_loop ticks m) = Returned tt /\ (k <= j)%nat).
Proof.
  revert m. induction ticks as [|t ticks IH]; intro m.
  - cbn [stop_pending_loop]. cbv zeta.
    destruct (queryServiceStatus (scm (host m))) as [state|] eqn:Q;
      [destruct (state =? SERVICE_STOP_PENDING) eqn:E|];
      exists O; eexists; cbn [fst snd sc log trace host];
      (split; [cbn; lia|]); (split; [reflexivity|]);
      (split; [reflexivity|]); (split; [reflexivity|]); (split; [reflexivity|]);
      (split; [discriminate|]); (split; [try discriminate; reflexivity|]).
    + intros j Hj Hq. assert (j = O) by (cbn in Hj; lia). subst j.
      cbn [firstn host_after fold_left] in Hq. apply Z.eqb_eq in E. subst state.
      contradiction.
    + intros j _ _. split; [reflexivity|lia].
    + intros j _ _. split; [reflexivity|lia].
  - cbn [stop_pending_loop]. cbv zeta.
    destruct (queryServiceStatus (scm (host m))) as [state|] eqn:Q;
      [destruct (state =? SERVICE_STOP_PENDING) eqn:E|].
    + destruct (IH (Sleep 500 (unattended t) (sc (ScQueryServiceStatus (Some state)) m)))
        as (k & ev & Hk & Ht & He & Hs & Hh & Hf & Hr & Hj).
      rewrite Sleep_host in Hh, Hj. rewrite Sleep_trace in Ht.
      cbn [sc log host trace unattended meanwhile] in Hh, Hj, Ht.
      exists (S k), ([EvServiceManager (ScQueryServiceStatus (Some state))]
                     ++ [EvSleep 500] ++ ev).
      split; [cbn [List.length]; lia|]. split; [now rewrite Ht, <- !app_assoc|].
      split; [cbn; exact He|]. split; [cbn; now rewrite Hs|].
      split; [exact Hh|]. split; [exact Hf|].
      split; [intro H; cbn [List.length]; now rewrite (Hr H)|].
      intros [|j] Hle Hq.
      * cbn [firstn host_after fold_left] in Hq. apply Z.eqb_eq in E. subst state.
        contradiction.
      * cbn [List.length] in Hle. cbn [firstn] in Hq. rewrite host_after_cons in Hq.
        destruct (Hj j ltac:(lia) Hq) as (H1 & H2). split; [exact H1|lia].
    + exists O; eexists; cbn [fst snd sc log trace host].
      split; [lia|]. split; [reflexivity|]. split; [reflexivity|].
      split; [reflexivity|]. split; [reflexivity|]. split; [discriminate|].
      split; [discriminate|]. intros j _ _. split; [reflexivity|lia].
    + exists O; eexists; cbn [fst snd sc log trace host].
      split; [lia|]. split; [reflexivity|]. split; [reflexivity|].
      split; [reflexivity|]. split; [reflexivity|]. split; [discriminate|].
      split; [discriminate|]. intros j _ _. split; [reflexivity|lia].
Qed.

(** The wait has no limit of its own: it goes on for as long as the stop is
    reported as pending. *)
Lemma stop_pending_loop_waits (ticks : list Tick) (m : Machine) :
  (forall j, (j <= List.length ticks)%nat ->
     queryServiceStatus (scm (host_after (firstn j ticks) (host m)))
       = Some SERVICE_STOP_PENDING) ->
  fst (stop_pending_loop ticks m) = Running.
Proof.
  revert m. induction ticks as [|t ticks IH]; intros m H;
    cbn [stop_pending_loop]; cbv zeta;
    pose proof (H O ltac:(cbn; lia)) as H0;
    cbn [firstn host_after fold_left] in H0; rewrite H0, Z.eqb_refl.
  - reflexivity.
  - apply IH. intros j Hj. rewrite Sleep_host. cbn [sc log host unattended meanwhile].
    apply (H (S j)). cbn [List.length]. lia.
Qed.

(** [Tamer_ServiceUninstall], as a whole. *)
Lemma ServiceUninstall_spec (ticks : list Tick) (m : Machine) :
  let r := Tamer_ServiceUninstall SRVC_TAME_SERVICE_NAME ticks m in
  let stop := uninstall_handles (host m) &&
              controlService (scm (host m)) SERVICE_CONTROL_STOP in
  exists ev,
    trace (snd r) = trace m ++ ev /\
    filter is_enforcement ev = [] /\
    (sleeps ev <= List.length ticks)%nat /\
    host (snd r) = host_after (firstn (sleeps ev) ticks) (host m) /\
    fst r <> Fault /\
    (fst r = Running -> stop = true /\ sleeps ev = List.length ticks) /\
    (forall code, fst r = Returned code ->
       code = if uninstall_handles (host m) && deleteService (scm (host (snd r)))
              then EXIT_SUCCESS else EXIT_FAILURE) /\
    (stop = false -> filter is_sleep ev = [] /\ exists code, fst r = Returned code) /\
    (stop = true -> ticks <> [] ->
       exists k, filter is_sleep ev = EvSleep 1000 :: repeat (EvSleep 500) k) /\
    (forall j, (1 <= j <= List.length ticks)%nat ->
       queryServiceStatus (scm (host_after (firstn j ticks) (host m)))
         <> Some SERVICE_STOP_PENDING ->
       (sleeps ev <= j)%nat /\ exists code, fst r = Returned code) /\
    (uninstall_handles (host m) = true ->
     forall code, fst r = Returned code ->
       In (ScDeleteService (deleteService (scm (host (snd r))))) (scm_calls ev)).
Proof.
  cbv zeta. unfold Tamer_ServiceUninstall, uninstall_handles. cbv zeta.
  cbn [sc log host].
  destruct (openSCManager (scm (host m)) SC_MANAGER_ALL_ACCESS) eqn:EM.
  2:{ eexists. cbn [fst snd trace andb sc log host].
      split; [reflexivity|]. split; [reflexivity|]. split; [cbn; lia|].
      split; [reflexivity|]. split; [discriminate|]. split; [discriminate|].
      split; [now intros code [= <-]|]. split; [intros _; split; [reflexivity|now eexists]|].
      split; [discriminate|]. split; [|discriminate].
      intros j _ _. split; [cbn; lia|now eexists]. }
  destruct (openService (scm (host m)) SRVC_TAME_SERVICE_NAME) eqn:ES.
  2:{ eexists. cbn [fst snd trace andb sc log host]. rewrite <- !app_assoc.
      split; [reflexivity|]. split; [reflexivity|]. split; [cbn; lia|].
      split; [reflexivity|]. split; [discriminate|]. split; [discriminate|].
      split; [now intros code [= <-]|]. split; [intros _; split; [reflexivity|now eexists]|].
      split; [discriminate|]. split; [|discriminate].
      intros j _ _. split; [cbn; lia|now eexists]. }
  cbn [andb].
  destruct (controlService (scm (host m)) SERVICE_CONTROL_STOP) eqn:EC.
  2:{ eexists. cbn [fst snd trace andb sc log host]. rewrite <- !app_assoc.
      split; [reflexivity|]. split; [reflexivity|]. split; [cbn; lia|].
      split; [reflexivity|]. split; [discriminate|]. split; [discriminate|].
      split; [now intros code [= <-]|]. split; [intros _; split; [reflexivity|now eexists]|].
      split; [discriminate|]. split.
      - intros j _ _. split; [cbn; lia|now eexists].
      - intros _ code _. cbn. tauto. }
  destruct ticks as [|t ticks].
  { eexists. cbn [fst snd trace sc log host]. rewrite <- !app_assoc.
    split; [reflexivity|]. split; [reflexivity|]. split; [cbn; lia|].
    split; [reflexivity|]. split; [discriminate|]. split; [now split|].
    split; [discriminate|]. split; [discriminate|]. split; [congruence|].
    split; [|discriminate]. intros j Hj. cbn in Hj. lia. }
  set (m3 := log (EvServiceManager (ScControlService SERVICE_CONTROL_STOP true))
               (log (EvServiceManager
                       (ScOpenService SRVC_TAME_SERVICE_NAME (Z.lor SERVICE_STOP DELETE) true))
                    (log (EvServiceManager (ScOpenSCManager SC_MANAGER_ALL_ACCESS true)) m))).
  destruct (stop_pending_loop_spec ticks (Sleep 1000 (unattended t) m3))
    as (k & ev & Hk & Ht & He & Hs & Hh & Hf & Hr & Hj).
  rewrite Sleep_host in Hh, Hj. rewrite Sleep_trace in Ht.
  subst m3. cbn [log host trace unattended meanwhile] in Hh, Hj, Ht.
  rewrite <- !app_assoc in Ht.
  cbn [List.app] in Ht.
  assert (Hsl : forall tail,
             filter is_sleep
               (EvServiceManager (ScOpenSCManager SC_MANAGER_ALL_ACCESS true)
                :: EvServiceManager
                     (ScOpenService SRVC_TAME_SERVICE_NAME (Z.lor SERVICE_STOP DELETE) true)
                :: EvServiceManager (ScControlService SERVICE_CONTROL_STOP true)
                :: EvSleep 1000 :: ev ++ tail) =
             EvSleep 1000 :: repeat (EvSleep 500) k ++ filter is_sleep tail)
    by (intro tail; cbn [filter is_sleep]; now rewrite filter_app, Hs).
  assert (Hen : forall tail,
             filter is_enforcement
               (EvServiceManager (ScOpenSCManager SC_MANAGER_ALL_ACCESS true)
                :: EvServiceManager
                     (ScOpenService SRVC_TAME_SERVICE_NAME (Z.lor SERVICE_STOP DELETE) true)
                :: EvServiceManager (ScControlService SERVICE_CONTROL_STOP true)
                :: EvSleep 1000 :: ev ++ tail) = filter is_enforcement tail)
    by (intro tail; cbn [filter is_enforcement]; now rewrite filter_app, He).
  destruct (stop_pending_loop ticks _) as [[[]| |] m4] eqn:EL; cbn [fst snd] in *.
  - (* the wait ends *)
    eexists. cbn [fst snd trace sc log host]. rewrite Ht, <- !app_assoc. cbn [List.app].
    split; [reflexivity|]. split; [now rewrite Hen|].
    unfold sleeps. rewrite Hsl. cbn [filter is_sleep List.length].
    rewrite app_nil_r, repeat_length.
    split; [lia|]. split; [exact Hh|]. split; [discriminate|]. split; [discriminate|].
    split; [now intros code [= <-]|]. split; [discriminate|].
    split; [intros _ _; now exists k|]. split.
    + intros [|j] Hle Hq; [lia|]. cbn [firstn] in Hq. rewrite host_after_cons in Hq.
      destruct (Hj j ltac:(cbn [List.length] in Hle; lia) Hq) as (_ & H2).
      split; [lia|now eexists].
    + intros _ code _. cbn [scm_calls]. do 3 right.
      rewrite scm_calls_app. apply in_or_app. right. cbn. tauto.
  - (* out of ticks *)
    exists (EvServiceManager (ScOpenSCManager SC_MANAGER_ALL_ACCESS true)
            :: EvServiceManager
                 (ScOpenService SRVC_TAME_SERVICE_NAME (Z.lor SERVICE_STOP DELETE) true)
            :: EvServiceManager (ScControlService SERVICE_CONTROL_STOP true)
            :: EvSleep 1000 :: ev ++ []).
    rewrite app_nil_r at 1.
    split; [exact Ht|]. split; [now rewrite Hen|].
    unfold sleeps. rewrite Hsl. cbn [filter List.length].
    rewrite app_nil_r, repeat_length. specialize (Hr eq_refl).
    split; [lia|]. split; [exact Hh|]. split; [discriminate|].
    split; [intros _; split; [reflexivity|now rewrite Hr]|].
    split; [discriminate|]. split; [discriminate|].
    split; [intros _ _; now exists k|]. split; [|discriminate].
    intros [|j] Hle Hq; [lia|]. cbn [firstn] in Hq. rewrite host_after_cons in Hq.
    destruct (Hj j ltac:(cbn [List.length] in Hle; lia) Hq) as (H1 & _). discriminate H1.
  - now contradiction Hf.
Qed.

Lemma ServiceUninstall_waits (ticks : list Tick) (m : Machine) :
  uninstall_handles (host m) && controlService (scm (host m)) SERVICE_CONTROL_STOP = true ->
  (forall j, (1 <= j <= List.length ticks)%nat ->
     queryServiceStatus (scm (host_after (firstn j ticks) (host m)))
       = Some SERVICE_STOP_PENDING) ->
  fst (Tamer_ServiceUninstall SRVC_TAME_SERVICE_NAME ticks m) = Running.
Proof.
  unfold uninstall_handles. intros Hs H.
  apply andb_true_iff in Hs. destruct Hs as (Hs & EC).
  apply andb_true_iff in Hs. destruct Hs as (EM & ES).
  unfold Tamer_ServiceUninstall. cbv zeta. cbn [sc log host]. rewrite EM, ES, EC.
  destruct ticks as [|t ticks]; [reflexivity|].
  rewrite (surjective_pairing (stop_pending_loop ticks _)).
  rewrite stop_pending_loop_waits; [reflexivity|].
  intros j Hj. rewrite Sleep_host. cbn [log host unattended meanwhile].
  apply (H (S j)). cbn [List.length]. lia.
Qed.


(** [main] with the option "-u", after a successful start-up read. *)
Lemma main_uninstall (procName option : string) (ticks : list Tick) (m0 : Machine) :
  fst (Tamer_ReadConfig (set_serviceMode SRVC_TAME_RUN_AS_SERVICE m0)) <> 0 ->
  _stricmp option "-u" = 0 ->
  let r := main [procName; option] ticks m0 in
  let ev := since m0 (snd r) in
  let stop := uninstall_handles (host m0) &&
              controlService (scm (host m0)) SERVICE_CONTROL_STOP in
  filter is_enforcement ev = [] /\
  fst r <> Fault /\
  (sleeps ev <= List.length ticks)%nat /\
  host (snd r) = host_after (firstn (sleeps ev) ticks) (host m0) /\
  (fst r = Running -> stop = true /\ sleeps ev = List.length ticks) /\
  (forall code, fst r = Returned code ->
     code = if uninstall_handles (host m0) && deleteService (scm (host (snd r)))
            then EXIT_SUCCESS else EXIT_FAILURE) /\
  (stop = false -> filter is_sleep ev = [] /\ exists code, fst r = Returned code) /\
  (stop = true -> ticks <> [] ->
     exists k, filter is_sleep ev = EvSleep 1000 :: repeat (EvSleep 500) k) /\
  (forall j, (1 <= j <= List.length ticks)%nat ->
     queryServiceStatus (scm (host_after (firstn j ticks) (host m0)))
       <> Some SERVICE_STOP_PENDING ->
     (sleeps ev <= j)%nat /\ exists code, fst r = Returned code) /\
  (uninstall_handles (host m0) = true ->
   forall code, fst r = Returned code ->
     In (ScDeleteService (deleteService (scm (host (snd r))))) (scm_calls ev)) /\
  (stop = true ->
   (forall j, (1 <= j <= List.length ticks)%nat ->
      queryServiceStatus (scm (host_after (firstn j ticks) (host m0)))
        = Some SERVICE_STOP_PENDING) ->
   fst r = Running).
Proof.
  intros Hn Hu. cbv zeta. unfold main. cbv zeta.
  pose proof (stricmp_u_not_i option Hu) as Hi.
  pose proof (ReadConfig_frame (set_serviceMode SRVC_TAME_RUN_AS_SERVICE m0)) as R.
  cbv zeta in R. destruct R as (RH & _ & _ & _ & _ & _ & RG & Rq).
  destruct (config_reads_idle _ Rq) as (Re & Rs & Rc).
  destruct (Tamer_ReadConfig (set_serviceMode SRVC_TAME_RUN_AS_SERVICE m0)) as [n m1].
  cbn [fst snd] in *.
  cbn [set_serviceMode set_gTamer gTamer host serviceMode SRVC_TAME_RUN_AS_SERVICE] in RH.
  apply Z.eqb_neq in Hn, Hi. rewrite Hn, Hi, Hu. cbn [Z.eqb].
  pose proof (ServiceUninstall_spec ticks m1) as U. cbv zeta in U.
  destruct U as (ev & Ut & Ue & Ul & Uh & Uf & Ur & Uc & Uz & Us & Uj & Ud).
  pose proof (ServiceUninstall_waits ticks m1) as Uw.
  rewrite RH in *.
  assert (S0 : forall (m' : Machine) (tail : list Event),
            trace m' = trace m1 ++ ev ++ tail ->
            since m0 m' =
            since (set_serviceMode SRVC_TAME_RUN_AS_SERVICE m0) m1 ++ ev ++ tail).
  { intros m' tail T.
    rewrite (since_same_trace m0 (set_serviceMode SRVC_TAME_RUN_AS_SERVICE m0))
      by reflexivity.
    now apply since_extend. }
  destruct (Tamer_ServiceUninstall SRVC_TAME_SERVICE_NAME ticks m1) as [[code| |] m2];
    cbn [fst snd] in *.
  - rewrite (S0 (log (EvPrintf (operation_report code)) m2) [EvPrintf (operation_report code)])
      by (cbn [log trace]; now rewrite Ut, <- app_assoc).
    unfold sleeps in *. rewrite !filter_app, !scm_calls_app, Re, Rs, Rc.
    cbn [filter is_enforcement is_sleep List.app log host]. rewrite !app_nil_r.
    split; [exact Ue|]. split; [discriminate|]. split; [exact Ul|]. split; [exact Uh|].
    split; [discriminate|]. split; [exact Uc|]. split; [exact Uz|]. split; [exact Us|].
    split; [exact Uj|]. split; [intros Hh code' Hc; exact (Ud Hh code' Hc)|].
    intros Hs Hp. discriminate (Uw Hs Hp).
  - rewrite (S0 m2 []) by (now rewrite app_nil_r).
    unfold sleeps in *. rewrite !filter_app, !scm_calls_app, Re, Rs, Rc.
    cbn [filter List.app]. rewrite !app_nil_r.
    split; [exact Ue|]. split; [discriminate|]. split; [exact Ul|]. split; [exact Uh|].
    split; [exact Ur|]. split; [discriminate|]. split; [exact Uz|]. split; [exact Us|].
    split; [exact Uj|]. split; [discriminate|]. reflexivity.
  - now contradiction Uf.
Qed.







(** X17.  Removing the service with the option "-u" (without regard to
    case), after a successful start-up read.  The code asks the service to
    stop and, if that request is accepted, sleeps 1000 ms once and then
    500 ms at a time for as long as the service control manager reports
    the stop as pending: there is no limit to this wait, but as soon as
    another state is reported, or the query fails, [main] returns.  If a
    handle is missing or the stop request is refused it does not sleep at
    all.  Whenever both handles were obtained, [DeleteService] is called
    before [main] returns, also when the stop request was refused, and its
    result alone decides the exit code. *)
Theorem X17_uninstall_waits_then_deletes
    (procName option : string) (ticks : list Tick) (m0 : Machine) :
  fst (Tamer_ReadConfig (set_serviceMode SRVC_TAME_RUN_AS_SERVICE m0)) <> 0 ->
  _stricmp option "-u" = 0 ->
  let r := main [procName; option] ticks m0 in
  let ev := since m0 (snd r) in
  let stop := uninstall_handles (host m0) &&
              controlService (scm (host m0)) SERVICE_CONTROL_STOP in
  (sleeps ev <= List.length ticks)%nat /\
  host (snd r) = host_after (firstn (sleeps ev) ticks) (host m0) /\
  (fst r = Running -> stop = true /\ sleeps ev = List.length ticks) /\
  (forall code, fst r = Returned code ->
     code = if uninstall_handles (host m0) && deleteService (scm (host (snd r)))
            then EXIT_SUCCESS else EXIT_FAILURE) /\
  (stop = false -> filter is_sleep ev = [] /\ exists code, fst r = Returned code) /\
  (stop = true -> ticks <> [] ->
     exists k, filter is_sleep ev = EvSleep 1000 :: repeat (EvSleep 500) k) /\
  (forall j, (1 <= j <= List.length ticks)%nat ->
     queryServiceStatus (scm (host_after (firstn j ticks) (host m0)))
       <> Some SERVICE_STOP_PENDING ->
     (sleeps ev <= j)%nat /\ exists code, fst r = Returned code) /\
  (uninstall_handles (host m0) = true ->
   forall code, fst r = Returned code ->
     In (ScDeleteService (deleteService (scm (host (snd r))))) (scm_calls ev)) /\
  (stop = true ->
   (forall j, (1 <= j <= List.length ticks)%nat ->
      queryServiceStatus (scm (host_after (firstn j ticks) (host m0)))
        = Some SERVICE_STOP_PENDING) ->
   fst r = Running).
Proof.
  intros Hn Hu. exact (proj2 (proj2 (main_uninstall procName option ticks m0 Hn Hu))).
Qed.

Lemma X17_uninstall_witness :
  let m0 := boot (Scenario.pc (Some Scenario.ini_gap)) 8 in
  let ticks := [Scenario.stopping; Scenario.stopping; Scenario.stopped; Scenario.quiet] in
  let r := main ["SrvcTame.exe"; "-U"] ticks m0 in
  (sleeps (since m0 (snd r)) <= 3)%nat /\
  (exists code, fst r = Returned code) /\
  (exists k, filter is_sleep (since m0 (snd r)) = EvSleep 1000 :: repeat (EvSleep 500) k) /\
  fst r = Returned EXIT_SUCCESS /\
  filter is_sleep (since m0 (snd r)) = [EvSleep 1000; EvSleep 500; EvSleep 500] /\
  In (ScDeleteService true) (scm_calls (since m0 (snd r))).
Proof.
  cbv zeta.
  destruct (X17_uninstall_waits_then_deletes
              "SrvcTame.exe" "-U"
              [Scenario.stopping; Scenario.stopping; Scenario.stopped; Scenario.quiet]
              (boot (Scenario.pc (Some Scenario.ini_gap)) 8))
    as (_ & _ & _ & _ & _ & S & J & _).
  - vm_compute. discriminate.
  - vm_compute. reflexivity.
  - destruct (J 3%nat ltac:(cbn; lia) ltac:(vm_compute; discriminate)) as (J1 & J2).
    split; [exact J1|]. split; [exact J2|].
    split; [apply S; [reflexivity|discriminate]|].
    split; [vm_compute; reflexivity|]. split; [vm_compute; reflexivity|].
    vm_compute. tauto.
Defined.

Lemma ServiceProcess_config (m : Machine) :
  gTamer (snd (Tamer_ServiceProcess m)) = gTamer (snd (Tamer_ReadConfig m)).
Proof.
  rewrite ServiceProcess_spec.
  destruct (fst (Tamer_ReadConfig m) =? 0); [reflexivity|].
  cbn [snd]. apply (foreach_frame _ (snd (Tamer_ReadConfig m))).
Qed.

(** One turn of the service loop: the cycle, then the sleep. *)
Lemma service_loop_one (t : Tick) (m : Machine) (c : Tamer_Config) :
  dwCurrentState (ServiceStatus (gTamer m)) = SERVICE_RUNNING ->
  config (gTamer (snd (Tamer_ServiceProcess m))) = Some c ->
  snd (service_loop [t] m) = Sleep (interval c) t (snd (Tamer_ServiceProcess m)).
Proof.
  intros Hrun C. cbn [service_loop]. rewrite Hrun. cbn [Z.eqb Pos.eqb SERVICE_RUNNING].
  rewrite C. now destruct (_ =? _).
Qed.

(** X14.  A changed interval is used at once.  In the cycle that detects a
    changed source, the sleep that ends this very cycle already lasts the
    [Interval] of the new source (10000 ms when the new source has no such
    key): the loop reads [gTamer.config->interval] after the cycle's
    reload. *)
Theorem X14_new_interval_applies_to_same_cycle
    (m : Machine) (file content : string) (t : Tick) :
  dwCurrentState (ServiceStatus (gTamer m)) = SERVICE_RUNNING ->
  ini_path m = Some file ->
  files (host m) file = Some content ->
  Tamer_CRC2 (list_byte_of_string content) <> 0 ->
  Tamer_CRC2 (list_byte_of_string content) <> stored_crc m ->
  filter is_sleep (since m (snd (service_loop [t] m))) =
    [EvSleep (GetPrivateProfileInt (host m) "Service" "Interval" SRVC_TAME_INTERVAL file)].
Proof.
  intros Hrun P Hfile NZ Hchg.
  destruct (ReadConfig_changed m file content P Hfile NZ Hchg)
    as (c & m2 & R & Hp & Hh & _).
  destruct (reload_shape (Tamer_CRC2 (list_byte_of_string content)) c m2)
    as (head & budget & tr' & E & _).
  assert (C : config (gTamer (snd (Tamer_ServiceProcess m))) =
              Some (mkConfig
                      (GetPrivateProfileString (host m) "Service" "DisplayName"
                         SRVC_TAME_SERVICE_DISPLAY_NAME (256 - 1) file)
                      (GetPrivateProfileString (host m) "Service" "Description"
                         SRVC_TAME_SERVICE_DESCRIPTION (256 - 1) file)
                      file
                      (GetPrivateProfileInt (host m) "Service" "Interval"
                         SRVC_TAME_INTERVAL file)
                      (Tamer_CRC2 (list_byte_of_string content)) head))
    by (rewrite ServiceProcess_config, R, E, Hp, Hh; reflexivity).
  rewrite (service_loop_one t m _ Hrun C). cbn [interval].
  pose proof (ServiceProcess_frame m) as F. cbv zeta in F.
  destruct F as (_ & _ & _ & PG & Pz & _).
  rewrite (since_extend _ _ _ _ PG (Sleep_trace _ t _)), filter_app.
  unfold sleeps in Pz. apply length_zero_iff_nil in Pz. now rewrite Pz.
Qed.

Lemma X14_new_interval_witness :
  let m := Scenario.started Scenario.ini_gap in
  let edited :=
    set_host (Scenario.with_source (Some Scenario.ini_norules) (host m))
      (set_ServiceStatus (mkStatus SERVICE_WIN32 SERVICE_RUNNING 5 0) m) in
  match config (gTamer m) with Some c => interval c | None => 0 end = 500 /\
  filter is_sleep (since edited (snd (service_loop [Scenario.quiet] edited))) =
    [EvSleep (GetPrivateProfileInt (host edited) "Service" "Interval" SRVC_TAME_INTERVAL
                Scenario.ini_file)] /\
  GetPrivateProfileInt (host edited) "Service" "Interval" SRVC_TAME_INTERVAL
    Scenario.ini_file = 250.
Proof.
  cbv zeta. split; [vm_compute; reflexivity|]. split; [|vm_compute; reflexivity].
  apply (X14_new_interval_applies_to_same_cycle _ Scenario.ini_file Scenario.ini_norules).
  - reflexivity.
  - vm_compute. reflexivity.
  - vm_compute. reflexivity.
  - vm_compute. discriminate.
  - vm_compute. discriminate.
Defined.

(** ** The earlier revision against the current one *)

Lemma legacy_scan_entry_rel (exeName : string) (q : Z) (b : bool) (ml m : Machine)
    (pEntry : PROCESSENTRY32) :
  host ml = host m ->
  exists ev,
    trace (snd (Legacy.scan_entry exeName (b, ml) pEntry)) = trace ml ++ ev /\
    host (snd (Legacy.scan_entry exeName (b, ml) pEntry)) =
      host (scan_entry (mkProc exeName q) m pEntry) /\
    gTamer (snd (Legacy.scan_entry exeName (b, ml) pEntry)) = gTamer ml /\
    open_attempts ev = open_attempts (entry_events (mkProc exeName q) (host m) pEntry) /\
    set_calls ev = set_calls (entry_events (mkProc exeName q) (host m) pEntry) /\
    snapshots ev = O /\ sleeps ev = O /\
    fst (Legacy.scan_entry exeName (b, ml) pEntry) =
      match set_calls (entry_events (mkProc exeName q) (host m) pEntry) with
      | [] => b
      | _ => true
      end.
Proof.
  intro H. unfold Legacy.scan_entry, scan_entry, entry_events, SetPriorityClass.
  cbn [procName log host]. rewrite H.
  destruct (_stricmp (szExeFile pEntry) exeName =? 0).
  - destruct (canOpen (host m) (th32ProcessID pEntry)).
    + destruct (priorityClass (host m) (th32ProcessID pEntry) =? IDLE_PRIORITY_CLASS);
        cbn [fst snd log trace host set_host gTamer]; rewrite <- ?app_assoc;
        eexists; (split; [reflexivity|]); rewrite ?H; now repeat split.
    + cbn [fst snd log trace host gTamer]. rewrite <- ?app_assoc.
      eexists. split; [reflexivity|]. now repeat split.
  - exists []. cbn [fst snd]. rewrite app_nil_r. now repeat split.
Qed.

Lemma legacy_walk_rel (exeName : string) (q : Z) (snapshot : list PROCESSENTRY32) :
  forall (b : bool) (ml m : Machine),
  host ml = host m ->
  exists ev,
    trace (snd (Legacy.walk_snapshot exeName snapshot (b, ml))) = trace ml ++ ev /\
    host (snd (Legacy.walk_snapshot exeName snapshot (b, ml))) =
      host (walk_snapshot (mkProc exeName q) snapshot m) /\
    gTamer (snd (Legacy.walk_snapshot exeName snapshot (b, ml))) = gTamer ml /\
    open_attempts ev =
      open_attempts (since m (walk_snapshot (mkProc exeName q) snapshot m)) /\
    set_calls ev = set_calls (since m (walk_snapshot (mkProc exeName q) snapshot m)) /\
    snapshots ev = O /\ sleeps ev = O /\
    fst (Legacy.walk_snapshot exeName snapshot (b, ml)) =
      match set_calls (since m (walk_snapshot (mkProc exeName q) snapshot m)) with
      | [] => b
      | _ => true
      end.
Proof.
  induction snapshot as [|pEntry rest IH]; intros b ml m H.
  - exists []. cbn [Legacy.walk_snapshot walk_snapshot fst snd].
    rewrite app_nil_r, since_refl. now repeat split.
  - cbn [Legacy.walk_snapshot]. rewrite walk_snapshot_since. cbn [walk_snapshot].
    destruct (legacy_scan_entry_rel exeName q b ml m pEntry H)
      as (ev1 & T1 & H1 & G1 & O1 & S1 & N1 & Z1 & B1).
    destruct (Legacy.scan_entry exeName (b, ml) pEntry) as [b1 ml1].
    cbn [fst snd] in *.
    destruct (IH b1 ml1 (scan_entry (mkProc exeName q) m pEntry) H1)
      as (ev2 & T2 & H2 & G2 & O2 & S2 & N2 & Z2 & B2).
    exists (ev1 ++ ev2).
    split; [now rewrite T2, T1, <- app_assoc|].
    split; [exact H2|]. split; [congruence|].
    split; [now rewrite !open_attempts_app, O1, O2|].
    split; [now rewrite !set_calls_app, S1, S2|].
    split; [now rewrite snapshots_app, N1, N2|].
    split; [now rewrite sleeps_app, Z1, Z2|].
    rewrite B2, B1, set_calls_app.
    destruct (set_calls (entry_events (mkProc exeName q) (host m) pEntry)) as [|x l];
      [reflexivity|].
    cbn [List.app]. now destruct (set_calls (since _ _)).
Qed.

(** The two revisions' scans make the same calls and leave the same host. *)
Lemma legacy_scan_agrees (exeName : string) (q : Z) (m : Machine) :
  let old := Legacy.Tamer_SetProcessPriority exeName m in
  let new := Tamer_SetProcessPriority (mkProc exeName q) m in
  host (snd old) = host new /\
  open_attempts (since m (snd old)) = open_attempts (since m new) /\
  set_calls (since m (snd old)) = set_calls (since m new) /\
  snapshots (since m (snd old)) = 1%nat /\
  (fst old = true <-> set_calls (since m (snd old)) <> []).
Proof.
  cbv zeta. unfold Legacy.Tamer_SetProcessPriority. cbv zeta.
  rewrite SetProcessPriority_since. unfold Tamer_SetProcessPriority. cbv zeta.
  destruct (legacy_walk_rel exeName q (processTable (host (log EvSnapshot m))) false
              (log EvSnapshot m) (log EvSnapshot m) eq_refl)
    as (ev & T & H & _ & O & S & N & Z & B).
  assert (E : since m (snd (Legacy.walk_snapshot exeName
                              (processTable (host (log EvSnapshot m)))
                              (false, log EvSnapshot m))) = EvSnapshot :: ev).
  { apply since_app. rewrite T. cbn [log trace]. now rewrite <- app_assoc. }
  rewrite E. cbn [open_attempts set_calls]. unfold snapshots in *.
  cbn [filter is_snapshot List.length]. cbn [log host] in *.
  rewrite N, O, S, B.
  repeat split; try assumption.
  - now destruct (set_calls (since _ _)).
  - now destruct (set_calls (since _ _)).
Qed.

(** X15.  The earlier revision's scan does to the processes what the
    current one does.  For the same name and host the two make the same
    [OpenProcess] and [SetPriorityClass] calls in the same order, take one
    snapshot each and leave the same host; the rule's priority, which only
    the current one has, makes no difference.  The earlier one's result is
    true exactly when it called [SetPriorityClass] at least once. *)
Theorem X15_legacy_scan_agrees (exeName : string) (q : Z) (m : Machine) :
  let old := Legacy.Tamer_SetProcessPriority exeName m in
  let new := Tamer_SetProcessPriority (mkProc exeName q) m in
  host (snd old) = host new /\
  open_attempts (since m (snd old)) = open_attempts (since m new) /\
  set_calls (since m (snd old)) = set_calls (since m new) /\
  snapshots (since m (snd old)) = 1%nat /\
  (fst old = true <-> set_calls (since m (snd old)) <> []).
Proof. exact (legacy_scan_agrees exeName q m). Qed.

Lemma GetPrivateProfileString_files (h h' : Host) (app key def : string) (nSize : Z)
    (file : string) :
  files h' = files h ->
  GetPrivateProfileString h' app key def nSize file =
  GetPrivateProfileString h app key def nSize file.
Proof. intro H. unfold GetPrivateProfileString. now rewrite H. Qed.

Lemma legacy_SetProcessPriority_facts (exeName : string) (m : Machine) :
  let m' := snd (Legacy.Tamer_SetProcessPriority exeName m) in
  grows m m' /\
  open_attempts (since m m') = expected_attempts (host m) (mkProc exeName 0) /\
  sleeps (since m m') = O /\
  gTamer m' = gTamer m /\
  files (host m') = files (host m) /\
  processTable (host m') = processTable (host m) /\
  canOpen (host m') = canOpen (host m).
Proof.
  cbv zeta.
  destruct (legacy_scan_agrees exeName 0 m) as (H & O & _).
  cbv zeta in H, O.
  pose proof (SetProcessPriority_frame (mkProc exeName 0) m) as F. cbv zeta in F.
  destruct F as (_ & _ & Ft & Fo & Ff & _).
  rewrite O, SetProcessPriority_attempts, H.
  unfold Legacy.Tamer_SetProcessPriority. cbv zeta.
  destruct (legacy_walk_rel exeName 0 (processTable (host (log EvSnapshot m))) false
              (log EvSnapshot m) (log EvSnapshot m) eq_refl)
    as (ev & T & _ & G & _ & _ & _ & Z & _).
  assert (T' : trace (snd (Legacy.walk_snapshot exeName
                             (processTable (host (log EvSnapshot m)))
                             (false, log EvSnapshot m))) = trace m ++ EvSnapshot :: ev)
    by (rewrite T; cbn [log trace]; now rewrite <- app_assoc).
  rewrite (since_app _ _ _ T').
  split; [eapply grows_app, T'|]. now repeat split.
Qed.

(** More rounds than needed change nothing. *)
Lemma legacy_scan_keys_mono (rounds : nat) (file : string) :
  forall (processIndex : Z) (m m' : Machine),
  Legacy.scan_keys rounds file processIndex m = Some m' ->
  Legacy.scan_keys (S rounds) file processIndex m = Some m'.
Proof.
  induction rounds as [|rounds IH]; intros processIndex m m' H; [discriminate|].
  cbn [Legacy.scan_keys] in H. change (Legacy.scan_keys (S (S rounds)) file processIndex m)
    with (let exeName :=
            GetPrivateProfileString (host m) "Processes" (Legacy.process_key processIndex)
                                    EmptyString 256 file in
          let m1 := log (EvProfileString "Processes" (Legacy.process_key processIndex)) m in
          if strlen exeName =? 0 then Some m1
          else Legacy.scan_keys (S rounds) file (processIndex + 1)
                 (snd (Legacy.Tamer_SetProcessPriority exeName m1))).
  cbv zeta. destruct (strlen _ =? 0); [exact H|]. now apply IH.
Qed.

Lemma legacy_scan_keys_enough (rounds rounds' : nat) (file : string) (processIndex : Z)
    (m m' : Machine) :
  Legacy.scan_keys rounds file processIndex m = Some m' ->
  (rounds <= rounds')%nat ->
  Legacy.scan_keys rounds' file processIndex m = Some m'.
Proof.
  intros H Hle. induction Hle as [|r Hle IH]; [exact H|].
  now apply legacy_scan_keys_mono.
Qed.

Lemma legacy_scan_keys_run (file : string) (count : nat) :
  forall (processIndex : Z) (m : Machine),
  (forall i, In i (indices processIndex count) ->
             legacy_name_defined (host m) file i = true) ->
  legacy_name_defined (host m) file (processIndex + Z.of_nat count) = false ->
  exists m',
    Legacy.scan_keys (S count) file processIndex m = Some m' /\
    grows m m' /\
    open_attempts (since m m') =
      flat_map (fun i => expected_attempts (host m) (mkProc (legacy_name_at (host m) file i) 0))
               (indices processIndex count) /\
    sleeps (since m m') = O /\
    gTamer m' = gTamer m.
Proof.
  induction count as [|count IH]; intros processIndex m Hdef Hend.
  - rewrite Z.add_0_r in Hend. unfold legacy_name_defined, legacy_name_at in Hend.
    apply negb_false_iff in Hend. cbn [Legacy.scan_keys]. rewrite Hend.
    eexists. split; [reflexivity|].
    assert (T : trace (log (EvProfileString "Processes" (Legacy.process_key processIndex)) m) =
                trace m ++ [EvProfileString "Processes" (Legacy.process_key processIndex)])
      by reflexivity.
    rewrite (since_app _ _ _ T). repeat split. eapply grows_app, T.
  - assert (Hfirst : legacy_name_defined (host m) file processIndex = true)
      by (apply Hdef; rewrite indices_succ; now left).
    unfold legacy_name_defined, legacy_name_at in Hfirst. apply negb_true_iff in Hfirst.
    change (Legacy.scan_keys (S (S count)) file processIndex m)
      with (let exeName :=
              GetPrivateProfileString (host m) "Processes" (Legacy.process_key processIndex)
                                      EmptyString 256 file in
            let m1 := log (EvProfileString "Processes" (Legacy.process_key processIndex)) m in
            if strlen exeName =? 0 then Some m1
            else Legacy.scan_keys (S count) file (processIndex + 1)
                   (snd (Legacy.Tamer_SetProcessPriority exeName m1))).
    cbv zeta. rewrite Hfirst.
    set (exeName := GetPrivateProfileString (host m) "Processes"
                      (Legacy.process_key processIndex) EmptyString 256 file) in *.
    set (m1 := log (EvProfileString "Processes" (Legacy.process_key processIndex)) m).
    pose proof (legacy_SetProcessPriority_facts exeName m1) as F. cbv zeta in F.
    destruct F as (G2 & O2 & Z2 & Fg & Ff & Ft & Fo).
    set (m2 := snd (Legacy.Tamer_SetProcessPriority exeName m1)) in *.
    change (host m1) with (host m) in *. change (gTamer m1) with (gTamer m) in *.
    assert (Hname : forall i, legacy_name_at (host m2) file i = legacy_name_at (host m) file i)
      by (intro i; unfold legacy_name_at; now apply GetPrivateProfileString_files).
    destruct (IH (processIndex + 1) m2) as (m' & R & G3 & O3 & Z3 & Fg3).
    + intros i Hi. unfold legacy_name_defined. rewrite Hname.
      apply Hdef. rewrite indices_succ. now right.
    + unfold legacy_name_defined. rewrite Hname.
      replace (processIndex + 1 + Z.of_nat count) with (processIndex + Z.of_nat (S count))
        by lia.
      exact Hend.
    + exists m'. split; [exact R|].
      assert (G1 : grows m m1)
        by now apply grows_app
             with (ev := [EvProfileString "Processes" (Legacy.process_key processIndex)]).
      assert (S1 : since m m1 = [EvProfileString "Processes" (Legacy.process_key processIndex)])
        by now apply since_app.
      pose proof (grows_trans _ _ _ G2 G3) as G23.
      split; [eapply grows_trans; eassumption|].
      rewrite (since_trans _ _ _ G1 G23), (since_trans _ _ _ G2 G3), S1.
      rewrite !open_attempts_app, !sleeps_app, O2, O3, Z2, Z3, indices_succ.
      cbn [flat_map open_attempts]. split; [|split; [reflexivity|congruence]].
      rewrite app_nil_l. apply f_equal2; [reflexivity|].
      apply flat_map_ext. intro i. rewrite Hname.
      now apply expected_attempts_frame.
Qed.

(** X16.  A cycle of the earlier revision.  With the directory resolved,
    the cycle reads [Process1], [Process2], ... from the INI file, scans
    for each name as it reads it, and stops at the first missing key.
    When the keys 1 .. [count] are there and key [count + 1] is not, it
    returns true, and its [OpenProcess] calls are those of the scans for
    the names 1 .. [count], in that order; any number of rounds above
    [count] gives this one result.  With [count = 0], as for a missing or
    empty file, the cycle still returns true and touches no process. *)
Theorem X16_legacy_cycle_scans_contiguous_keys
    (m : Machine) (dir : string) (count : nat) :
  (if serviceMode (gTamer m)
   then windowsDirectory (host m) else currentDirectory (host m)) = Some dir ->
  dir <> EmptyString ->
  let file := snprintf MAX_PATH (dir ++ "\" ++ SRVC_TAME_INI_FILE) in
  (forall i, In i (indices 1 count) -> legacy_name_defined (host m) file i = true) ->
  legacy_name_defined (host m) file (1 + Z.of_nat count) = false ->
  exists m',
    (forall rounds, (count < rounds)%nat ->
       Legacy.Tamer_ServiceProcess rounds m = Some (true, m')) /\
    open_attempts (since m m') =
      flat_map (fun i => expected_attempts (host m) (mkProc (legacy_name_at (host m) file i) 0))
               (indices 1 count) /\
    sleeps (since m m') = O /\
    gTamer m' = gTamer m.
Proof.
  intros D Hd file Hdef Hend.
  destruct (legacy_scan_keys_run file count 1 m Hdef Hend) as (m1 & R & G & O & Z & Fg).
  exists (log (EvPrintf Legacy.newline) m1).
  assert (T : trace (log (EvPrintf Legacy.newline) m1) = trace m1 ++ [EvPrintf Legacy.newline])
    by reflexivity.
  rewrite (since_extend _ _ _ _ G T), open_attempts_app, sleeps_app, O, Z, app_nil_r.
  split; [|now repeat split].
  intros rounds Hr. unfold Legacy.Tamer_ServiceProcess. rewrite D.
  destruct dir as [|a dir]; [contradiction|].
  fold file. now rewrite (legacy_scan_keys_enough _ rounds _ _ _ _ R) by lia.
Qed.

Lemma X16_legacy_cycle_witness :
  let source := Scenario.text ["[Processes]"; "Process1=foo.exe"; "Process3=bar.exe"] in
  let m := set_serviceMode true (boot (Scenario.pc (Some source)) 0) in
  exists m',
    (forall rounds, (1 < rounds)%nat ->
       Legacy.Tamer_ServiceProcess rounds m = Some (true, m')) /\
    open_attempts (since m m') =
      flat_map (fun i => expected_attempts (host m)
                           (mkProc (legacy_name_at (host m) Scenario.ini_file i) 0))
               (indices 1 1) /\
    sleeps (since m m') = O /\
    gTamer m' = gTamer m.
Proof.
  cbv zeta.
  apply (X16_legacy_cycle_scans_contiguous_keys
           (set_serviceMode true
              (boot (Scenario.pc (Some (Scenario.text
                                          ["[Processes]"; "Process1=foo.exe";
                                           "Process3=bar.exe"]))) 0))
           "C:\Windows" 1).
  - reflexivity.
  - discriminate.
  - intros i Hi. vm_compute in Hi. destruct Hi as [<-|[]]. vm_compute. reflexivity.
  - vm_compute. reflexivity.
Defined.
